(** * z3nch4in: the transaction lifecycle of the testnet automation tool

    A shallow embedding of the nonce tracker, gas pricer, gas estimator,
    operation scheduler, faucet retry loop and the per-contract workflows of
    [src/ContractDeployer.js], [src/ERC20TokenDeployer.js], [src/NFTManager.js],
    [src/BatchOperationManager.js], [src/ContractTesterManager.js],
    [src/transfer.js] and [src/FaucetManager.js], and of what surrounds them:
    the order and the retries of a wallet's operations ([index.js]), the
    CAPTCHA solver ([utils/CaptchaSolver.js]) and the random delays
    ([utils/delayUtils.js]).

    Conventions.
    - Integers that the code holds as [BigInt] (nonces, wei amounts, gas
      quantities returned by the node) are [Z].
    - The awaited ledger calls are answered by an explicit environment
      ([ledger_pass], one record per pass through the lifecycle); [None]
      stands for a rejected promise.
    - JavaScript exceptions keep every mutation made before the throw, so the
      effect monad threads the state outside the outcome.
    - [Number(n) * 1.2] and [Math.random() * n] are modelled bit for bit
      (binary64, round to nearest, ties to even); counts and their ranges are
      integers below [2^53] in magnitude, on which the double additions are
      exact.  The gas-price product and the burn shares are evaluated in
      exact rational arithmetic, with values outside the binary64 range
      becoming infinities.
    - The calls into web3 that are not awaited (building a contract or a
      method object, encoding its call data) are taken to return, as they do
      for arguments of the types of the contract's interface.  The one
      workflow whose arguments come from the configuration is the ERC20
      token's, and its properties name the values they hold for
      ([ERC20Flow.encodable]). *)

From Stdlib Require Import ZArith QArith Qround Qminmax Lia List String Bool.
From Stdlib Require Import Permutation Sorted Ascii.
Import ListNotations.
Open Scope Z_scope.

(* ===================================================================== *)
(** * Part I: the program *)
(* ===================================================================== *)

(** ** Binary64 arithmetic on integers

    A finite binary64 value is an integer of at most 53 significant bits times
    a power of two.  The products the code takes have one integer operand and
    one operand that is such an integer times [2^-52] or [2^-53], so each is
    the rounding of an integer, rescaled. *)

Module Binary64.

(** Position of the last kept bit when [p] is rounded to 53 significant
    bits. *)
Definition shift_of (p : Z) : Z := Z.max 0 (Z.log2 p - 52).

(** Round the non-negative integer [p] to the nearest integer having at most
    53 significant bits, ties to even. *)
Definition round53 (p : Z) : Z :=
  let k := shift_of p in
  let q := p / 2 ^ k in
  let r := p mod 2 ^ k in
  let up := (2 ^ k <? 2 * r) || ((2 ^ k =? 2 * r) && Z.odd q) in
  (if up then q + 1 else q) * 2 ^ k.

(** The same for either sign: rounding is symmetric about zero. *)
Definition round53s (p : Z) : Z :=
  if p <? 0 then - round53 (- p) else round53 p.

(** The literal [1.2] is the double [0x3FF3333333333333], that is
    [mantissa_1_2 * 2^-52]. *)
Definition mantissa_1_2 : Z := 5404319552844595.

(** [Math.floor(Number(n) * 1.2)] for a non-negative bigint [n] whose
    product stays below [2^1024]: conversion, product and floor. *)
Definition floor_mul_1_2 (n : Z) : Z :=
  round53 (round53 n * mantissa_1_2) / 2 ^ 52.

(** [Math.random()] returns a double [j * 2^-53] with [0 <= j < 2^53]; the
    argument is the raw integer of the generator and the result is [j]. *)
Definition Math_random (seed : Z) : Z := seed mod 2 ^ 53.

(** [Math.floor(Math.random() * n)] for an integer [n] below [2^53] in
    magnitude: the product is rounded to binary64, then floored. *)
Definition floor_random_times (seed n : Z) : Z :=
  round53s (Math_random seed * n) / 2 ^ 53.

End Binary64.

(** ** JavaScript values *)

Module JS.

(** [x || d] where [x] is an optional integer leaf of the configuration:
    [undefined] and [0] are falsy. *)
Definition or_default (x : option Z) (d : Z) : Z :=
  match x with
  | Some v => if v =? 0 then d else v
  | None => d
  end.

(** The same for a numeric leaf that may hold a fraction. *)
Definition or_defaultQ (x : option Q) (d : Q) : Q :=
  match x with
  | Some v => if Qeq_bool v 0 then d else v
  | None => d
  end.

Definition Math_floor : Q -> Z := Qfloor.
Definition Math_ceil : Q -> Z := Qceiling.

(** [s.includes(t)] *)
Fixpoint includes_from (fuel : nat) (s t : string) : bool :=
  if String.prefix t s then true
  else match fuel, s with
       | S fuel', String _ s' => includes_from fuel' s' t
       | _, _ => false
       end.
Definition includes (s t : string) : bool := includes_from (String.length s) s t.

(** A JavaScript number: a finite value or one of the three special ones. *)
Inductive number :=
| Finite (q : Q)
| PosInfinity
| NegInfinity
| NaN.

(** Finite results at or beyond [2^1024 - 2^970] round to an infinity. *)
Definition overflow_threshold : Q := inject_Z (2 ^ 1024 - 2 ^ 970).

Definition overflow (q : Q) : number :=
  if Qle_bool overflow_threshold q then PosInfinity
  else if Qle_bool q (- overflow_threshold) then NegInfinity
  else Finite q.

Definition is_zero (q : Q) : bool := Qeq_bool q 0.
Definition is_neg (q : Q) : bool := negb (Qle_bool 0 q).

Definition mul (x y : number) : number :=
  match x, y with
  | NaN, _ | _, NaN => NaN
  | Finite a, Finite b => overflow (a * b)
  | Finite a, PosInfinity | PosInfinity, Finite a =>
      if is_zero a then NaN else if is_neg a then NegInfinity else PosInfinity
  | Finite a, NegInfinity | NegInfinity, Finite a =>
      if is_zero a then NaN else if is_neg a then PosInfinity else NegInfinity
  | PosInfinity, PosInfinity | NegInfinity, NegInfinity => PosInfinity
  | PosInfinity, NegInfinity | NegInfinity, PosInfinity => NegInfinity
  end.

(** [Math.pow(b, n)] for an integer exponent [n >= 0]. *)
Fixpoint pow_nat (b : number) (n : nat) : number :=
  match n with
  | O => Finite 1
  | S n' => mul b (pow_nat b n')
  end.
Definition Math_pow (b : number) (n : Z) : number := pow_nat b (Z.to_nat n).

(** [Number(n)] for a bigint. *)
Definition Number_of_bigint (n : Z) : number := overflow (inject_Z n).

(** [x || d] on numbers: [0] and [NaN] are falsy. *)
Definition or_number (x : option number) (d : number) : number :=
  match x with
  | Some (Finite q) => if is_zero q then d else Finite q
  | Some NaN | None => d
  | Some v => v
  end.

(** [BigInt(Math.floor(x))]; [None] is the [RangeError] thrown for a value
    that is not a finite integer. *)
Definition BigInt_floor (x : number) : option Z :=
  match x with
  | Finite q => Some (Qfloor q)
  | _ => None
  end.

End JS.

(** ** Constants ([utils/constants.js]) *)

Module constants.

Module GAS.
Definition PRICE_MULTIPLIER : JS.number := JS.Finite (11 # 10).
Definition RETRY_INCREASE : JS.number := JS.Finite (13 # 10).
Definition MIN_GWEI : Q := 1 # 10000.
Definition MAX_GWEI : Q := 200 # 1.
Definition DEFAULT_GAS : Z := 150000.
End GAS.

Module TRANSFER.
End TRANSFER.

End constants.

(** [web3.utils.toWei(x, 'gwei')] on a decimal with at most nine places. *)
Definition toWei_gwei (x : Q) : Z := Qfloor (x * inject_Z (10 ^ 9)).

Definition minGasPrice : Z := Eval vm_compute in toWei_gwei constants.GAS.MIN_GWEI.
Definition maxGasPrice : Z := Eval vm_compute in toWei_gwei constants.GAS.MAX_GWEI.


(** ** Effects: cached nonce, exceptions and the trace of ledger actions *)

(** What one pass through the lifecycle observes of the outside world.  Each
    field answers one awaited call; [None] (or [false]) is a rejection. *)
Record ledger_pass := {
  transactionCount : option Z;   (* web3.eth.getTransactionCount(address) *)
  networkGasPrice : option Z;    (* web3.eth.getGasPrice() *)
  gasEstimate : option Z;        (* estimateGas(tx) *)
  signs : bool;                  (* accounts.signTransaction resolves *)
  broadcasts : bool;             (* sendSignedTransaction resolves *)
  readsBack : bool;              (* the read-only call after a send resolves *)
  ownerIsSelf : option bool;     (* ownerOf(tokenId).call() and the comparison *)
  balance : option Z             (* web3.eth.getBalance(address) *)
}.

Inductive event :=
| TransactionCountQueried (ok : bool)
| MethodPrepared (name : string) (arg : Z)
| Signed (nonce gas gasPrice : Z) (ok : bool)
| IncrementNonceCalled
| Broadcast (nonce : Z) (ok : bool).

(** [this.currentNonce]: [None] is [null]. *)
Definition nonce_state := option Z.

Inductive outcome (A : Type) :=
| Returned (a : A)
| Thrown.
Arguments Returned {A} a.
Arguments Thrown {A}.

(** A computation reads and writes the cached nonce, returns or throws, and
    emits events.  The state after a throw is the state at the throw. *)
Definition M (A : Type) : Type := nonce_state -> outcome A * nonce_state * list event.

Definition ret {A} (a : A) : M A := fun s => (Returned a, s, []).

Definition throw {A} : M A := fun s => (Thrown, s, []).

Definition emit (e : event) : M unit := fun s => (Returned tt, s, [e]).

Definition bind {A B} (m : M A) (f : A -> M B) : M B := fun s =>
  match m s with
  | (Returned a, s1, t1) =>
      match f a s1 with
      | (r, s2, t2) => (r, s2, t1 ++ t2)
      end
  | (Thrown, s1, t1) => (Thrown, s1, t1)
  end.

(** [try { body } catch (error) { handler }] *)
Definition try_catch {A} (body handler : M A) : M A := fun s =>
  match body s with
  | (Returned a, s1, t1) => (Returned a, s1, t1)
  | (Thrown, s1, t1) =>
      match handler s1 with
      | (r, s2, t2) => (r, s2, t1 ++ t2)
      end
  end.

Declare Scope js_scope.
Delimit Scope js_scope with js.
Notation "x <- c1 ;; c2" := (bind c1 (fun x => c2))
  (at level 61, c1 at next level, right associativity) : js_scope.
Notation "c1 ;;; c2" := (bind c1 (fun _ => c2))
  (at level 61, right associativity) : js_scope.
Open Scope js_scope.

Definition result_of {A} (x : outcome A * nonce_state * list event) : outcome A := fst (fst x).
Definition nonce_after {A} (x : outcome A * nonce_state * list event) : nonce_state := snd (fst x).
Definition trace_of {A} (x : outcome A * nonce_state * list event) : list event := snd x.

(** ** NonceTracker, GasPricer, GasEstimator

    The five manager classes and [TokenTransfer] carry the same text for these
    four members; they are embedded once. *)

Module Lifecycle.

(** [getNonce()]; the argument is what the network answers if it is asked. *)
Definition getNonce (networkCount : option Z) : M Z := fun currentNonce =>
  match currentNonce with
  | None =>
      match networkCount with
      | Some n => (Returned n, Some n, [TransactionCountQueried true])
      | None => (Thrown, None, [TransactionCountQueried false])
      end
  | Some n => (Returned n, Some n, [])
  end.

(** [incrementNonce()] *)
Definition incrementNonce : M unit := fun currentNonce =>
  match currentNonce with
  | Some n => (Returned tt, Some (n + 1), [IncrementNonceCalled])
  | None => (Returned tt, None, [IncrementNonceCalled])
  end.

Definition fallbackGasPrice : Z := minGasPrice.

(** [getGasPrice(retryCount)].  [configured] is
    [this.config.gas_price_multiplier]; the classes that read the constant
    directly pass [None].  The result is the decimal string of a wei amount,
    held as the integer it denotes. *)
Definition getGasPrice (configured : option JS.number) (quote : option Z)
    (retryCount : Z) : Z :=
  match quote with
  | None => fallbackGasPrice
  | Some networkGasPrice =>
      let multiplier := JS.or_number configured constants.GAS.PRICE_MULTIPLIER in
      let multiplier :=
        if 0 <? retryCount
        then JS.mul multiplier (JS.Math_pow constants.GAS.RETRY_INCREASE retryCount)
        else multiplier in
      match JS.BigInt_floor (JS.mul (JS.Number_of_bigint networkGasPrice) multiplier) with
      | None => fallbackGasPrice
      | Some adjustedGasPrice =>
          if adjustedGasPrice <? minGasPrice then minGasPrice
          else if maxGasPrice <? adjustedGasPrice then maxGasPrice
          else adjustedGasPrice
      end
  end.

(** [await this.web3.eth.estimateGas(txObject)] *)
Definition web3_estimateGas (answer : option Z) : M Z :=
  match answer with
  | Some g => ret g
  | None => throw
  end.

(** [estimateGas(txObject)] *)
Definition estimateGas (answer : option Z) : M Z :=
  try_catch
    (estimatedGas <- web3_estimateGas answer ;;
     ret (Binary64.floor_mul_1_2 estimatedGas))
    (ret constants.GAS.DEFAULT_GAS).

(** The inline estimate of the deployment paths:
    [try { estimatedGas = await deployTx.estimateGas(..) } catch { estimatedGas = fallback }] *)
Definition deployEstimate (fallback : Z) (answer : option Z) : M Z :=
  try_catch (web3_estimateGas answer) (ret fallback).

(** [signTransaction(tx, key)] *)
Definition signTransaction (w : ledger_pass) (nonce gas gasPrice : Z) : M unit :=
  emit (Signed nonce gas gasPrice (signs w)) ;;;
  if signs w then ret tt else throw.

(** [sendSignedTransaction(signedTx.rawTransaction)] *)
Definition sendSignedTransaction (w : ledger_pass) (nonce : Z) : M unit :=
  emit (Broadcast nonce (broadcasts w)) ;;;
  if broadcasts w then ret tt else throw.

(** A read-only [.call()] after a send ([getStatus], [getValue]). *)
Definition readBack (w : ledger_pass) : M unit :=
  if readsBack w then ret tt else throw.

(** The deployment body shared by the five [deploy...] members: nonce, price,
    inline estimate with its class fallback, 20% buffer on the gas field,
    sign, increment, send.  The surrounding [catch] rethrows. *)
Definition deploy (configured : option JS.number) (fallback : Z) (w : ledger_pass) : M unit :=
  currentNonce <- getNonce (transactionCount w) ;;
  currentGasPrice <- ret (getGasPrice configured (networkGasPrice w) 0) ;;
  estimatedGas <- deployEstimate fallback (gasEstimate w) ;;
  let gas := Binary64.floor_mul_1_2 estimatedGas in
  signTransaction w currentNonce gas currentGasPrice ;;;
  incrementNonce ;;;
  sendSignedTransaction w currentNonce.

(** The call body shared by the interaction, mint, burn, batch and test
    members: nonce, price, [estimateGas], sign, increment, send. *)
Definition call (configured : option JS.number) (w : ledger_pass) : M unit :=
  nonce <- getNonce (transactionCount w) ;;
  gasPrice <- ret (getGasPrice configured (networkGasPrice w) 0) ;;
  gasLimit <- estimateGas (gasEstimate w) ;;
  signTransaction w nonce gasLimit gasPrice ;;;
  incrementNonce ;;;
  sendSignedTransaction w nonce.

End Lifecycle.

(** ** OperationScheduler

    The scheduler is the expression
    [Math.floor(Math.random() * (max - min + 1)) + min], written out at every
    site that draws a count. *)

Definition pickCount (seed : Z) (min max : Z) : Z :=
  Binary64.floor_random_times seed (max - min + 1) + min.

(** A [{min, max}] leaf whose keys may be absent. *)
Record range := { min : option Z; max : option Z }.

(** A count leaf: a [{min, max}] object, a bare number, or nothing. *)
Inductive count_config :=
| CountRange (r : range)
| CountValue (n : Z)
| CountMissing.

(** ** ContractDeployer *)

Module ContractDeployer.

Record config := {
  gas_price_multiplier : option JS.number;
  count : count_config            (* contract_interactions.count *)
}.

Definition getGasPrice (cfg : config) (quote : option Z) (retryCount : Z) : Z :=
  Lifecycle.getGasPrice (gas_price_multiplier cfg) quote retryCount.

(** The estimate used when the deployment cannot be simulated. *)
Definition deploymentFallback : Z := 2000000.

Definition deployContract (cfg : config) (w : ledger_pass) : M unit :=
  Lifecycle.deploy (gas_price_multiplier cfg) deploymentFallback w.

(** The [switch] on the interaction type; [setValue] takes
    [Math.floor(Math.random() * 1000)]. *)
Definition prepare (interactionType : string) (seed : Z) : M unit :=
  if String.eqb interactionType "setValue" then
    emit (MethodPrepared "setValue" (Binary64.floor_random_times seed 1000))
  else if String.eqb interactionType "increment" then emit (MethodPrepared "increment" 0)
  else if String.eqb interactionType "decrement" then emit (MethodPrepared "decrement" 0)
  else if String.eqb interactionType "reset" then emit (MethodPrepared "reset" 0)
  else if String.eqb interactionType "contribute" then emit (MethodPrepared "contribute" 0)
  else throw.

Definition interactWithContract (cfg : config) (interactionType : string) (seed : Z)
    (w : ledger_pass) : M bool :=
  try_catch
    (prepare interactionType seed ;;;
     Lifecycle.call (gas_price_multiplier cfg) w ;;;
     ret true)
    (ret false).

(** [minInteractions] and [maxInteractions] of [executeContractOperations]. *)
Definition interactionBounds (cfg : config) : Z * Z :=
  match count cfg with
  | CountRange r =>
      let minInteractions := Z.max 1 (JS.or_default (min r) 3) in
      let maxInteractions := Z.max minInteractions (JS.or_default (max r) 8) in
      (minInteractions, maxInteractions)
  | CountValue n => if n =? 0 then (3, 8) else (n, n)
  | CountMissing => (3, 8)
  end.

Definition interactionCount (cfg : config) (seed : Z) : Z :=
  let (minInteractions, maxInteractions) := interactionBounds cfg in
  pickCount seed minInteractions maxInteractions.

End ContractDeployer.

(** ** ERC20TokenDeployer *)

Module ERC20TokenDeployer.

Record config := {
  mint_amount : option range;
  burn_percentage : option Q
}.

Definition deploymentFallback : Z := 2500000.

Definition deployContract (w : ledger_pass) : M unit :=
  Lifecycle.deploy None deploymentFallback w.

Definition mintTokens (amount : Z) (w : ledger_pass) : M bool :=
  try_catch
    (emit (MethodPrepared "mint" amount) ;;;
     Lifecycle.call None w ;;;
     ret true)
    (ret false).

Definition burnTokens (amount : Z) (w : ledger_pass) : M bool :=
  try_catch
    (emit (MethodPrepared "burn" amount) ;;;
     Lifecycle.call None w ;;;
     ret true)
    (ret false).

Definition mintBounds (cfg : config) : Z * Z :=
  let minMint := Z.max 1 (JS.or_default (match mint_amount cfg with Some r => min r | None => None end) 1000000) in
  let maxMint := Z.max minMint (JS.or_default (match mint_amount cfg with Some r => max r | None => None end) 10000000) in
  (minMint, maxMint).

Definition mintAmount (cfg : config) (seed : Z) : Z :=
  let (minMint, maxMint) := mintBounds cfg in
  pickCount seed minMint maxMint.

Definition burnPercentage (cfg : config) : Q :=
  Qmin 100 (Qmax 0 (JS.or_defaultQ (burn_percentage cfg) 10)).

Definition burnAmount (cfg : config) (mintAmount : Z) : Z :=
  JS.Math_floor (inject_Z mintAmount * burnPercentage cfg / 100).

End ERC20TokenDeployer.

(** ** NFTManager *)

Module NFTManager.

Record config := {
  mint_count : range;
  burn_percentage : option Q;
  supply : range
}.

Definition deploymentFallback : Z := 3000000.

Definition deployContract (w : ledger_pass) : M unit :=
  Lifecycle.deploy None deploymentFallback w.

Definition mintNFT (tokenId : Z) (w : ledger_pass) : M bool :=
  try_catch
    (emit (MethodPrepared "mint" tokenId) ;;;
     Lifecycle.call None w ;;;
     ret true)
    (ret false).

(** [ownerOf(tokenId).call()] followed by the ownership test. *)
Definition checkOwner (w : ledger_pass) : M unit :=
  match ownerIsSelf w with
  | Some true => ret tt
  | Some false => throw
  | None => throw
  end.

Definition burnNFT (tokenId : Z) (w : ledger_pass) : M bool :=
  try_catch
    (checkOwner w ;;;
     emit (MethodPrepared "burn" tokenId) ;;;
     Lifecycle.call None w ;;;
     ret true)
    (ret false).

Definition supplyBounds (cfg : config) : Z * Z :=
  let minSupply := Z.max 10 (JS.or_default (min (supply cfg)) 100) in
  let maxSupply := Z.max minSupply (JS.or_default (max (supply cfg)) 1000) in
  (minSupply, maxSupply).

(** The drawn max supply of the collection. *)
Definition drawSupply (cfg : config) (seed : Z) : Z :=
  let (minSupply, maxSupply) := supplyBounds cfg in
  pickCount seed minSupply maxSupply.

Definition mintBounds (cfg : config) (supply : Z) : Z * Z :=
  let minMint := Z.max 1 (JS.or_default (min (mint_count cfg)) 2) in
  let maxMint := Z.min supply (Z.max minMint (JS.or_default (max (mint_count cfg)) 10)) in
  (minMint, maxMint).

Definition mintCount (cfg : config) (supply : Z) (seed : Z) : Z :=
  let (minMint, maxMint) := mintBounds cfg supply in
  pickCount seed minMint maxMint.

(** The minting loop: token ids [i, i+1, ...], one ledger pass each; the ids
    whose mint succeeded are pushed in order. *)
Fixpoint mintLoop (w : nat -> ledger_pass) (remaining i : nat) : M (list Z) :=
  match remaining with
  | O => ret []
  | S remaining' =>
      ok <- mintNFT (Z.of_nat i) (w i) ;;
      rest <- mintLoop w remaining' (S i) ;;
      ret (if ok : bool then Z.of_nat i :: rest else rest)
  end.

Definition burnPercentage (cfg : config) : Q :=
  Qmin 100 (Qmax 0 (JS.or_defaultQ (burn_percentage cfg) 20)).

Definition burnCount (cfg : config) (mintedTokens : list Z) : Z :=
  JS.Math_ceil (inject_Z (Z.of_nat (List.length mintedTokens)) * burnPercentage cfg / 100).

Definition insert_at (p : nat) (x : Z) (l : list Z) : list Z :=
  firstn p l ++ x :: skipn p l.

(** [array.sort(() => Math.random() - 0.5)]: the comparator is inconsistent,
    so the order of the result is whatever the sort's insertions make of the
    random answers; [positions] records where each element lands. *)
Fixpoint sortRandomly (positions : list nat) (l : list Z) : list Z :=
  match l with
  | [] => []
  | x :: l' =>
      match positions with
      | [] => x :: sortRandomly [] l'
      | p :: ps => insert_at p x (sortRandomly ps l')
      end
  end.

(** [tokensToBurn], empty when the guard [burnCount > 0 && length > 0] fails. *)
Definition tokensToBurn (cfg : config) (mintedTokens : list Z) (positions : list nat)
    : list Z :=
  let burnCount := burnCount cfg mintedTokens in
  if (0 <? burnCount) && (0 <? Z.of_nat (List.length mintedTokens))
  then firstn (Z.to_nat burnCount) (sortRandomly positions mintedTokens)
  else [].

End NFTManager.

(** ** BatchOperationManager *)

Module BatchOperationManager.

(** [operations_per_batch] after the constructor merged it with the defaults:
    both keys are present. *)
Record config := {
  operations_per_batch_min : Z;
  operations_per_batch_max : Z
}.

Definition deploymentFallback : Z := 2000000.

Definition deployBatchProcessor (w : ledger_pass) : M unit :=
  Lifecycle.deploy None deploymentFallback w.

Definition testIndividualOperations (seed : Z) (w : ledger_pass) : M bool :=
  try_catch
    (emit (MethodPrepared "setValue" (Binary64.floor_random_times seed 100 + 1)) ;;;
     Lifecycle.call None w ;;;
     Lifecycle.readBack w ;;;
     ret true)
    (ret false).

(** [numOperations] of [generateBatchOperations]: the configured values are
    used as they are. *)
Definition numOperations (cfg : config) (seed : Z) : Z :=
  let minOps := operations_per_batch_min cfg in
  let maxOps := operations_per_batch_max cfg in
  pickCount seed minOps maxOps.

Definition executeBatchOperations (cfg : config) (seed : Z) (w : ledger_pass) : M bool :=
  try_catch
    (emit (MethodPrepared "executeBatch" (numOperations cfg seed)) ;;;
     Lifecycle.call None w ;;;
     Lifecycle.readBack w ;;;
     ret true)
    (ret false).

End BatchOperationManager.

(** ** ContractTesterManager *)

Module ContractTesterManager.

(** [iterations] after the constructor merged it with the defaults. *)
Record config := {
  iterations_min : Z;
  iterations_max : Z
}.

Definition deploymentFallback : Z := 2000000.

Definition deployTestContract (w : ledger_pass) : M unit :=
  Lifecycle.deploy None deploymentFallback w.

(** [iterations] of the parameter-variation and stress sequences. *)
Definition iterations (cfg : config) (seed : Z) : Z :=
  let minIterations := iterations_min cfg in
  let maxIterations := iterations_max cfg in
  pickCount seed minIterations maxIterations.

(** The body of one test: prepare the method, run the lifecycle, count the
    success, read the value back; any throw is caught by the test's own
    [catch].  The result tells whether [successCount++] was reached; it comes
    before the read-back, so a failing read-back is caught with the success
    already counted. *)
Definition testCall (name : string) (value : Z) (w : ledger_pass) : M bool :=
  try_catch
    (emit (MethodPrepared name value) ;;;
     Lifecycle.call None w ;;;
     try_catch (Lifecycle.readBack w ;;; ret true) (ret true))
    (ret false).

Definition MAX_SAFE_INTEGER : Z := 2 ^ 53 - 1.

Definition boundaryValues : list Z :=
  [ 0; 1; 2 ^ 16 - 1; 2 ^ 16; 2 ^ 32 - 1; 2 ^ 32; 2 ^ 48 - 1; 2 ^ 48; MAX_SAFE_INTEGER ].

(** [for (let i = 0; i < boundaryValues.length; i++)] with its [successCount]. *)
Fixpoint boundaryLoop (w : nat -> ledger_pass) (values : list Z) (i : nat)
    (successCount : Z) : M Z :=
  match values with
  | [] => ret successCount
  | value :: rest =>
      ok <- testCall "setValue" value (w i) ;;
      boundaryLoop w rest (S i) (if ok : bool then successCount + 1 else successCount)
  end.

(** [performBoundaryTests]: the configured range is read for the log line
    only. *)
Definition performBoundaryTests (cfg : config) (w : nat -> ledger_pass) : M bool :=
  let minIterations := iterations_min cfg in
  let maxIterations := iterations_max cfg in
  successCount <- boundaryLoop w boundaryValues 0 0 ;;
  ret (0 <? successCount).

End ContractTesterManager.

(** ** TokenTransfer *)

Module TokenTransfer.

Record config := {
  enable_transfer : bool;
  gas_price_multiplier : option JS.number;
  transfer_amount_percentage : Z;
  transfer_count : count_config
}.

Definition getBalance (w : ledger_pass) : M Z :=
  match balance w with
  | Some b => ret b
  | None => throw
  end.

(** [executeTransfer]: the nonce is advanced before the transaction is signed. *)
Definition executeTransfer (cfg : config) (w : ledger_pass) : M bool :=
  if negb (enable_transfer cfg) then ret true
  else
    try_catch
      (balance <- getBalance w ;;
       if balance =? 0 then ret true
       else
         nonce <- Lifecycle.getNonce (transactionCount w) ;;
         gasPrice <- ret (Lifecycle.getGasPrice (gas_price_multiplier cfg) (networkGasPrice w) 0) ;;
         estimated <- Lifecycle.estimateGas (gasEstimate w) ;;
         let gasLimit := if estimated =? 0 then 21000 else estimated in
         let gasCost := gasLimit * gasPrice in
         let transferAmount :=
           Z.quot (balance * transfer_amount_percentage cfg) 100 - gasCost in
         if transferAmount <=? 0 then ret true
         else
           Lifecycle.incrementNonce ;;;
           Lifecycle.signTransaction w nonce gasLimit gasPrice ;;;
           Lifecycle.sendSignedTransaction w nonce ;;;
           ret true)
      (ret false).

(** [minTransfers] and [maxTransfers] of [transferToSelf]. *)
Definition transferBounds (cfg : config) : Z * Z :=
  match transfer_count cfg with
  | CountRange r =>
      let minTransfers := Z.max 1 (JS.or_default (min r) 1) in
      let maxTransfers := Z.max minTransfers (JS.or_default (max r) 1) in
      (minTransfers, maxTransfers)
  | CountValue n => if n =? 0 then (1, 1) else (n, n)
  | CountMissing => (1, 1)
  end.

Definition transferCount (cfg : config) (seed : Z) : Z :=
  let (minTransfers, maxTransfers) := transferBounds cfg in
  pickCount seed minTransfers maxTransfers.

End TokenTransfer.

(** ** FaucetManager *)

Module FaucetManager.

Record config := {
  max_retries : option Z;
  base_wait_time : option Z;
  has_captcha_solver : bool      (* a [captcha_api_key] was configured *)
}.

(** [response.data] of the faucet endpoint. *)
Record response_data := {
  hash : option string;
  error : option string
}.

(** The outcome of [axios.post]: the promise resolves with a response, whose
    [data] may be missing, or rejects (network failure, or a status outside
    2xx, whose body the [catch] only logs). *)
Inductive post_result :=
| Resolved (data : option response_data)
| Rejected (body : option response_data).

(** What one attempt meets: the CAPTCHA token ([None] is [null]) and the
    outcome of the POST. *)
Record attempt_env := {
  recaptchaToken : option string;
  post : post_result
}.

Inductive faucet_event :=
| Attempt (retryCount : Z)
| Backoff (seconds : Z).

Inductive verdict :=
| Accepted
| Waitlisted
| FaucetError
| UnexpectedResponse
| Exception.

Definition truthy (s : option string) : bool :=
  match s with
  | Some (String _ _) => true
  | _ => false
  end.

(** The body of the [try] of one iteration.  The random delay that precedes
    the request belongs to the attempt and leaves no event. *)
Definition attempt (cfg : config) (e : attempt_env) : verdict :=
  if negb (has_captcha_solver cfg) then Exception
  else if negb (truthy (recaptchaToken e)) then Exception
  else
    match post e with
    | Rejected _ => Exception
    | Resolved None => UnexpectedResponse
    | Resolved (Some data) =>
        if truthy (hash data) then Accepted
        else if truthy (error data) then
          match error data with
          | Some message => if JS.includes message "waitlist" then Waitlisted else FaucetError
          | None => FaucetError
          end
        else UnexpectedResponse
    end.

(** [Math.min(300, base_wait_time * 2 ** retryCount || 10 * 2 ** retryCount)] *)
Definition waitTime (cfg : config) (retryCount : Z) : Z :=
  let configured :=
    match base_wait_time cfg with
    | Some b => Some (b * 2 ^ retryCount)
    | None => None
    end in
  Z.min 300 (JS.or_default configured (10 * 2 ^ retryCount)).

(** The [while (retryCount < maxRetries)] loop; every iteration that does not
    return advances [retryCount], so [fuel = maxRetries] iterations suffice. *)
Fixpoint retryLoop (fuel : nat) (cfg : config) (env : nat -> attempt_env)
    (maxRetries retryCount : Z) : bool * list faucet_event :=
  match fuel with
  | O => (false, [])
  | S fuel' =>
      if retryCount <? maxRetries then
        match attempt cfg (env (Z.to_nat retryCount)) with
        | Accepted => (true, [Attempt retryCount])
        | Waitlisted => (false, [Attempt retryCount])
        | FaucetError | UnexpectedResponse | Exception =>
            let retryCount' := retryCount + 1 in
            let sleep :=
              if retryCount' <? maxRetries then [Backoff (waitTime cfg retryCount')] else [] in
            let (result, later) := retryLoop fuel' cfg env maxRetries retryCount' in
            (result, Attempt retryCount :: sleep ++ later)
        end
      else (false, [])
  end.

Definition requestFaucet (cfg : config) (env : nat -> attempt_env) : bool * list faucet_event :=
  let maxRetries := JS.or_default (max_retries cfg) 3 in
  retryLoop (Z.to_nat maxRetries) cfg env maxRetries 0.

End FaucetManager.

(** ** Sequences of calls on one NonceTracker *)

Inductive tracker_call :=
| CallGetNonce (networkCount : option Z)
| CallIncrementNonce.

(** Runs the calls in order on one instance and collects what each
    [getNonce] returned. *)
Fixpoint runCalls (calls : list tracker_call) (s : nonce_state) : list Z * nonce_state :=
  match calls with
  | [] => ([], s)
  | CallGetNonce networkCount :: rest =>
      match Lifecycle.getNonce networkCount s with
      | (Returned n, s1, _) => let (ns, s2) := runCalls rest s1 in (n :: ns, s2)
      | (Thrown, s1, _) => runCalls rest s1
      end
  | CallIncrementNonce :: rest =>
      match Lifecycle.incrementNonce s with
      | (_, s1, _) => runCalls rest s1
      end
  end.

(** [getNonce] then [incrementNonce], once per transaction. *)
Definition pairedCalls (networkCounts : list (option Z)) : list tracker_call :=
  flat_map (fun c => [CallGetNonce c; CallIncrementNonce]) networkCounts.

(** ** The transaction-performing operations, and what a trace shows *)

Inductive operation :=
| Deploy_ContractDeployer (cfg : ContractDeployer.config)
| Interact (cfg : ContractDeployer.config) (interactionType : string) (seed : Z)
| Deploy_ERC20
| Mint_ERC20 (amount : Z)
| Burn_ERC20 (amount : Z)
| Deploy_NFT
| Mint_NFT (tokenId : Z)
| Burn_NFT (tokenId : Z)
| Deploy_BatchProcessor
| BatchSanityCall (seed : Z)
| ExecuteBatch (cfg : BatchOperationManager.config) (seed : Z)
| Deploy_TestContract
| TestCall (name : string) (value : Z)
| SelfTransfer (cfg : TokenTransfer.config).









(** The nonce the attempt works with: the cached one, else the network's. *)
Definition acquired (s : nonce_state) (w : ledger_pass) : option Z :=
  match s with
  | Some n => Some n
  | None => transactionCount w
  end.

(** The contract methods prepared along a trace, in order. *)
Fixpoint methodCalls (t : list event) : list (string * Z) :=
  match t with
  | [] => []
  | MethodPrepared name arg :: t' => (name, arg) :: methodCalls t'
  | _ :: t' => methodCalls t'
  end.

(** The ceiling and the floor of [raw * 1.2] in exact arithmetic. *)
Definition ceilBuffered (raw : Z) : Z := Qceiling (inject_Z raw * (12 # 10)).
Definition floorBuffered (raw : Z) : Z := Qfloor (inject_Z raw * (12 # 10)).


Fixpoint backoffsOf (t : list FaucetManager.faucet_event) : list Z :=
  match t with
  | [] => []
  | FaucetManager.Backoff secs :: t' => secs :: backoffsOf t'
  | FaucetManager.Attempt _ :: t' => backoffsOf t'
  end.




(** ** Sample inputs *)





(** An NFT configuration that asks for at least 50 mints of a collection
    whose supply is drawn from [10, 10]. *)
Definition oversizedMintConfig : NFTManager.config :=
  {| NFTManager.mint_count := {| min := Some 50; max := Some 60 |};
     NFTManager.burn_percentage := None;
     NFTManager.supply := {| min := Some 10; max := Some 10 |} |}.

Definition sampleFaucetConfig : FaucetManager.config :=
  {| FaucetManager.max_retries := Some 3;
     FaucetManager.base_wait_time := None;
     FaucetManager.has_captcha_solver := true |}.



(** Every attempt is answered [{error: "Rate limit exceeded"}]. *)
Definition rateLimitedFaucet (attemptNumber : nat) : FaucetManager.attempt_env :=
  {| FaucetManager.recaptchaToken := Some "03AGdBq2"%string;
     FaucetManager.post :=
       FaucetManager.Resolved
         (Some {| FaucetManager.hash := None;
                  FaucetManager.error := Some "Rate limit exceeded"%string |}) |}.

(* ===================================================================== *)
(** * Part I, continued: the workflows around the lifecycle *)
(* ===================================================================== *)

(** [this.currentNonce = null] *)
Definition resetNonce : M unit := fun _ => (Returned tt, None, []).

(** [compileContract] and its namesakes: the compiler is outside; it returns
    the artefact or throws. *)
Definition compileContract (compiles : bool) : M unit :=
  if compiles then ret tt else throw.

(** Whether a deployment started on a null cache goes through: the count is
    answered, the signature is made and the broadcast resolves. *)
Definition deploymentResolves (w : ledger_pass) : bool :=
  match transactionCount w with
  | Some _ => signs w && broadcasts w
  | None => false
  end.

(** ** The transactions of a trace *)

(** The nonces of the transactions handed to [sendSignedTransaction]. *)
Fixpoint broadcastNonces (t : list event) : list Z :=
  match t with
  | [] => []
  | Broadcast nonce _ :: t' => nonce :: broadcastNonces t'
  | _ :: t' => broadcastNonces t'
  end.

(** The gas prices of the transactions handed to [signTransaction]. *)
Fixpoint signedPrices (t : list event) : list Z :=
  match t with
  | [] => []
  | Signed _ _ gasPrice _ :: t' => gasPrice :: signedPrices t'
  | _ :: t' => signedPrices t'
  end.

(** ** TokenTransfer, continued ([src/transfer.js], [index.js]) *)

Module TransferFlow.

(** [gasLimit] of [executeTransfer]: [await this.estimateGas(txTemplate) || 21000]. *)
Definition gasLimit (w : ledger_pass) : Z :=
  let estimated :=
    match gasEstimate w with
    | Some g => Binary64.floor_mul_1_2 g
    | None => constants.GAS.DEFAULT_GAS
    end in
  if estimated =? 0 then 21000 else estimated.

(** [gasPrice] of [executeTransfer]. *)
Definition gasPrice (cfg : TokenTransfer.config) (w : ledger_pass) : Z :=
  Lifecycle.getGasPrice (TokenTransfer.gas_price_multiplier cfg) (networkGasPrice w) 0.

(** [gasCost = BigInt(gasLimit) * BigInt(gasPrice)] *)
Definition gasCost (cfg : TokenTransfer.config) (w : ledger_pass) : Z :=
  gasLimit w * gasPrice cfg w.

(** [transferAmount = balance * transferPercentage / 100 - gasCost], the
    [value] of the transaction; bigint division truncates. *)
Definition transferAmount (cfg : TokenTransfer.config) (w : ledger_pass) (balance : Z) : Z :=
  Z.quot (balance * TokenTransfer.transfer_amount_percentage cfg) 100 - gasCost cfg w.

(** [for (let i = 1; i <= transferCount; i++)] of [transferToSelf]; pass [i]
    of the ledger answers transfer number [i]. *)
Fixpoint transferLoop (cfg : TokenTransfer.config) (w : nat -> ledger_pass)
    (remaining i : nat) (successCount : Z) : M Z :=
  match remaining with
  | O => ret successCount
  | S remaining' =>
      success <- TokenTransfer.executeTransfer cfg (w i) ;;
      transferLoop cfg w remaining' (S i)
        (if success : bool then successCount + 1 else successCount)
  end.

(** [transferToSelf(privateKey, walletNum)] *)
Definition transferToSelf (cfg : TokenTransfer.config) (seed : Z)
    (w : nat -> ledger_pass) : M bool :=
  if negb (TokenTransfer.enable_transfer cfg) then ret true
  else
    resetNonce ;;;
    try_catch
      (let transferCount := TokenTransfer.transferCount cfg seed in
       successCount <- transferLoop cfg w (Z.to_nat transferCount) 1 0 ;;
       ret (0 <? successCount))
      (ret false).

(** The leaves of the main configuration that [executeTransferOperation]
    reads; [None] is a missing key. *)
Record retry_config := {
  enable_transfer : bool;
  max_retries : option Z;
  base_wait_time : option Z
}.

(** What [executeTransferOperation] did: its result, how often it called
    [transferToSelf], and the waits between the calls in seconds ([None] is
    the [NaN] that a missing [base_wait_time] yields). *)
Record retry_report := {
  succeeded : bool;
  attempts : Z;
  waits : list (option Z)
}.

(** [Math.min(300, config.base_wait_time * (2 ** attempt))].  From attempt
    1024 on [2 ** attempt] is [Infinity]: the product with a zero base is
    [NaN], with a positive base the minimum is 300, and with a negative base
    it is minus infinity, held as the negative integer. *)
Definition waitTime (rc : retry_config) (attempt : Z) : option Z :=
  match base_wait_time rc with
  | Some b =>
      if (1024 <=? attempt) && (b =? 0) then None
      else Some (Z.min 300 (b * 2 ^ attempt))
  | None => None
  end.

(** The [while (!success && attempt < config.max_retries)] loop; attempt [k]
    draws [seed k] and meets the ledger [w k]. *)
Fixpoint retryLoop (fuel : nat) (rc : retry_config) (cfg : TokenTransfer.config)
    (seed : nat -> Z) (w : nat -> nat -> ledger_pass) (maxRetries attempt : Z)
    : M retry_report :=
  match fuel with
  | O => ret {| succeeded := false; attempts := attempt; waits := [] |}
  | S fuel' =>
      if attempt <? maxRetries then
        success <- transferToSelf cfg (seed (Z.to_nat attempt)) (w (Z.to_nat attempt)) ;;
        if success : bool
        then ret {| succeeded := true; attempts := attempt + 1; waits := [] |}
        else
          let attempt' := attempt + 1 in
          let sleep := if attempt' <? maxRetries then [waitTime rc attempt'] else [] in
          later <- retryLoop fuel' rc cfg seed w maxRetries attempt' ;;
          ret {| succeeded := succeeded later;
                 attempts := attempts later;
                 waits := sleep ++ waits later |}
      else ret {| succeeded := false; attempts := attempt; waits := [] |}
  end.


End TransferFlow.

(** ** NFTManager, continued *)

Module NFTFlow.

(** [deployContract(contractName, symbol, maxSupply)] from its first line:
    compile, then the deployment body. *)
Definition deployContract (compiles : bool) (w : ledger_pass) : M unit :=
  compileContract compiles ;;;
  NFTManager.deployContract w.

(** [for (const tokenId of tokensToBurn)] *)
Fixpoint burnLoop (w : nat -> ledger_pass) (tokens : list Z) (i : nat) : M unit :=
  match tokens with
  | [] => ret tt
  | tokenId :: rest =>
      NFTManager.burnNFT tokenId (w i) ;;;
      burnLoop w rest (S i)
  end.

(** Everything one run of the workflow draws and meets. *)
Record run := {
  supplySeed : Z;
  mintSeed : Z;
  positions : list nat;
  compiles : bool;
  deployLedger : ledger_pass;
  mintLedger : nat -> ledger_pass;
  burnLedger : nat -> ledger_pass
}.

(** [executeNFTOperations()] *)
Definition executeNFTOperations (enable_nft : bool) (cfg : NFTManager.config)
    (r : run) : M bool :=
  if negb enable_nft then ret true
  else
    try_catch
      (resetNonce ;;;
       let supply := NFTManager.drawSupply cfg (supplySeed r) in
       deployContract (compiles r) (deployLedger r) ;;;
       let mintCount := NFTManager.mintCount cfg supply (mintSeed r) in
       mintedTokens <- NFTManager.mintLoop (mintLedger r) (Z.to_nat mintCount) 0 ;;
       burnLoop (burnLedger r)
         (NFTManager.tokensToBurn cfg mintedTokens (positions r)) 0 ;;;
       ret true)
      (ret false).

End NFTFlow.

(** ** ERC20TokenDeployer, continued *)

Module ERC20Flow.

(** [formatTokenAmount(amount, decimals)] for [decimals >= 0]. *)
Definition formatTokenAmount (amount decimals : Z) : Z := amount * 10 ^ decimals.

(** The token parameters that the ABI encoder takes: [decimals] is the
    [uint8 _decimals] of the token's constructor, the formatted amount the
    [uint256] argument of [mint] and [burn].  With other values web3 refuses
    to encode the call data, a failure that the lifecycle below does not
    describe; the properties of this workflow are stated for these. *)
Definition encodable (decimals amount : Z) : Prop :=
  0 <= decimals <= 255 /\ formatTokenAmount amount decimals < 2 ^ 256.

(** [mintTokens] and [burnTokens] with the amount they put in the call:
    [BigInt(10) ** BigInt(decimals)] throws for a negative exponent, inside
    the member's own [try]. *)
Definition sendAmount (method : string) (amount decimals : Z) (w : ledger_pass) : M bool :=
  try_catch
    ((if decimals <? 0 then throw else ret tt) ;;;
     emit (MethodPrepared method (formatTokenAmount amount decimals)) ;;;
     Lifecycle.call None w ;;;
     ret true)
    (ret false).

Definition mintTokens (amount decimals : Z) (w : ledger_pass) : M bool :=
  sendAmount "mint" amount decimals w.

Definition burnTokens (amount decimals : Z) (w : ledger_pass) : M bool :=
  sendAmount "burn" amount decimals w.

Record run := {
  mintSeed : Z;
  compiles : bool;
  deployLedger : ledger_pass;
  mintLedger : ledger_pass;
  burnLedger : ledger_pass
}.

(** [executeTokenOperations()]; [decimals] is [this.config.decimals]. *)
Definition executeTokenOperations (enable_erc20 : bool) (cfg : ERC20TokenDeployer.config)
    (configuredDecimals : option Z) (r : run) : M bool :=
  if negb enable_erc20 then ret true
  else
    try_catch
      (resetNonce ;;;
       let decimals := JS.or_default configuredDecimals 18 in
       compileContract (compiles r) ;;;
       ERC20TokenDeployer.deployContract (deployLedger r) ;;;
       let mintAmount := ERC20TokenDeployer.mintAmount cfg (mintSeed r) in
       minted <- mintTokens mintAmount decimals (mintLedger r) ;;
       if minted : bool then
         let burnAmount := ERC20TokenDeployer.burnAmount cfg mintAmount in
         if 0 <? burnAmount
         then burnTokens burnAmount decimals (burnLedger r) ;;; ret true
         else ret true
       else ret true)
      (ret false).

End ERC20Flow.

(** ** ContractDeployer, continued *)

Module ContractFlow.

(** [this.config.contract_interactions] as the workflow reads it: [enabled]
    is false when the key is absent or falsy, [types] is [None] when the
    object carries no list. *)
Record interactions := {
  enabled : bool;
  types : option (list string)
}.

Definition defaultTypes : list string :=
  ["setValue"; "increment"; "decrement"; "reset"]%string.

(** [this.config.contract_interactions?.types || [...]]; an array is truthy
    even when empty. *)
Definition interactionTypes (i : interactions) : list string :=
  match types i with
  | Some l => l
  | None => defaultTypes
  end.

(** [interactionTypes[Math.floor(Math.random() * interactionTypes.length)]];
    [None] is [undefined]. *)
Definition pickType (l : list string) (seed : Z) : option string :=
  nth_error l (Z.to_nat (Binary64.floor_random_times seed (Z.of_nat (List.length l)))).

(** [interactWithContract] called with what was picked; [undefined] reaches
    the [default] branch of the [switch]. *)
Definition interact (cfg : ContractDeployer.config) (interactionType : option string)
    (seed : Z) (w : ledger_pass) : M bool :=
  match interactionType with
  | Some t => ContractDeployer.interactWithContract cfg t seed w
  | None => try_catch throw (ret false)
  end.

(** [for (let i = 0; i < interactionCount; i++)]; interaction [i] draws
    [draws i] (type, then value) and meets the ledger [w i]. *)
Fixpoint interactionLoop (cfg : ContractDeployer.config) (l : list string)
    (draws : nat -> Z * Z) (w : nat -> ledger_pass) (remaining i : nat)
    (successCount : Z) : M Z :=
  match remaining with
  | O => ret successCount
  | S remaining' =>
      success <- interact cfg (pickType l (fst (draws i))) (snd (draws i)) (w i) ;;
      interactionLoop cfg l draws w remaining' (S i)
        (if success : bool then successCount + 1 else successCount)
  end.

Record run := {
  compiles : bool;
  deployLedger : ledger_pass;
  countSeed : Z;
  draws : nat -> Z * Z;
  interactionLedger : nat -> ledger_pass
}.

(** [executeContractOperations()] *)
Definition executeContractOperations (enable_contract_deploy : bool)
    (cfg : ContractDeployer.config) (i : interactions) (r : run) : M bool :=
  if negb enable_contract_deploy then ret true
  else
    try_catch
      (resetNonce ;;;
       compileContract (compiles r) ;;;
       ContractDeployer.deployContract cfg (deployLedger r) ;;;
       if negb (enabled i) then ret true
       else
         let interactionCount := ContractDeployer.interactionCount cfg (countSeed r) in
         interactionLoop cfg (interactionTypes i) (draws r) (interactionLedger r)
           (Z.to_nat interactionCount) 0 0 ;;;
         ret true)
      (ret false).

End ContractFlow.

(** ** BatchOperationManager, continued *)

Module BatchFlow.

Definition operations : list string :=
  ["setValue"; "incrementValue"; "decrementValue"; "squareValue"; "resetValue";
   "multiplyValue"]%string.

(** The [parameter] pushed beside an operation; [seed] is the draw made for
    [setValue] and [multiplyValue]. *)
Definition parameterOf (operation : option string) (seed : Z) : Z :=
  match operation with
  | Some name =>
      if String.eqb name "setValue" then Binary64.floor_random_times seed 100 + 1
      else if String.eqb name "multiplyValue" then Binary64.floor_random_times seed 5 + 2
      else 0
  | None => 0
  end.

(** The loop of [generateBatchOperations]; [None] would be an [undefined]
    array element. *)
Fixpoint generateLoop (draws : nat -> Z * Z) (remaining i : nat)
    : list (option string) * list Z :=
  match remaining with
  | O => ([], [])
  | S remaining' =>
      let operation :=
        nth_error operations
          (Z.to_nat (Binary64.floor_random_times (fst (draws i))
                       (Z.of_nat (List.length operations)))) in
      let parameter := parameterOf operation (snd (draws i)) in
      let (batchOperations, parameters) := generateLoop draws remaining' (S i) in
      (operation :: batchOperations, parameter :: parameters)
  end.

(** [generateBatchOperations()] *)
Definition generateBatchOperations (cfg : BatchOperationManager.config) (seed : Z)
    (draws : nat -> Z * Z) : list (option string) * list Z :=
  let numOperations := BatchOperationManager.numOperations cfg seed in
  generateLoop draws (Z.to_nat numOperations) 0.

(** [for (let i = 0; i < numBatches; i++)] of [executeMultipleBatches]. *)
Fixpoint batchLoop (cfg : BatchOperationManager.config) (seeds : nat -> Z)
    (w : nat -> ledger_pass) (remaining i : nat) : M (list bool) :=
  match remaining with
  | O => ret []
  | S remaining' =>
      result <- BatchOperationManager.executeBatchOperations cfg (seeds i) (w i) ;;
      results <- batchLoop cfg seeds w remaining' (S i) ;;
      ret (result :: results)
  end.

(** [executeMultipleBatches]: the results carry their [success] flags. *)
Definition executeMultipleBatches (cfg : BatchOperationManager.config) (countSeed : Z)
    (seeds : nat -> Z) (w : nat -> ledger_pass) : M (list bool) :=
  try_catch
    (let numBatches := Binary64.floor_random_times countSeed 2 + 1 in
     batchLoop cfg seeds w (Z.to_nat numBatches) 0)
    (ret []).

(** [deployBatchProcessor()] from its first line. *)
Definition deployBatchProcessor (compiles : bool) (w : ledger_pass) : M unit :=
  compileContract compiles ;;;
  BatchOperationManager.deployBatchProcessor w.

Record run := {
  compiles : bool;
  deployLedger : ledger_pass;
  testSeed : Z;
  testLedger : ledger_pass;
  countSeed : Z;
  batchSeeds : nat -> Z;
  batchLedger : nat -> ledger_pass
}.

(** [executeBatchOperationOperations()] *)
Definition executeBatchOperationOperations (enable_batch_operations : bool)
    (cfg : BatchOperationManager.config) (r : run) : M bool :=
  if negb enable_batch_operations then ret true
  else
    try_catch
      (resetNonce ;;;
       deployBatchProcessor (compiles r) (deployLedger r) ;;;
       BatchOperationManager.testIndividualOperations (testSeed r) (testLedger r) ;;;
       executeMultipleBatches cfg (countSeed r) (batchSeeds r) (batchLedger r) ;;;
       ret true)
      (ret false).

End BatchFlow.

(** ** ContractTesterManager, continued *)

Module TesterFlow.

(** [generateTestValues()]: ten fixed values and five draws below a million. *)
Definition generateTestValues (seeds : nat -> Z) : list Z :=
  [ 0; 1; 10; 100; 1000; 10000; 2 ^ 32 - 1; 2 ^ 48 - 1;
    ContractTesterManager.MAX_SAFE_INTEGER / 2;
    ContractTesterManager.MAX_SAFE_INTEGER ]
  ++ map (fun i => Binary64.floor_random_times (seeds i) 1000000) (seq 0 5).

(** One parameter test; an [undefined] value would make the transaction
    preparation throw inside the test's own [try]. *)
Definition testValue (value : option Z) (w : ledger_pass) : M bool :=
  match value with
  | Some v => ContractTesterManager.testCall "setValue" v w
  | None => try_catch throw (ret false)
  end.

Fixpoint variationLoop (testValues : list Z) (picks : nat -> Z) (w : nat -> ledger_pass)
    (remaining i : nat) (successCount : Z) : M Z :=
  match remaining with
  | O => ret successCount
  | S remaining' =>
      let value :=
        nth_error testValues
          (Z.to_nat (Binary64.floor_random_times (picks i)
                       (Z.of_nat (List.length testValues)))) in
      ok <- testValue value (w i) ;;
      variationLoop testValues picks w remaining' (S i)
        (if ok : bool then successCount + 1 else successCount)
  end.

(** What one test sequence draws and meets. *)
Record sequence_run := {
  valueSeeds : nat -> Z;
  iterationSeed : Z;
  picks : nat -> Z;
  amounts : nat -> Z;
  baseLedger : ledger_pass;
  ledgers : nat -> ledger_pass
}.

(** [performParameterVariationTests] *)
Definition performParameterVariationTests (cfg : ContractTesterManager.config)
    (r : sequence_run) : M bool :=
  try_catch
    (let testValues := generateTestValues (valueSeeds r) in
     let iterations := ContractTesterManager.iterations cfg (iterationSeed r) in
     successCount <- variationLoop testValues (picks r) (ledgers r)
                       (Z.to_nat iterations) 0 0 ;;
     ret (0 <? successCount))
    (ret false).

Definition stressOperations : list string := ["addValue"; "subtractValue"]%string.

Definition baseValue : Z := 10000.

(** The first [try] of [performStressTests]: it tells whether the base value
    was set; its [catch] makes the member return false. *)
Definition setBaseValue (w : ledger_pass) : M bool :=
  try_catch
    (emit (MethodPrepared "setValue" baseValue) ;;;
     Lifecycle.call None w ;;;
     ret true)
    (ret false).

(** The stress loop; reading [operation.name] of an [undefined] pick throws
    outside the test's own [try]. *)
Fixpoint stressLoop (picks amounts : nat -> Z) (w : nat -> ledger_pass)
    (remaining i : nat) (successCount : Z) : M Z :=
  match remaining with
  | O => ret successCount
  | S remaining' =>
      let operation :=
        nth_error stressOperations
          (Z.to_nat (Binary64.floor_random_times (picks i)
                       (Z.of_nat (List.length stressOperations)))) in
      let value := Binary64.floor_random_times (amounts i) 100 + 1 in
      match operation with
      | Some name =>
          ok <- ContractTesterManager.testCall name value (w i) ;;
          stressLoop picks amounts w remaining' (S i)
            (if ok : bool then successCount + 1 else successCount)
      | None => throw
      end
  end.

(** [performStressTests] *)
Definition performStressTests (cfg : ContractTesterManager.config)
    (r : sequence_run) : M bool :=
  try_catch
    (let iterations := ContractTesterManager.iterations cfg (iterationSeed r) in
     based <- setBaseValue (baseLedger r) ;;
     if based : bool then
       successCount <- stressLoop (picks r) (amounts r) (ledgers r)
                         (Z.to_nat iterations) 0 0 ;;
       ret (0 <? successCount)
     else ret false)
    (ret false).

(** [performBoundaryTests] with its outer [try]. *)
Definition performBoundaryTests (cfg : ContractTesterManager.config)
    (r : sequence_run) : M bool :=
  try_catch (ContractTesterManager.performBoundaryTests cfg (ledgers r)) (ret false).

Definition defaultSequences : list string :=
  ["parameter_variation"; "stress_test"; "boundary_test"]%string.

(** The [switch] inside [for (const sequence of testSequences)]; a name
    without a [case] does nothing. *)
Definition runSequence (cfg : ContractTesterManager.config) (sequence : string)
    (r : sequence_run) : M unit :=
  if String.eqb sequence "parameter_variation" then
    performParameterVariationTests cfg r ;;; ret tt
  else if String.eqb sequence "stress_test" then
    performStressTests cfg r ;;; ret tt
  else if String.eqb sequence "boundary_test" then
    performBoundaryTests cfg r ;;; ret tt
  else ret tt.

Fixpoint sequenceLoop (cfg : ContractTesterManager.config) (sequences : list string)
    (runs : nat -> sequence_run) (i : nat) : M unit :=
  match sequences with
  | [] => ret tt
  | sequence :: rest =>
      runSequence cfg sequence (runs i) ;;;
      sequenceLoop cfg rest runs (S i)
  end.

(** [deployTestContract()] from its first line. *)
Definition deployTestContract (compiles : bool) (w : ledger_pass) : M unit :=
  compileContract compiles ;;;
  ContractTesterManager.deployTestContract w.

Record run := {
  compiles : bool;
  deployLedger : ledger_pass;
  sequenceRuns : nat -> sequence_run
}.

(** [executeContractTestingOperations()]; [test_sequences] is the configured
    list, [None] when absent. *)
Definition executeContractTestingOperations (enable_contract_testing : bool)
    (cfg : ContractTesterManager.config) (test_sequences : option (list string))
    (r : run) : M bool :=
  if negb enable_contract_testing then ret true
  else
    try_catch
      (resetNonce ;;;
       deployTestContract (compiles r) (deployLedger r) ;;;
       let testSequences :=
         match test_sequences with
         | Some l => l
         | None => defaultSequences
         end in
       sequenceLoop cfg testSequences (sequenceRuns r) 0 ;;;
       ret true)
      (ret false).

End TesterFlow.

(** ** Observations on the traces of workflows *)

(** [l] is [n, n+1, n+2, ...]. *)
Fixpoint consecutiveFrom (n : Z) (l : list Z) : Prop :=
  match l with
  | [] => True
  | x :: l' => x = n /\ consecutiveFrom (n + 1) l'
  end.

(** A computation that took the cache from [s] to [s'] and handed the nonces
    [l] to [sendSignedTransaction] kept to the tracker: from a cached [n] the
    nonces are [n, n+1, ...] and the cache ends one above the last; from a
    null cache either nothing was acquired, or the same holds from the count
    that was acquired. *)
Definition tracked (s s' : nonce_state) (l : list Z) : Prop :=
  match s with
  | Some n => s' = Some (n + Z.of_nat (List.length l)) /\ consecutiveFrom n l
  | None =>
      (s' = None /\ l = [])
      \/ exists n0, s' = Some (n0 + Z.of_nat (List.length l)) /\ consecutiveFrom n0 l
  end.

(** [m] keeps the relation [Inv] between the cache before, the cache after
    and the trace, from every cache. *)
Definition respects {A} (Inv : nonce_state -> nonce_state -> list event -> Prop)
    (m : M A) : Prop :=
  forall s, Inv s (nonce_after (m s)) (trace_of (m s)).

Definition sequentially : nonce_state -> nonce_state -> list event -> Prop :=
  fun s s' t => tracked s s' (broadcastNonces t).

Definition always (Q : event -> Prop) : nonce_state -> nonce_state -> list event -> Prop :=
  fun _ _ t => Forall Q t.

(** Every signature the event asks for carries a price within the bounds. *)
Definition pricedWithin (e : event) : Prop :=
  match e with
  | Signed _ _ gasPrice _ => minGasPrice <= gasPrice <= maxGasPrice
  | _ => True
  end.

(** The arguments of the calls to [name] a trace prepares, in order. *)
Definition argumentsOf (name : string) (t : list event) : list Z :=
  map snd (filter (fun call => String.eqb (fst call) name) (methodCalls t)).

(** [m] never throws, and what it returns satisfies [P]. *)
Definition returns {A} (P : A -> Prop) (m : M A) : Prop :=
  forall s, exists a, result_of (m s) = Returned a /\ P a.


(** The calls [interactWithContract] can prepare: [setValue] with a value
    below 1000, or one of the four methods without argument. *)
Definition supportedInteraction (name : string) (arg : Z) : Prop :=
  (name = "setValue"%string /\ 0 <= arg <= 999)
  \/ (In name ["increment"; "decrement"; "reset"; "contribute"]%string /\ arg = 0).

(** An entry of a generated batch: a known operation with the parameter the
    contract expects for it. *)
Definition wellFormedEntry (operation : option string) (parameter : Z) : Prop :=
  exists name,
    operation = Some name
    /\ In name BatchFlow.operations
    /\ (if String.eqb name "setValue" then 1 <= parameter <= 100
        else if String.eqb name "multiplyValue" then 2 <= parameter <= 6
        else parameter = 0).

(** Whether a call started on the cache [s] goes through: a nonce is at
    hand, the signature is made and the broadcast accepted. *)
Definition submits (s : nonce_state) (w : ledger_pass) : bool :=
  match acquired s w with
  | Some _ => signs w && broadcasts w
  | None => false
  end.

(** The nonces [l] broadcast while the cache went from [s] to [s'] increase
    strictly and lie between the nonce the computation started from and the
    cache it left. *)
Definition ascending (s s' : nonce_state) (l : list Z) : Prop :=
  match s with
  | Some n =>
      exists n', s' = Some n' /\ n <= n'
                 /\ StronglySorted Z.lt l /\ Forall (fun x => n <= x < n') l
  | None =>
      (s' = None /\ l = [])
      \/ exists n0 n', s' = Some n' /\ n0 <= n'
                       /\ StronglySorted Z.lt l /\ Forall (fun x => n0 <= x < n') l
  end.

(** A wallet of one ether on a ledger that answers every call. *)
Definition fundedWallet : ledger_pass :=
  {| transactionCount := Some 41;
     networkGasPrice := Some 2000000000;
     gasEstimate := Some 21000;
     signs := true;
     broadcasts := true;
     readsBack := true;
     ownerIsSelf := Some true;
     balance := Some (10 ^ 18) |}.

(** The same wallet without funds. *)
Definition emptyWallet : ledger_pass :=
  {| transactionCount := Some 41;
     networkGasPrice := Some 2000000000;
     gasEstimate := Some 21000;
     signs := true;
     broadcasts := true;
     readsBack := true;
     ownerIsSelf := Some true;
     balance := Some 0 |}.

(** The funded wallet with a signer that rejects. *)
Definition unsignedWallet : ledger_pass :=
  {| transactionCount := Some 41;
     networkGasPrice := Some 2000000000;
     gasEstimate := Some 21000;
     signs := false;
     broadcasts := true;
     readsBack := true;
     ownerIsSelf := Some true;
     balance := Some (10 ^ 18) |}.

(** Ninety percent of the balance, one transfer per run. *)
Definition plainTransferConfig : TokenTransfer.config :=
  {| TokenTransfer.enable_transfer := true;
     TokenTransfer.gas_price_multiplier := None;
     TokenTransfer.transfer_amount_percentage := 90;
     TokenTransfer.transfer_count := CountMissing |}.



(** The events of the nonce query of a pass started on the cache [s]. *)
Definition queried (s : nonce_state) : list event :=
  match s with
  | Some _ => []
  | None => [TransactionCountQueried true]
  end.

(** ** The order of a wallet's operations ([index.js]) *)

Module Index.

Definition allOperations : list string :=
  ["faucet"; "transfer"; "contract_deploy"; "contract_testing"; "erc20"; "nft";
   "batch_operations"]%string.

(** [config.operation_randomization]; a list that is absent is [None]. *)
Record randomization := {
  enable_randomization : bool;
  excluded_operations : option (list string);
  operations_to_run : option (list string)
}.

(** The object used when [config.operation_randomization] is absent. *)
Definition defaultRandomization : randomization :=
  {| enable_randomization := false;
     excluded_operations := Some ["faucet"%string];
     operations_to_run := Some allOperations |}.

(** [list.includes(name)] *)
Definition includes (l : list string) (name : string) : bool :=
  existsb (String.eqb name) l.

(** [a[k]] of an array of operations; [None] is [undefined]. *)
Definition element (a : list (option string)) (k : nat) : option string :=
  match nth_error a k with
  | Some v => v
  | None => None
  end.

(** [a[k] = v]; past the end the array grows, leaving holes. *)
Fixpoint assign (a : list (option string)) (k : nat) (v : option string)
    : list (option string) :=
  match k, a with
  | O, [] => [v]
  | O, _ :: rest => v :: rest
  | S k', [] => None :: assign [] k' v
  | S k', x :: rest => x :: assign rest k' v
  end.

(** [[a[i], a[j]] = [a[j], a[i]]] *)
Definition swap (a : list (option string)) (i j : nat) : list (option string) :=
  let ai := element a i in
  let aj := element a j in
  assign (assign a i aj) j ai.

(** [for (let i = a.length - 1; i > 0; i--)] of the Fisher-Yates shuffle;
    step [i] draws [seeds i]. *)
Fixpoint shuffleLoop (seeds : nat -> Z) (i : nat) (a : list (option string))
    : list (option string) :=
  match i with
  | O => a
  | S i' =>
      let j := Z.to_nat (Binary64.floor_random_times (seeds i) (Z.of_nat i + 1)) in
      shuffleLoop seeds i' (swap a i j)
  end.

Definition randomizationConfig (operation_randomization : option randomization)
    : randomization :=
  match operation_randomization with
  | Some c => c
  | None => defaultRandomization
  end.

Definition filteredOperations (operation_randomization : option randomization)
    : list string :=
  let operationsToRun :=
    match operations_to_run (randomizationConfig operation_randomization) with
    | Some l => l
    | None => allOperations
    end in
  filter (includes operationsToRun) allOperations.

Definition excludedOps (operation_randomization : option randomization) : list string :=
  match excluded_operations (randomizationConfig operation_randomization) with
  | Some l => l
  | None => []
  end.

Definition fixedOps (operation_randomization : option randomization) : list string :=
  filter (includes (excludedOps operation_randomization))
    (filteredOperations operation_randomization).

Definition randomizableOps (operation_randomization : option randomization)
    : list string :=
  filter (fun name => negb (includes (excludedOps operation_randomization) name))
    (filteredOperations operation_randomization).

(** [getRandomizedOperations(config)]: the names of the operations, in the
    order in which the wallet will run them. *)
Definition getRandomizedOperations (operation_randomization : option randomization)
    (seeds : nat -> Z) : list (option string) :=
  let randomizable := map Some (randomizableOps operation_randomization) in
  let shuffled :=
    if enable_randomization (randomizationConfig operation_randomization)
       && (1 <? Z.of_nat (List.length randomizable))
    then shuffleLoop seeds (List.length randomizable - 1) randomizable
    else randomizable in
  map Some (fixedOps operation_randomization) ++ shuffled.

End Index.

(** ** CaptchaSolver ([utils/CaptchaSolver.js]) *)

Module CaptchaSolver.

(** What a request to the solving service comes to.  [Failed] stands for
    everything that makes the member throw: the request is rejected, the
    response reports an [errorId] other than 0, or a ready result carries no
    solution object. *)
Inductive answer :=
| Failed
| Pending
| Ready (gRecaptchaResponse : option string).

Definition maxAttempts : Z := 30.

(** The polling loop; [poll k] answers the [k]-th [getTaskResult].  The
    result is what is returned ([None] when the loop throws) and the number
    of polls made, each after a wait of two seconds. *)
Fixpoint pollLoop (fuel : nat) (poll : Z -> answer) (attempts : Z)
    : option (option string) * Z :=
  match fuel with
  | O => (None, attempts)
  | S fuel' =>
      if attempts <? maxAttempts then
        let attempts := attempts + 1 in
        match poll attempts with
        | Failed => (None, attempts)
        | Ready recaptchaToken => (Some recaptchaToken, attempts)
        | Pending => pollLoop fuel' poll attempts
        end
      else (None, attempts)
  end.

(** [solveRecaptcha(websiteURL, websiteKey)]: the token, or [None] for [null]
    (and for a ready result without token), and the number of polls. *)
Definition solveRecaptcha (created : bool) (poll : Z -> answer) : option string * Z :=
  if created then
    match pollLoop (Z.to_nat maxAttempts) poll 0 with
    | (Some recaptchaToken, polls) => (recaptchaToken, polls)
    | (None, polls) => (None, polls)
    end
  else (None, 0).

End CaptchaSolver.

(** ** FaucetManager, continued *)

Module FaucetFlow.

(** The loop of [waitForBalanceIncrease].  Check [k] (from 1) takes place
    when the clock shows [elapsed k] milliseconds since the start and reads
    the balance [balances k] ([None]: the query is rejected).  The result is
    [None] when the fuel runs out, and comes with the number of checks. *)
Fixpoint waitLoop (fuel : nat) (elapsed : nat -> Z) (balances : nat -> option Z)
    (initialBalance maxWaitTime : Z) (checks : nat) (waitedTime : Z)
    : option bool * nat :=
  match fuel with
  | O => (None, checks)
  | S fuel' =>
      if waitedTime <? maxWaitTime then
        let checks := S checks in
        let waitedTime := elapsed checks in
        match balances checks with
        | None => (Some false, checks)
        | Some currentBalance =>
            if initialBalance <? currentBalance then (Some true, checks)
            else waitLoop fuel' elapsed balances initialBalance maxWaitTime checks
                   waitedTime
        end
      else (Some false, checks)
  end.

(** [waitForBalanceIncrease(walletAddress, initialBalance, maxWaitTime,
    checkInterval)] with the initial balance given. *)
Definition waitForBalanceIncrease (fuel : nat) (elapsed : nat -> Z)
    (balances : nat -> option Z) (initialBalance maxWaitTime : Z) : option bool * nat :=
  waitLoop fuel elapsed balances initialBalance maxWaitTime 0 0.

(** [executeFaucetOperations(walletAddress)]; [initialBalance] is the answer
    to the first balance query. *)
Definition executeFaucetOperations (fuel : nat) (enable_faucet : bool)
    (cfg : FaucetManager.config) (max_wait_time : option Z)
    (env : nat -> FaucetManager.attempt_env) (initialBalance : option Z)
    (elapsed : nat -> Z) (balances : nat -> option Z) : option bool :=
  if negb enable_faucet then Some false
  else
    match initialBalance with
    | None => Some false
    | Some initial =>
        let faucetSuccess := fst (FaucetManager.requestFaucet cfg env) in
        if faucetSuccess then
          let maxWaitTime := JS.or_default max_wait_time 300000 in
          fst (waitForBalanceIncrease fuel elapsed balances initial maxWaitTime)
        else Some faucetSuccess
    end.

End FaucetFlow.

(** A solver that is ready at the third poll. *)
Definition readyAtThird (k : Z) : CaptchaSolver.answer :=
  if k =? 3 then CaptchaSolver.Ready (Some "token"%string) else CaptchaSolver.Pending.

(** A clock whose checks are five seconds apart, and a balance that has
    grown at the second check. *)
Definition everyFiveSeconds (k : nat) : Z := 5000 * Z.of_nat k.

Definition fundedAtSecond (k : nat) : option Z :=
  if (2 <=? k)%nat then Some 10 else Some 0.

(** A faucet that accepts the first request. *)
Definition acceptingFaucet (attemptNumber : nat) : FaucetManager.attempt_env :=
  {| FaucetManager.recaptchaToken := Some "token"%string;
     FaucetManager.post :=
       FaucetManager.Resolved
         (Some {| FaucetManager.hash := Some "0xabc"%string;
                  FaucetManager.error := None |}) |}.

Definition solverFaucetConfig : FaucetManager.config :=
  {| FaucetManager.max_retries := None;
     FaucetManager.base_wait_time := None;
     FaucetManager.has_captcha_solver := true |}.

(** ** Generated names ([ERC20TokenDeployer.js], [NFTManager.js]) *)

Module Names.

Definition TOKEN_NAME_PREFIXES : list string :=
  ["Moon"; "Doge"; "Shib"; "Pepe"; "Ape"; "Baby"; "Safe"; "Floki"; "Elon"; "Mars";
   "Space"; "Rocket"; "Diamond"; "Crypto"; "Meme"; "Chad"; "Bull"; "Super"; "Mega";
   "Meta"; "Ninja"; "Turbo"; "Lambo"; "Hodl"; "Pump"; "King"; "Based"; "Alpha";
   "Sigma"; "Giga"; "Wojak"; "Stonk"; "Bonk"; "Chungus"; "Gigachad"; "Frog";
   "Fren"; "Wen"; "Wagmi"; "Ngmi"]%string.

Definition TOKEN_NAME_SUFFIXES : list string :=
  ["Coin"; "Token"; "Cash"; "Swap"; "Inu"; "Dao"; "Moon"; "Doge"; "Chain";
   "Finance"; "Protocol"; "Network"; "Exchange"; "Capital"; "Money"; "Rocket";
   "Rise"; "Gains"; "Pump"; "Whale"; "Bit"; "Satoshi"; "Elon"; "Mars"; "Galaxy";
   "Star"; "Nova"; "Verse"; "World"; "Gem"]%string.

Definition NFT_NAME_PREFIXES : list string :=
  ["Crypto"; "Bored"; "Mutant"; "Azuki"; "Doodle"; "Pudgy"; "Cool"; "Lazy";
   "Cyber"; "Meta"; "Pixel"; "Art"; "Punk"; "Moon"; "Ape"; "Chimp"; "Digital";
   "Virtual"; "Token"; "Chain"]%string.

Definition NFT_NAME_SUFFIXES : list string :=
  ["Apes"; "Monkeys"; "Punks"; "Cats"; "Dogs"; "Bears"; "Club"; "Society"; "Gang";
   "Legends"; "Collection"; "Worlds"; "Metaverse"; "Universe"; "Pets"; "Friends";
   "Heroes"; "Squad"; "Crew"; "Team"]%string.

(** [list[Math.floor(Math.random() * list.length)]]; [None] is [undefined]. *)
Definition pick (l : list string) (seed : Z) : option string :=
  nth_error l (Z.to_nat (Binary64.floor_random_times seed (Z.of_nat (List.length l)))).

(** A value inside a template literal. *)
Definition show (x : option string) : string :=
  match x with
  | Some s => s
  | None => "undefined"
  end.

(** [generateRandomTokenName()] *)
Definition generateRandomTokenName (prefixSeed suffixSeed : Z) : string :=
  (show (pick TOKEN_NAME_PREFIXES prefixSeed) ++ " "
   ++ show (pick TOKEN_NAME_SUFFIXES suffixSeed))%string.

(** [generateRandomNFTName()] *)
Definition generateRandomNFTName (prefixSeed suffixSeed : Z) : string :=
  (show (pick NFT_NAME_PREFIXES prefixSeed) ++ " "
   ++ show (pick NFT_NAME_SUFFIXES suffixSeed))%string.

(** The string members used below, on strings of ASCII characters. *)

(** [s.split(' ')] *)
Fixpoint split (s : string) : list string :=
  match s with
  | EmptyString => [EmptyString]
  | String c rest =>
      if Ascii.eqb c " "%char then EmptyString :: split rest
      else
        match split rest with
        | word :: words => String c word :: words
        | [] => [String c EmptyString]
        end
  end.

(** [s.charAt(0)] *)
Definition charAt0 (s : string) : string :=
  match s with
  | EmptyString => EmptyString
  | String c _ => String c EmptyString
  end.

Definition isLower (c : ascii) : bool :=
  let n := nat_of_ascii c in (97 <=? n)%nat && (n <=? 122)%nat.

Definition isUpper (c : ascii) : bool :=
  let n := nat_of_ascii c in (65 <=? n)%nat && (n <=? 90)%nat.

Definition isDigit (c : ascii) : bool :=
  let n := nat_of_ascii c in (48 <=? n)%nat && (n <=? 57)%nat.

(** [s.toUpperCase()] *)
Fixpoint toUpperCase (s : string) : string :=
  match s with
  | EmptyString => EmptyString
  | String c rest =>
      String (if isLower c then ascii_of_nat (nat_of_ascii c - 32) else c)
        (toUpperCase rest)
  end.

(** [words.join('')] *)
Definition join (words : list string) : string := String.concat EmptyString words.

(** [s.substring(0, n)] *)
Fixpoint substring0 (n : nat) (s : string) : string :=
  match n, s with
  | S n', String c rest => String c (substring0 n' rest)
  | _, _ => EmptyString
  end.

(** [s.replace(/[^a-zA-Z0-9]/g, '')] *)
Fixpoint removeNonAlphanumeric (s : string) : string :=
  match s with
  | EmptyString => EmptyString
  | String c rest =>
      if isLower c || isUpper c || isDigit c
      then String c (removeNonAlphanumeric rest)
      else removeNonAlphanumeric rest
  end.

(** [generateTokenSymbol(name)] *)
Definition generateTokenSymbol (name : string) : string :=
  let symbol := join (map (fun word => toUpperCase (charAt0 word)) (split name)) in
  if (5 <? String.length symbol)%nat
  then toUpperCase (substring0 4 (hd EmptyString (split name)))
  else symbol.

(** [generateRandomNFTSymbol(name)] *)
Definition generateRandomNFTSymbol (name : string) : string :=
  join (map (fun word => toUpperCase (charAt0 word)) (split name)).

(** [solContractName] of the two [deployContract] members. *)
Definition solContractName (contractName : string) : string :=
  removeNonAlphanumeric contractName.

End Names.

(** A Solidity identifier made of letters and digits: it starts with a
    letter. *)
Fixpoint allAlphanumeric (s : string) : bool :=
  match s with
  | EmptyString => true
  | String c rest =>
      (Names.isLower c || Names.isUpper c || Names.isDigit c) && allAlphanumeric rest
  end.

Definition isIdentifier (s : string) : bool :=
  match s with
  | EmptyString => false
  | String c _ => (Names.isLower c || Names.isUpper c) && allAlphanumeric s
  end.

Fixpoint allUpper (s : string) : bool :=
  match s with
  | EmptyString => true
  | String c rest => Names.isUpper c && allUpper rest
  end.

(** What holds of a generated name, checked on one prefix and one suffix. *)
Definition wellNamed (symbolOf : string -> string) (prefix suffix : string) : bool :=
  let name := (prefix ++ " " ++ suffix)%string in
  (String.length (symbolOf name) =? 2)%nat
  && allUpper (symbolOf name)
  && String.eqb (symbolOf name)
       (Names.toUpperCase (Names.charAt0 prefix)
        ++ Names.toUpperCase (Names.charAt0 suffix))%string
  && String.eqb (Names.solContractName name) (prefix ++ suffix)%string
  && isIdentifier (Names.solContractName name).

(** ** Random delays ([utils/delayUtils.js]) *)

Module Delay.

Definition MIN_SECONDS : Z := 2.
Definition MAX_SECONDS : Z := 10.

(** [config?.delay]: a key that is absent, like an absent [delay] object, is
    [None]. *)
Record delay_config := {
  min_seconds : option Z;
  max_seconds : option Z
}.

(** [addRandomDelay(config, walletNum, operationName)]: the number of seconds
    it waits before it returns true. *)
Definition addRandomDelay (cfg : delay_config) (seed : Z) : Z :=
  let minDelay := JS.or_default (min_seconds cfg) MIN_SECONDS in
  let maxDelay := JS.or_default (max_seconds cfg) MAX_SECONDS in
  pickCount seed minDelay maxDelay.

(** The object [requestFaucet] passes to [addRandomDelay] before the attempt
    numbered [retryCount]: the product with an absent value is NaN, which
    [||] replaces like 0. *)
Definition faucetDelay (cfg : delay_config) (retryCount : Z) : delay_config :=
  let delayMultiplier := retryCount + 1 in
  {| min_seconds :=
       Some (JS.or_default
               (option_map (fun seconds => seconds * delayMultiplier) (min_seconds cfg))
               (5 * delayMultiplier));
     max_seconds :=
       Some (JS.or_default
               (option_map (fun seconds => seconds * delayMultiplier) (max_seconds cfg))
               (15 * delayMultiplier)) |}.

End Delay.

(* ===================================================================== *)
(** * Part II: properties *)
(* ===================================================================== *)

(** ** Rounding to 53 bits *)

Section Rounding.

Import Binary64.

Lemma shift_of_small p : p < 2 ^ 53 -> shift_of p = 0.
Proof.
  intros Hp. unfold shift_of.
  destruct (Z.le_gt_cases p 0) as [Hn | Hpos].
  - rewrite Z.log2_nonpos by assumption. reflexivity.
  - apply Z.log2_lt_pow2 in Hp; [lia | assumption].
Qed.

Lemma round53_small p : p < 2 ^ 53 -> round53 p = p.
Proof.
  intros Hp. unfold round53. rewrite shift_of_small by assumption.
  change (2 ^ 0) with 1. rewrite Z.div_1_r, Z.mod_1_r. simpl. lia.
Qed.

(** The unit in the last place of a value of at least [2^52]. *)
Lemma shift_of_bounds p :
  2 ^ 52 <= p ->
  0 <= shift_of p /\ 2 ^ shift_of p * 2 ^ 52 <= p < 2 ^ shift_of p * 2 ^ 53.
Proof.
  intros Hp.
  assert (Hpos : 0 < p) by lia.
  assert (Hlog : 52 <= Z.log2 p) by (apply Z.log2_le_pow2; lia).
  destruct (Z.log2_spec p Hpos) as [Hlo Hhi].
  unfold shift_of. rewrite Z.max_r by lia.
  split; [lia |].
  rewrite <- !Z.pow_add_r by lia.
  replace (Z.log2 p - 52 + 52) with (Z.log2 p) by lia.
  replace (Z.log2 p - 52 + 53) with (Z.succ (Z.log2 p)) by lia.
  lia.
Qed.

(** [round53 p] is a multiple of the unit and within half a unit of [p]. *)
Lemma round53_nearest p :
  0 <= p ->
  exists c, round53 p = c * 2 ^ shift_of p
            /\ 2 * (round53 p - p) <= 2 ^ shift_of p
            /\ 2 * (p - round53 p) <= 2 ^ shift_of p.
Proof.
  intros Hp. unfold round53.
  set (u := 2 ^ shift_of p).
  assert (Hu : 0 < u) by (apply Z.pow_pos_nonneg; unfold shift_of; lia).
  pose proof (Z.div_mod p u ltac:(lia)) as Hdm.
  pose proof (Z.mod_pos_bound p u Hu) as Hr.
  set (q := p / u) in *. set (r := p mod u) in *.
  destruct ((u <? 2 * r) || ((u =? 2 * r) && Z.odd q)) eqn:Hup.
  - exists (q + 1). split; [reflexivity |].
    apply orb_true_iff in Hup. destruct Hup as [Hup | Hup].
    + apply Z.ltb_lt in Hup. nia.
    + apply andb_true_iff in Hup. destruct Hup as [Hup _].
      apply Z.eqb_eq in Hup. nia.
  - exists q. split; [reflexivity |].
    apply orb_false_iff in Hup. destruct Hup as [Hlt _].
    apply Z.ltb_ge in Hlt. nia.
Qed.

Lemma round53_lower p : 0 <= p -> (2 ^ 53 - 1) * p <= 2 ^ 53 * round53 p.
Proof.
  intros Hp.
  destruct (Z.lt_ge_cases p (2 ^ 53)) as [Hs | Hb].
  - rewrite round53_small by assumption. lia.
  - destruct (shift_of_bounds p ltac:(lia)) as [_ [Hlo _]].
    destruct (round53_nearest p Hp) as [c [_ [_ Hnear]]].
    lia.
Qed.

Lemma round53_nonneg p : 0 <= p -> 0 <= round53 p.
Proof.
  intros Hp. pose proof (round53_lower p Hp). lia.
Qed.

(** The buffered value never falls below the estimate. *)
Lemma floor_mul_1_2_ge n : 0 <= n -> n <= floor_mul_1_2 n.
Proof.
  intros Hn. unfold floor_mul_1_2.
  pose proof (round53_lower n Hn) as H1.
  pose proof (round53_nonneg n Hn) as HN.
  set (N := round53 n) in *.
  assert (HP : 0 <= N * mantissa_1_2) by (unfold mantissa_1_2; lia).
  pose proof (round53_lower _ HP) as H2.
  set (R := round53 (N * mantissa_1_2)) in *.
  apply Z.div_le_lower_bound; [lia |].
  unfold mantissa_1_2 in H2. lia.
Qed.

(** Below [2^50] the binary64 computation is the exact floor of [6n/5]. *)
Lemma floor_mul_1_2_exact n : 0 <= n < 2 ^ 50 -> floor_mul_1_2 n = 6 * n / 5.
Proof.
  intros [Hn0 Hn]. unfold floor_mul_1_2.
  rewrite (round53_small n) by lia.
  destruct (Z.eq_dec n 0) as [-> | Hnz]; [reflexivity |].
  set (P := n * mantissa_1_2).
  assert (HP : 2 ^ 52 <= P < 2 ^ 103) by (unfold P, mantissa_1_2; lia).
  destruct (shift_of_bounds P ltac:(lia)) as [Hk [Hlo Hhi]].
  destruct (round53_nearest P ltac:(lia)) as [c [Hc [Hup Hdn]]].
  set (k := shift_of P) in *. set (R := round53 P) in *.
  assert (Hk50 : k <= 50).
  { assert (2 ^ k < 2 ^ 51) by lia.
    apply Z.pow_lt_mono_r_iff in H; lia. }
  assert (Hu : 0 < 2 ^ k <= 2 ^ 50).
  { split; [apply Z.pow_pos_nonneg; lia | apply Z.pow_le_mono_r; lia]. }
  assert (Hb : 2 ^ 52 = 2 ^ (52 - k) * 2 ^ k).
  { rewrite <- Z.pow_add_r by lia. f_equal. lia. }
  set (u := 2 ^ k) in *. set (b := 2 ^ (52 - k)) in *.
  pose proof (Z.div_mod (6 * n) 5 ltac:(lia)) as Hdm.
  pose proof (Z.mod_pos_bound (6 * n) 5 ltac:(lia)) as Hf.
  set (t := 6 * n / 5) in *. set (f := (6 * n) mod 5) in *.
  assert (H5P : 5 * P = 6 * n * 2 ^ 52 - n) by (unfold P, mantissa_1_2; lia).
  assert (Hupper : R < (t + 1) * 2 ^ 52) by lia.
  assert (Hlower : t * 2 ^ 52 - u < R).
  { unfold P, mantissa_1_2 in Hhi. lia. }
  assert (Hge : t * 2 ^ 52 <= R).
  { rewrite Hb, Hc in *. 
    assert (t * b - 1 < c) by nia. nia. }
  symmetry. apply Z.div_unique with (r := R - t * 2 ^ 52); lia.
Qed.

End Rounding.

(** Concrete runs of the estimator's arithmetic: the usual estimates, and one
    beyond [2^52] where binary64 no longer gives the exact floor. *)
Example floor_mul_1_2_runs :
  map Binary64.floor_mul_1_2 [0; 1; 4; 5; 21000; 21001; 150000; 2000000]
  = [0; 1; 4; 6; 25200; 25201; 180000; 2400000]
  /\ Binary64.floor_mul_1_2 (2 ^ 52 + 3) = 6 * (2 ^ 52 + 3) / 5 + 1.
Proof.
  repeat match goal with |- _ /\ _ => split end; vm_compute; reflexivity.
Qed.

(** ** GasPricer *)

Lemma gas_bounds_in_wei :
  toWei_gwei constants.GAS.MIN_GWEI = minGasPrice
  /\ toWei_gwei constants.GAS.MAX_GWEI = maxGasPrice
  /\ minGasPrice = 100000 /\ maxGasPrice = 200000000000.
Proof. repeat split; reflexivity. Qed.

Lemma clamp_within adjusted :
  minGasPrice <=
    (if adjusted <? minGasPrice then minGasPrice
     else if maxGasPrice <? adjusted then maxGasPrice else adjusted)
  <= maxGasPrice.
Proof.
  destruct gas_bounds_in_wei as [_ [_ [Hmin Hmax]]].
  destruct (Z.ltb_spec adjusted minGasPrice);
    [| destruct (Z.ltb_spec maxGasPrice adjusted)]; lia.
Qed.

(** C1. Whatever the network quotes (or if the query is rejected), whatever
    multiplier is configured and for every retry count, the price returned by
    [getGasPrice] lies between MIN_GWEI and MAX_GWEI expressed in wei, bounds
    included; this holds for the copy that reads the configured multiplier
    and for the copies that read the constant. *)
Theorem getGasPrice_within_bounds :
  forall (configured : option JS.number) (quote : option Z) (retryCount : Z),
    toWei_gwei constants.GAS.MIN_GWEI
      <= Lifecycle.getGasPrice configured quote retryCount
      <= toWei_gwei constants.GAS.MAX_GWEI
    /\ (forall cfg : ContractDeployer.config,
          toWei_gwei constants.GAS.MIN_GWEI
            <= ContractDeployer.getGasPrice cfg quote retryCount
            <= toWei_gwei constants.GAS.MAX_GWEI).
Proof.
  assert (Hall : forall configured quote retryCount,
             toWei_gwei constants.GAS.MIN_GWEI
               <= Lifecycle.getGasPrice configured quote retryCount
               <= toWei_gwei constants.GAS.MAX_GWEI).
  { intros configured quote retryCount.
    destruct gas_bounds_in_wei as [-> [-> [Hmin Hmax]]].
    unfold Lifecycle.getGasPrice, Lifecycle.fallbackGasPrice.
    destruct quote as [networkGasPrice |]; [| lia].
    destruct (JS.BigInt_floor _) as [adjusted |]; [| lia].
    apply clamp_within. }
  intros configured quote retryCount.
  split; [apply Hall | intros cfg; apply Hall].
Qed.

(** A quote of 1 gwei: multiplied by 1.1 at first, by 1.1 * 1.3^2 on the
    second retry; a quote of 1000 gwei is cut to the maximum; a multiplier
    that overflows the product, or an infinite one, ends in the fallback. *)
Example getGasPrice_runs :
  Lifecycle.getGasPrice None (Some 1000000000) 0 = 1100000000
  /\ Lifecycle.getGasPrice None (Some 1000000000) 2 = 1859000000
  /\ Lifecycle.getGasPrice None (Some 1000000000000) 0 = 200000000000
  /\ Lifecycle.getGasPrice None (Some 1) 0 = 100000
  /\ Lifecycle.getGasPrice (Some (JS.Finite (inject_Z (10 ^ 300)))) (Some 1000000000) 0
     = 100000
  /\ Lifecycle.getGasPrice (Some JS.PosInfinity) (Some 1000000000) 1 = 100000
  /\ Lifecycle.getGasPrice None None 0 = 100000.
Proof.
  repeat match goal with |- _ /\ _ => split end; vm_compute; reflexivity.
Qed.

(** ** NonceTracker *)

Lemma runCalls_cached_lower_bound calls :
  forall n, Forall (Z.le n) (fst (runCalls calls (Some n))).
Proof.
  induction calls as [| [networkCount |] rest IH]; intros n; simpl.
  - constructor.
  - specialize (IH n). destruct (runCalls rest (Some n)) as [ns s2]. simpl in *.
    constructor; [lia | assumption].
  - specialize (IH (n + 1)).
    eapply Forall_impl; [| exact IH]. intros a Ha. simpl in Ha. lia.
Qed.

Lemma runCalls_nondecreasing calls :
  forall s, StronglySorted Z.le (fst (runCalls calls s)).
Proof.
  induction calls as [| [networkCount |] rest IH]; intros s; simpl.
  - constructor.
  - destruct s as [n |]; simpl.
    + pose proof (runCalls_cached_lower_bound rest n) as Hlb.
      specialize (IH (Some n)).
      destruct (runCalls rest (Some n)) as [ns s2]. simpl in *.
      constructor; assumption.
    + destruct networkCount as [n |]; simpl.
      * pose proof (runCalls_cached_lower_bound rest n) as Hlb.
        specialize (IH (Some n)).
        destruct (runCalls rest (Some n)) as [ns s2]. simpl in *.
        constructor; assumption.
      * apply IH.
  - destruct s as [n |]; simpl; apply IH.
Qed.

Lemma runCalls_paired_cached later :
  forall n,
    fst (runCalls (pairedCalls later) (Some n))
    = map (fun i => n + Z.of_nat i) (seq 0 (List.length later)).
Proof.
  induction later as [| c later IH]; intros n; simpl; [reflexivity |].
  specialize (IH (n + 1)).
  fold (pairedCalls later).
  destruct (runCalls (pairedCalls later) (Some (n + 1))) as [ns s2]. simpl in *.
  rewrite IH. f_equal; [lia |].
  rewrite <- seq_shift, map_map.
  apply map_ext. intros i. lia.
Qed.

Lemma consecutive_increasing len :
  forall n, StronglySorted Z.lt (map (fun i => n + Z.of_nat i) (seq 0 len)).
Proof.
  induction len as [| len IH]; intros n; simpl; constructor.
  - rewrite <- seq_shift, map_map.
    specialize (IH (n + 1)).
    erewrite map_ext; [exact IH |]. intros i. simpl. lia.
  - apply Forall_forall. intros x Hx.
    apply in_map_iff in Hx. destruct Hx as [i [<- Hi]].
    apply in_seq in Hi. lia.
Qed.

Lemma runCalls_failed_queries failed rest :
  runCalls (pairedCalls (repeat None failed ++ rest)) None
  = runCalls (pairedCalls rest) None.
Proof.
  induction failed as [| failed IH]; [reflexivity |].
  cbn. fold (pairedCalls (repeat None failed ++ rest)). exact IH.
Qed.

(** C2. On one instance that is never reset, the transactions that each call
    [getNonce] and then [incrementNonce] receive the nonces
    [n0, n0+1, n0+2, ...] where [n0] is the count first obtained from the
    network (queries rejected before that return nothing, and later network
    answers are never consulted), a strictly increasing sequence; under any
    interleaving of the two calls the returned nonces never decrease; and
    [incrementNonce] leaves a cache that was never initialised as it is. *)
Theorem nonce_sequence_strictly_increasing :
  forall (failed : nat) (n0 : Z) (later : list (option Z)),
    let returned :=
      fst (runCalls (pairedCalls (repeat None failed ++ Some n0 :: later)) None) in
    returned = map (fun i => n0 + Z.of_nat i) (seq 0 (S (List.length later)))
    /\ StronglySorted Z.lt returned
    /\ (forall calls s, StronglySorted Z.le (fst (runCalls calls s)))
    /\ nonce_after (Lifecycle.incrementNonce None) = None.
Proof.
  intros failed n0 later returned.
  assert (Hret : returned
                 = map (fun i => n0 + Z.of_nat i) (seq 0 (S (List.length later)))).
  { unfold returned. rewrite runCalls_failed_queries.
    simpl. fold (pairedCalls later).
    pose proof (runCalls_paired_cached later (n0 + 1)) as H.
    destruct (runCalls (pairedCalls later) (Some (n0 + 1))) as [ns s2]. simpl in *.
    rewrite H. f_equal; [lia |].
    rewrite <- seq_shift, map_map. apply map_ext. intros i. lia. }
  split; [exact Hret |].
  split; [rewrite Hret; apply consecutive_increasing |].
  split; [intros calls s; apply runCalls_nondecreasing | reflexivity].
Qed.

(** ** TransactionLifecycle *)

Arguments Lifecycle.getGasPrice : simpl never.
Arguments Binary64.floor_mul_1_2 : simpl never.

(** Unfolds the lifecycle members down to the effect primitives. *)
Ltac unfold_call :=
  unfold Lifecycle.call,
    Lifecycle.estimateGas, Lifecycle.web3_estimateGas, Lifecycle.getNonce,
    Lifecycle.incrementNonce, Lifecycle.signTransaction,
    Lifecycle.sendSignedTransaction,
    try_catch, bind, ret, throw, emit.

(** Case analysis on the answers of the ledger and on the guards. *)
Ltac break_inputs :=
  repeat (cbn;
    match goal with
    | |- context [match ?x with _ => _ end] => is_var x; destruct x
    | |- context [if negb ?a then _ else _] => destruct a
    | |- context [if String.eqb ?a ?b then _ else _] => destruct (String.eqb a b)
    | |- context [if Z.eqb ?a ?b then _ else _] => destruct (Z.eqb a b)
    | |- context [if Z.leb ?a ?b then _ else _] => destruct (Z.leb a b)
    end).




(** ** GasEstimator *)

Lemma floorBuffered_div raw : floorBuffered raw = 6 * raw / 5.
Proof.
  unfold floorBuffered, Qfloor. cbn.
  replace (raw * 12) with (6 * raw * 2) by lia.
  change 10 with (5 * 2).
  apply Z.div_mul_cancel_r; lia.
Qed.

Lemma estimateGas_success raw s :
  Lifecycle.estimateGas (Some raw) s = (Returned (Binary64.floor_mul_1_2 raw), s, []).
Proof. reflexivity. Qed.

(** C4, as stated, fails: for a raw estimate of 21001 the helper returns
    25201, the floor of 25201.2, where the ceiling is 25202. *)
Lemma estimateGas_is_not_the_ceiling :
  result_of (Lifecycle.estimateGas (Some 21001) None) = Returned 25201
  /\ ceilBuffered 21001 = 25202
  /\ result_of (Lifecycle.estimateGas (Some 21001) None) <> Returned (ceilBuffered 21001).
Proof.
  split; [vm_compute; reflexivity |].
  split; [vm_compute; reflexivity |].
  vm_compute. intros H. discriminate H.
Qed.

(** C4, as the code has it. Whenever the ledger's gas estimation succeeds
    with a raw estimate below [2^50], [estimateGas] returns the floor (not the
    ceiling) of the raw estimate multiplied by 1.2; the binary64 product and
    [Math.floor] give exactly that integer. *)
Theorem estimateGas_returns_floor_of_buffer :
  forall (raw : Z) (s : nonce_state),
    0 <= raw < 2 ^ 50 ->
    Lifecycle.estimateGas (Some raw) s = (Returned (floorBuffered raw), s, []).
Proof.
  intros raw s Hraw.
  rewrite estimateGas_success, floorBuffered_div.
  rewrite floor_mul_1_2_exact by assumption.
  reflexivity.
Qed.

Lemma estimateGas_returns_floor_of_buffer_witness :
  0 <= 21001 < 2 ^ 50
  /\ Lifecycle.estimateGas (Some 21001) None = (Returned (floorBuffered 21001), None, []).
Proof.
  split; [lia |].
  apply (estimateGas_returns_floor_of_buffer 21001 None). lia.
Defined.

(** C5. When estimation succeeds the result of [estimateGas] is never below
    the raw estimate (helper: the buffered value; deployment paths: the raw
    estimate itself); when it fails the result is the class default: 150,000
    for the helper, 2,000,000 for the basic, batch and tester deployments,
    2,500,000 for ERC20 and 3,000,000 for NFT; in neither case does the
    estimator throw. *)
Theorem estimate_at_least_raw_or_default :
  forall (raw : Z) (s : nonce_state),
    0 <= raw < 2 ^ 1023 ->
    (exists gas, Lifecycle.estimateGas (Some raw) s = (Returned gas, s, []) /\ raw <= gas)
    /\ Lifecycle.estimateGas None s = (Returned 150000, s, [])
    /\ (forall fallback,
          Lifecycle.deployEstimate fallback (Some raw) s = (Returned raw, s, []))
    /\ Lifecycle.deployEstimate ContractDeployer.deploymentFallback None s
       = (Returned 2000000, s, [])
    /\ Lifecycle.deployEstimate ERC20TokenDeployer.deploymentFallback None s
       = (Returned 2500000, s, [])
    /\ Lifecycle.deployEstimate NFTManager.deploymentFallback None s
       = (Returned 3000000, s, [])
    /\ Lifecycle.deployEstimate BatchOperationManager.deploymentFallback None s
       = (Returned 2000000, s, [])
    /\ Lifecycle.deployEstimate ContractTesterManager.deploymentFallback None s
       = (Returned 2000000, s, []).
Proof.
  intros raw s [Hraw _].
  split.
  - exists (Binary64.floor_mul_1_2 raw). split; [reflexivity |].
    apply floor_mul_1_2_ge. assumption.
  - repeat split; reflexivity.
Qed.

Lemma estimate_at_least_raw_or_default_witness :
  0 <= 21000 < 2 ^ 1023
  /\ exists gas, Lifecycle.estimateGas (Some 21000) None = (Returned gas, None, [])
                 /\ 21000 <= gas.
Proof.
  assert (H : 0 <= 21000 < 2 ^ 1023).
  { split; [lia | vm_compute; reflexivity]. }
  split; [exact H |].
  exact (proj1 (estimate_at_least_raw_or_default 21000 None H)).
Defined.

(** ** OperationScheduler *)

(** A product with a draw never rounds up to the multiplier itself. *)
Lemma round53_below_span j n :
  0 <= j < 2 ^ 53 -> 1 <= n ->
  0 <= Binary64.round53 (j * n) < n * 2 ^ 53.
Proof.
  intros Hj Hn.
  assert (HP : 0 <= j * n <= 2 ^ 53 * n - n) by nia.
  split; [apply round53_nonneg; lia |].
  destruct (Z.lt_ge_cases (j * n) (2 ^ 53)) as [Hs | Hb].
  - rewrite round53_small by assumption. lia.
  - destruct (shift_of_bounds (j * n) ltac:(lia)) as [_ [Hlo _]].
    destruct (round53_nearest (j * n) ltac:(lia)) as [c [_ [Hup _]]].
    lia.
Qed.

Lemma floor_random_times_range seed n :
  1 <= n -> 0 <= Binary64.floor_random_times seed n <= n - 1.
Proof.
  intros Hn. unfold Binary64.floor_random_times, Binary64.Math_random, Binary64.round53s.
  pose proof (Z.mod_pos_bound seed (2 ^ 53) ltac:(lia)) as Hj.
  set (j := seed mod 2 ^ 53) in *.
  destruct (Z.ltb_spec (j * n) 0) as [Hneg | _]; [nia |].
  destruct (round53_below_span j n Hj Hn) as [H0 Hlt].
  assert (0 <= Binary64.round53 (j * n) / 2 ^ 53) by (apply Z.div_pos; lia).
  assert (Binary64.round53 (j * n) / 2 ^ 53 < n)
    by (apply Z.div_lt_upper_bound; lia).
  lia.
Qed.

Lemma floor_random_times_nonpos seed n :
  n <= 0 -> n <= Binary64.floor_random_times seed n <= 0.
Proof.
  intros Hn. unfold Binary64.floor_random_times, Binary64.Math_random, Binary64.round53s.
  pose proof (Z.mod_pos_bound seed (2 ^ 53) ltac:(lia)) as Hj.
  set (j := seed mod 2 ^ 53) in *.
  destruct (Z.ltb_spec (j * n) 0) as [Hneg | Hzero].
  - assert (Hn1 : 1 <= - n) by nia.
    destruct (round53_below_span j (- n) Hj Hn1) as [H0 Hlt].
    replace (- (j * n)) with (j * - n) by lia.
    split.
    + apply Z.div_le_lower_bound; lia.
    + apply Z.div_le_upper_bound; lia.
  - assert (Hz : j * n = 0) by nia. rewrite Hz.
    change (Binary64.round53 0 / 2 ^ 53) with 0. lia.
Qed.

(** With [lo <= hi] the draw lies in [[lo, hi]]. *)
Lemma pickCount_range seed lo hi : lo <= hi -> lo <= pickCount seed lo hi <= hi.
Proof.
  intros Hle. unfold pickCount.
  pose proof (floor_random_times_range seed (hi - lo + 1) ltac:(lia)). lia.
Qed.

(** With [hi < lo] the draw lies in [[hi + 1, lo]]. *)
Lemma pickCount_inverted seed lo hi : hi < lo -> hi < pickCount seed lo hi <= lo.
Proof.
  intros Hlt. unfold pickCount.
  pose proof (floor_random_times_nonpos seed (hi - lo + 1) ltac:(lia)). lia.
Qed.

Lemma interactionBounds_ordered cfg :
  fst (ContractDeployer.interactionBounds cfg) <= snd (ContractDeployer.interactionBounds cfg).
Proof.
  unfold ContractDeployer.interactionBounds.
  destruct (ContractDeployer.count cfg) as [r | n |]; cbn; [lia | | lia].
  destruct (n =? 0); cbn; lia.
Qed.





(** ** NFT mint count *)

(** The cap holds whenever the smallest admissible count fits the supply. *)
Lemma mintCount_capped cfg supply seed :
  fst (NFTManager.mintBounds cfg supply) <= supply ->
  NFTManager.mintCount cfg supply seed <= supply.
Proof.
  intros Hfit. unfold NFTManager.mintCount.
  unfold NFTManager.mintBounds in *. cbn in *.
  set (minMint := Z.max 1 (JS.or_default (min (NFTManager.mint_count cfg)) 2)) in *.
  set (maxMint := Z.min supply _).
  assert (minMint <= maxMint) by (unfold maxMint; lia).
  pose proof (pickCount_range seed minMint maxMint ltac:(assumption)).
  unfold maxMint in *. lia.
Qed.

(** C7 fails on the code. With [mint_count = {min: 50, max: 60}] and
    [supply = {min: 10, max: 10}] the drawn supply is 10 for every draw, the
    cap [Math.min(supply, ...)] puts [maxMint = 10] below [minMint = 50], and
    every draw of the mint count lies in [[11, 50]], above the supply. *)
Theorem mintCount_exceeds_drawn_supply :
  forall seed1 seed2 : Z,
    NFTManager.drawSupply oversizedMintConfig seed1 = 10
    /\ NFTManager.mintBounds oversizedMintConfig 10 = (50, 10)
    /\ 10 < NFTManager.mintCount oversizedMintConfig 10 seed2 <= 50
    /\ NFTManager.mintCount oversizedMintConfig 10 0 = 50.
Proof.
  intros seed1 seed2.
  split.
  { unfold NFTManager.drawSupply. cbn.
    pose proof (pickCount_range seed1 10 10 ltac:(lia)). lia. }
  split; [reflexivity |].
  split.
  { unfold NFTManager.mintCount. cbn.
    apply pickCount_inverted. lia. }
  vm_compute. reflexivity.
Qed.

(** ** Boundary tests *)

Lemma methodCalls_app t1 t2 :
  methodCalls (t1 ++ t2) = methodCalls t1 ++ methodCalls t2.
Proof.
  induction t1 as [| e t1 IH]; [reflexivity |].
  destruct e; cbn; rewrite IH; reflexivity.
Qed.

(** One test never throws and prepares exactly its own method call. *)
Lemma testCall_prepares_once name value w s :
  exists ok s1 t,
    ContractTesterManager.testCall name value w s = (Returned ok, s1, t)
    /\ methodCalls t = [(name, value)].
Proof.
  destruct w as [txc quote est sg bc rb own bal].
  unfold ContractTesterManager.testCall, Lifecycle.readBack. unfold_call.
  break_inputs.
  all: eexists _, _, _; split; reflexivity.
Qed.



(** ** Faucet retry loop *)

Section Faucet.

Import FaucetManager.

Variable cfg : config.
Variable env : nat -> attempt_env.
Variable maxRetries : Z.


Lemma backoffsOf_app t1 t2 : backoffsOf (t1 ++ t2) = backoffsOf t1 ++ backoffsOf t2.
Proof.
  induction t1 as [| e t1 IH]; [reflexivity |].
  destruct e; cbn; rewrite IH; reflexivity.
Qed.






End Faucet.

(** Three rate-limited attempts: sleeps of 20 and 40 seconds between them,
    none after the last. *)
Example requestFaucet_rate_limited :
  FaucetManager.requestFaucet sampleFaucetConfig rateLimitedFaucet
  = (false,
     [ FaucetManager.Attempt 0; FaucetManager.Backoff 20;
       FaucetManager.Attempt 1; FaucetManager.Backoff 40;
       FaucetManager.Attempt 2 ]).
Proof. vm_compute. reflexivity. Qed.



(** ** Burn counts *)











(* ===================================================================== *)
(** * Part III: the workflows *)
(* ===================================================================== *)

(** ** Relations kept by every step of a workflow *)

Lemma broadcastNonces_app t1 t2 :
  broadcastNonces (t1 ++ t2) = broadcastNonces t1 ++ broadcastNonces t2.
Proof.
  induction t1 as [| e t1 IH]; [reflexivity |].
  destruct e; cbn; rewrite IH; reflexivity.
Qed.

Lemma consecutiveFrom_app l1 :
  forall n l2,
    consecutiveFrom n l1 -> consecutiveFrom (n + Z.of_nat (List.length l1)) l2 ->
    consecutiveFrom n (l1 ++ l2).
Proof.
  induction l1 as [| x l1 IH]; intros n l2 H1 H2; cbn in *.
  - rewrite Z.add_0_r in H2. exact H2.
  - destruct H1 as [-> H1]. split; [reflexivity |].
    apply IH; [exact H1 |].
    replace (n + 1 + Z.of_nat (List.length l1))
      with (n + Z.pos (Pos.of_succ_nat (List.length l1))) by lia.
    exact H2.
Qed.

Lemma tracked_nil s : tracked s s [].
Proof.
  destruct s as [n |]; cbn.
  - split; [f_equal; lia | exact I].
  - left. split; reflexivity.
Qed.

Lemma tracked_app s s1 s2 l1 l2 :
  tracked s s1 l1 -> tracked s1 s2 l2 -> tracked s s2 (l1 ++ l2).
Proof.
  assert (Hsome : forall n, s1 = Some (n + Z.of_nat (List.length l1)) ->
            consecutiveFrom n l1 -> tracked s1 s2 l2 ->
            s2 = Some (n + Z.of_nat (List.length (l1 ++ l2)))
            /\ consecutiveFrom n (l1 ++ l2)).
  { intros n -> Hc [-> Hc2]. rewrite length_app, Nat2Z.inj_add. split.
    - f_equal. lia.
    - apply consecutiveFrom_app; assumption. }
  destruct s as [n |]; cbn.
  - intros [Hs1 Hc]. apply Hsome; assumption.
  - intros [[-> ->] | [n0 [Hs1 Hc]]] H2.
    + exact H2.
    + right. exists n0. apply Hsome; assumption.
Qed.

Section Invariants.

Variable Inv : nonce_state -> nonce_state -> list event -> Prop.
Hypothesis Inv_nil : forall s, Inv s s [].
Hypothesis Inv_app :
  forall s s1 s2 t1 t2, Inv s s1 t1 -> Inv s1 s2 t2 -> Inv s s2 (t1 ++ t2).

Lemma respects_ret {A} (a : A) : respects Inv (ret a).
Proof. intros s. apply Inv_nil. Qed.

Lemma respects_throw {A} : respects Inv (@throw A).
Proof. intros s. apply Inv_nil. Qed.

Lemma respects_bind {A B} (m : M A) (f : A -> M B) :
  respects Inv m -> (forall a, respects Inv (f a)) -> respects Inv (bind m f).
Proof.
  intros Hm Hf s. specialize (Hm s).
  unfold nonce_after, trace_of, bind in *.
  destruct (m s) as [[[a |] s1] t1]; cbn in *; [| exact Hm].
  specialize (Hf a s1). unfold nonce_after, trace_of in Hf.
  destruct (f a s1) as [[r s2] t2]; cbn in *.
  eapply Inv_app; eassumption.
Qed.

Lemma respects_try_catch {A} (body handler : M A) :
  respects Inv body -> respects Inv handler -> respects Inv (try_catch body handler).
Proof.
  intros Hb Hh s. specialize (Hb s).
  unfold nonce_after, trace_of, try_catch in *.
  destruct (body s) as [[[a |] s1] t1]; cbn in *; [exact Hb |].
  specialize (Hh s1). unfold nonce_after, trace_of in Hh.
  destruct (handler s1) as [[r s2] t2]; cbn in *.
  eapply Inv_app; eassumption.
Qed.

(** A workflow resets the cache first: what follows runs from a null cache. *)
Lemma respects_after_reset {A} (m handler : M A) s :
  respects Inv m -> respects Inv handler ->
  Inv None (nonce_after (try_catch (resetNonce ;;; m) handler s))
           (trace_of (try_catch (resetNonce ;;; m) handler s)).
Proof.
  intros Hm Hh.
  pose proof (respects_try_catch m handler Hm Hh None) as H.
  unfold nonce_after, trace_of, try_catch, bind, resetNonce in *.
  destruct (m None) as [[[a |] s1] t1]; cbn in *; [exact H |].
  destruct (handler s1) as [[r s2] t2]; cbn in *. exact H.
Qed.

Hypothesis Inv_call : forall configured w, respects Inv (Lifecycle.call configured w).
Hypothesis Inv_deploy :
  forall configured fallback w, respects Inv (Lifecycle.deploy configured fallback w).
Hypothesis Inv_prepare : forall name arg, respects Inv (emit (MethodPrepared name arg)).

(** Splits a computation along its binds, handlers and guards. *)
Ltac respects_steps :=
  repeat first
    [ apply respects_ret
    | apply respects_throw
    | apply Inv_call
    | apply Inv_deploy
    | apply Inv_prepare
    | assumption
    | apply respects_try_catch
    | apply respects_bind; [| intro]
    | match goal with
      | |- respects _ (if ?b then _ else _) => destruct b
      | |- respects _ (match ?x with _ => _ end) => destruct x
      end ].

Lemma respects_compileContract compiles : respects Inv (compileContract compiles).
Proof. unfold compileContract. respects_steps. Qed.

Lemma respects_readBack w : respects Inv (Lifecycle.readBack w).
Proof. unfold Lifecycle.readBack. respects_steps. Qed.

Lemma respects_interactWithContract cfg interactionType seed w :
  respects Inv (ContractDeployer.interactWithContract cfg interactionType seed w).
Proof.
  unfold ContractDeployer.interactWithContract, ContractDeployer.prepare.
  respects_steps.
Qed.

Lemma respects_mintNFT tokenId w : respects Inv (NFTManager.mintNFT tokenId w).
Proof. unfold NFTManager.mintNFT. respects_steps. Qed.

Lemma respects_burnNFT tokenId w : respects Inv (NFTManager.burnNFT tokenId w).
Proof. unfold NFTManager.burnNFT, NFTManager.checkOwner. respects_steps. Qed.

Lemma respects_sendAmount method amount decimals w :
  respects Inv (ERC20Flow.sendAmount method amount decimals w).
Proof. unfold ERC20Flow.sendAmount. respects_steps. Qed.

Lemma respects_testIndividualOperations seed w :
  respects Inv (BatchOperationManager.testIndividualOperations seed w).
Proof.
  unfold BatchOperationManager.testIndividualOperations.
  pose proof (respects_readBack w). respects_steps.
Qed.

Lemma respects_executeBatchOperations cfg seed w :
  respects Inv (BatchOperationManager.executeBatchOperations cfg seed w).
Proof.
  unfold BatchOperationManager.executeBatchOperations.
  pose proof (respects_readBack w). respects_steps.
Qed.

Lemma respects_testCall name value w :
  respects Inv (ContractTesterManager.testCall name value w).
Proof.
  unfold ContractTesterManager.testCall.
  pose proof (respects_readBack w). respects_steps.
Qed.

Lemma respects_mintLoop w remaining :
  forall i, respects Inv (NFTManager.mintLoop w remaining i).
Proof.
  induction remaining as [| remaining IH]; intros i; cbn [NFTManager.mintLoop].
  - apply respects_ret.
  - pose proof (respects_mintNFT (Z.of_nat i) (w i)). pose proof (IH (S i)).
    respects_steps.
Qed.

Lemma respects_burnLoop w tokens :
  forall i, respects Inv (NFTFlow.burnLoop w tokens i).
Proof.
  induction tokens as [| tokenId tokens IH]; intros i; cbn [NFTFlow.burnLoop].
  - apply respects_ret.
  - pose proof (respects_burnNFT tokenId (w i)). pose proof (IH (S i)).
    respects_steps.
Qed.

Lemma respects_interactionLoop cfg l draws w remaining :
  forall i successCount,
    respects Inv (ContractFlow.interactionLoop cfg l draws w remaining i successCount).
Proof.
  induction remaining as [| remaining IH]; intros i successCount;
    cbn [ContractFlow.interactionLoop].
  - apply respects_ret.
  - apply respects_bind.
    + unfold ContractFlow.interact.
      destruct (ContractFlow.pickType l (fst (draws i))) as [t |].
      * apply respects_interactWithContract.
      * respects_steps.
    + intros success. apply IH.
Qed.

Lemma respects_batchLoop cfg seeds w remaining :
  forall i, respects Inv (BatchFlow.batchLoop cfg seeds w remaining i).
Proof.
  induction remaining as [| remaining IH]; intros i; cbn [BatchFlow.batchLoop].
  - apply respects_ret.
  - pose proof (respects_executeBatchOperations cfg (seeds i) (w i)).
    pose proof (IH (S i)). respects_steps.
Qed.

Lemma respects_variationLoop testValues picks w remaining :
  forall i successCount,
    respects Inv (TesterFlow.variationLoop testValues picks w remaining i successCount).
Proof.
  induction remaining as [| remaining IH]; intros i successCount;
    cbn [TesterFlow.variationLoop].
  - apply respects_ret.
  - apply respects_bind.
    + unfold TesterFlow.testValue.
      destruct (nth_error testValues _) as [v |].
      * apply respects_testCall.
      * respects_steps.
    + intros ok. apply IH.
Qed.

Lemma respects_stressLoop picks amounts w remaining :
  forall i successCount,
    respects Inv (TesterFlow.stressLoop picks amounts w remaining i successCount).
Proof.
  induction remaining as [| remaining IH]; intros i successCount;
    cbn [TesterFlow.stressLoop].
  - apply respects_ret.
  - destruct (nth_error TesterFlow.stressOperations _) as [name |].
    + apply respects_bind; [apply respects_testCall | intros ok; apply IH].
    + apply respects_throw.
Qed.

Lemma respects_boundaryLoop w values :
  forall i successCount,
    respects Inv (ContractTesterManager.boundaryLoop w values i successCount).
Proof.
  induction values as [| value values IH]; intros i successCount;
    cbn [ContractTesterManager.boundaryLoop].
  - apply respects_ret.
  - apply respects_bind; [apply respects_testCall | intros ok; apply IH].
Qed.

Lemma respects_runSequence cfg sequence r :
  respects Inv (TesterFlow.runSequence cfg sequence r).
Proof.
  unfold TesterFlow.runSequence, TesterFlow.performParameterVariationTests,
    TesterFlow.performStressTests, TesterFlow.performBoundaryTests,
    ContractTesterManager.performBoundaryTests, TesterFlow.setBaseValue.
  pose proof (respects_variationLoop (TesterFlow.generateTestValues (TesterFlow.valueSeeds r))
                (TesterFlow.picks r) (TesterFlow.ledgers r)).
  pose proof (respects_stressLoop (TesterFlow.picks r) (TesterFlow.amounts r)
                (TesterFlow.ledgers r)).
  pose proof (respects_boundaryLoop (TesterFlow.ledgers r)
                ContractTesterManager.boundaryValues).
  repeat first
    [ apply respects_ret
    | apply Inv_call
    | apply Inv_prepare
    | match goal with H : forall _ _ _, respects _ _ |- _ => apply H end
    | match goal with H : forall _ _, respects _ _ |- _ => apply H end
    | apply respects_try_catch
    | apply respects_bind; [| intro]
    | match goal with
      | |- respects _ (if ?b then _ else _) => destruct b
      end ].
Qed.

Lemma respects_sequenceLoop cfg sequences runs :
  forall i, respects Inv (TesterFlow.sequenceLoop cfg sequences runs i).
Proof.
  induction sequences as [| sequence sequences IH]; intros i;
    cbn [TesterFlow.sequenceLoop].
  - apply respects_ret.
  - apply respects_bind; [apply respects_runSequence | intros _; apply IH].
Qed.

(** The five manager workflows, run on any cache, keep the relation from the
    null cache they reset to. *)
Lemma workflows_respect :
  (forall cfg i r s,
      let x := ContractFlow.executeContractOperations true cfg i r s in
      Inv None (nonce_after x) (trace_of x))
  /\ (forall cfg decimals r s,
        let x := ERC20Flow.executeTokenOperations true cfg decimals r s in
        Inv None (nonce_after x) (trace_of x))
  /\ (forall cfg r s,
        let x := NFTFlow.executeNFTOperations true cfg r s in
        Inv None (nonce_after x) (trace_of x))
  /\ (forall cfg r s,
        let x := BatchFlow.executeBatchOperationOperations true cfg r s in
        Inv None (nonce_after x) (trace_of x))
  /\ (forall cfg sequences r s,
        let x := TesterFlow.executeContractTestingOperations true cfg sequences r s in
        Inv None (nonce_after x) (trace_of x)).
Proof.
  repeat match goal with |- _ /\ _ => split end; intros;
    subst x; cbn [negb];
    apply respects_after_reset; try apply respects_ret.
  - pose proof respects_compileContract. pose proof respects_interactionLoop.
    unfold ContractDeployer.deployContract.
    repeat first
      [ apply respects_ret | apply Inv_deploy
      | match goal with H : forall _, respects _ _ |- _ => apply H end
      | match goal with H : forall _ _ _ _ _ _ _, respects _ _ |- _ => apply H end
      | apply respects_bind; [| intro]
      | match goal with |- respects _ (if ?b then _ else _) => destruct b end ].
  - pose proof respects_compileContract. pose proof respects_sendAmount.
    unfold ERC20TokenDeployer.deployContract, ERC20Flow.mintTokens, ERC20Flow.burnTokens.
    repeat first
      [ apply respects_ret | apply Inv_deploy
      | match goal with H : forall _, respects _ _ |- _ => apply H end
      | match goal with H : forall _ _ _ _, respects _ _ |- _ => apply H end
      | apply respects_bind; [| intro]
      | match goal with |- respects _ (if ?b then _ else _) => destruct b end ].
  - pose proof respects_compileContract. pose proof respects_mintLoop.
    pose proof respects_burnLoop.
    unfold NFTFlow.deployContract, NFTManager.deployContract.
    repeat first
      [ apply respects_ret | apply Inv_deploy
      | match goal with H : forall _, respects _ _ |- _ => apply H end
      | match goal with H : forall _ _ _, respects _ _ |- _ => apply H end
      | apply respects_bind; [| intro] ].
  - pose proof respects_compileContract. pose proof respects_batchLoop.
    pose proof respects_testIndividualOperations.
    unfold BatchFlow.deployBatchProcessor, BatchOperationManager.deployBatchProcessor,
      BatchFlow.executeMultipleBatches.
    repeat first
      [ apply respects_ret | apply Inv_deploy
      | match goal with H : forall _, respects _ _ |- _ => apply H end
      | match goal with H : forall _ _, respects _ _ |- _ => apply H end
      | match goal with H : forall _ _ _ _ _, respects _ _ |- _ => apply H end
      | apply respects_try_catch
      | apply respects_bind; [| intro] ].
  - pose proof respects_compileContract. pose proof respects_sequenceLoop.
    unfold TesterFlow.deployTestContract, ContractTesterManager.deployTestContract.
    repeat first
      [ apply respects_ret | apply Inv_deploy
      | match goal with H : forall _, respects _ _ |- _ => apply H end
      | match goal with H : forall _ _ _ _, respects _ _ |- _ => apply H end
      | apply respects_bind; [| intro] ].
Qed.

End Invariants.

(** ** The nonces of a workflow *)

(** Closes a [tracked] goal on a computed cache and list of nonces. *)
Ltac solve_tracked :=
  cbn;
  first
    [ solve [split; [f_equal; lia | cbn; repeat split; lia]]
    | solve [left; split; reflexivity]
    | right;
      match goal with
      | |- exists n0, Some ?v = _ /\ _ =>
          first
            [ solve [exists v; split; [f_equal; lia | cbn; repeat split; lia]]
            | solve [exists (v - 1); split; [f_equal; lia | cbn; repeat split; lia]] ]
      end ].

Lemma call_sequential configured w : respects sequentially (Lifecycle.call configured w).
Proof.
  intros s. destruct w as [txc quote est sg bc rb own bal].
  unfold sequentially, nonce_after, trace_of. unfold_call.
  destruct s as [n |]; break_inputs; solve_tracked.
Qed.

Lemma deploy_sequential configured fallback w :
  respects sequentially (Lifecycle.deploy configured fallback w).
Proof.
  intros s. destruct w as [txc quote est sg bc rb own bal].
  unfold sequentially, nonce_after, trace_of, Lifecycle.deploy, Lifecycle.deployEstimate.
  unfold_call.
  destruct s as [n |]; break_inputs; solve_tracked.
Qed.

Lemma prepare_sequential name arg : respects sequentially (emit (MethodPrepared name arg)).
Proof. intros s. apply tracked_nil. Qed.

(** X1. In each of the five manager workflows the nonces handed to
    [sendSignedTransaction] during one run are consecutive integers, and the
    cached nonce ends one above the last of them, whatever the configuration,
    the random draws and the answers of the ledger (for the ERC20 token:
    decimals and amounts that the ABI encoder takes); a failed signature,
    broadcast or read-back neither skips nor repeats a nonce. *)
Theorem manager_workflows_use_consecutive_nonces :
  (forall cfg i r s,
      let x := ContractFlow.executeContractOperations true cfg i r s in
      tracked None (nonce_after x) (broadcastNonces (trace_of x)))
  /\ (forall cfg decimals r s,
        ERC20Flow.encodable (JS.or_default decimals 18)
          (ERC20TokenDeployer.mintAmount cfg (ERC20Flow.mintSeed r)) ->
        let x := ERC20Flow.executeTokenOperations true cfg decimals r s in
        tracked None (nonce_after x) (broadcastNonces (trace_of x)))
  /\ (forall cfg r s,
        let x := NFTFlow.executeNFTOperations true cfg r s in
        tracked None (nonce_after x) (broadcastNonces (trace_of x)))
  /\ (forall cfg r s,
        let x := BatchFlow.executeBatchOperationOperations true cfg r s in
        tracked None (nonce_after x) (broadcastNonces (trace_of x)))
  /\ (forall cfg sequences r s,
        let x := TesterFlow.executeContractTestingOperations true cfg sequences r s in
        tracked None (nonce_after x) (broadcastNonces (trace_of x))).
Proof.
  assert (H : forall (A B B' C : Prop), (B -> B') -> A /\ B /\ C -> A /\ B' /\ C)
    by tauto.
  apply H with (1 := fun rest cfg decimals r s _ => rest cfg decimals r s).
  apply (workflows_respect sequentially).
  - intros s. apply tracked_nil.
  - intros s s1 s2 t1 t2 H1 H2. unfold sequentially.
    rewrite broadcastNonces_app. eapply tracked_app; eassumption.
  - apply call_sequential.
  - apply deploy_sequential.
  - apply prepare_sequential.
Qed.

(** ** The prices of a workflow *)

Lemma getGasPrice_clamped configured quote retryCount :
  minGasPrice <= Lifecycle.getGasPrice configured quote retryCount <= maxGasPrice.
Proof.
  destruct gas_bounds_in_wei as [_ [_ [Hmin Hmax]]].
  unfold Lifecycle.getGasPrice, Lifecycle.fallbackGasPrice.
  destruct quote as [networkGasPrice |]; [| lia].
  destruct (JS.BigInt_floor _) as [adjusted |]; [| lia].
  apply clamp_within.
Qed.

Lemma always_nil Q (s : nonce_state) : always Q s s [].
Proof. constructor. Qed.

Lemma always_app Q (s s1 s2 : nonce_state) t1 t2 :
  always Q s s1 t1 -> always Q s1 s2 t2 -> always Q s s2 (t1 ++ t2).
Proof. unfold always. intros H1 H2. apply Forall_app. split; assumption. Qed.

(** Closes a goal on every event of a computed trace. *)
Ltac solve_always :=
  cbn; repeat constructor; cbn; try apply getGasPrice_clamped.

Lemma call_priced configured w : respects (always pricedWithin) (Lifecycle.call configured w).
Proof.
  intros s. destruct w as [txc quote est sg bc rb own bal].
  unfold always, trace_of. unfold_call.
  destruct s as [n |]; break_inputs; solve_always.
Qed.

Lemma deploy_priced configured fallback w :
  respects (always pricedWithin) (Lifecycle.deploy configured fallback w).
Proof.
  intros s. destruct w as [txc quote est sg bc rb own bal].
  unfold always, trace_of, Lifecycle.deploy, Lifecycle.deployEstimate. unfold_call.
  destruct s as [n |]; break_inputs; solve_always.
Qed.

(** X2. Every transaction that a manager workflow asks the signer to sign
    carries a gas price between MIN_GWEI and MAX_GWEI in wei, whatever the
    network quotes and whatever multiplier is configured (for the ERC20
    token: with decimals and amounts that the ABI encoder takes). *)
Theorem workflows_sign_within_price_bounds :
  (forall cfg i r s,
      Forall pricedWithin
        (trace_of (ContractFlow.executeContractOperations true cfg i r s)))
  /\ (forall cfg decimals r s,
        ERC20Flow.encodable (JS.or_default decimals 18)
          (ERC20TokenDeployer.mintAmount cfg (ERC20Flow.mintSeed r)) ->
        Forall pricedWithin
          (trace_of (ERC20Flow.executeTokenOperations true cfg decimals r s)))
  /\ (forall cfg r s,
        Forall pricedWithin (trace_of (NFTFlow.executeNFTOperations true cfg r s)))
  /\ (forall cfg r s,
        Forall pricedWithin
          (trace_of (BatchFlow.executeBatchOperationOperations true cfg r s)))
  /\ (forall cfg sequences r s,
        Forall pricedWithin
          (trace_of (TesterFlow.executeContractTestingOperations true cfg sequences r s))).
Proof.
  assert (H : forall (A B B' C : Prop), (B -> B') -> A /\ B /\ C -> A /\ B' /\ C)
    by tauto.
  apply H with (1 := fun rest cfg decimals r s _ => rest cfg decimals r s).
  apply (workflows_respect (always pricedWithin) (always_nil _) (always_app _)
           call_priced deploy_priced).
  intros name arg s. repeat constructor.
Qed.

(** ** The result of a workflow *)

Lemma returns_ret {A} (P : A -> Prop) a : P a -> returns P (ret a).
Proof. intros H s. exists a. split; [reflexivity | exact H]. Qed.

Lemma returns_bind {A B} (P : A -> Prop) (Q : B -> Prop) (m : M A) (f : A -> M B) :
  returns P m -> (forall a, P a -> returns Q (f a)) -> returns Q (bind m f).
Proof.
  intros Hm Hf s. destruct (Hm s) as [a [Ha HP]].
  unfold result_of, bind in *.
  destruct (m s) as [[r s1] t1]; cbn in Ha; subst r.
  destruct (Hf a HP s1) as [b [Hb HQ]]. unfold result_of in Hb.
  destruct (f a s1) as [[r s2] t2]; cbn in *. exists b. split; assumption.
Qed.

(** A member whose handler returns never throws. *)
Lemma returns_try_catch {A} (body handler : M A) :
  returns (fun _ => True) handler -> returns (fun _ => True) (try_catch body handler).
Proof.
  intros Hh s. unfold result_of, try_catch.
  destruct (body s) as [[[a |] s1] t1]; cbn; [exists a; split; [reflexivity | exact I] |].
  destruct (Hh s1) as [b [Hb _]]. unfold result_of in Hb.
  destruct (handler s1) as [[r s2] t2]; cbn in *. exists b. split; [exact Hb | exact I].
Qed.

Lemma returns_member {A} (body : M A) (a : A) :
  returns (fun _ => True) (try_catch body (ret a)).
Proof. apply returns_try_catch. apply returns_ret. exact I. Qed.

(** Whatever runs before [ret true] without throwing, the whole returns true. *)
Lemma returns_then_true {A} (m : M A) :
  returns (fun _ => True) m -> returns (eq true) (m ;;; ret true).
Proof.
  intros Hm. eapply returns_bind; [exact Hm |].
  intros a _. apply returns_ret. reflexivity.
Qed.

Lemma mintLoop_returns w remaining :
  forall i, returns (fun _ => True) (NFTManager.mintLoop w remaining i).
Proof.
  induction remaining as [| remaining IH]; intros i; cbn [NFTManager.mintLoop].
  - apply returns_ret. exact I.
  - eapply returns_bind; [apply returns_member |]. intros ok _.
    eapply returns_bind; [apply IH |]. intros rest _. apply returns_ret. exact I.
Qed.

Lemma burnLoop_returns w tokens :
  forall i, returns (fun _ => True) (NFTFlow.burnLoop w tokens i).
Proof.
  induction tokens as [| tokenId tokens IH]; intros i; cbn [NFTFlow.burnLoop].
  - apply returns_ret. exact I.
  - eapply returns_bind; [apply returns_member |]. intros ok _. apply IH.
Qed.

Lemma interactionLoop_returns cfg l draws w remaining :
  forall i successCount,
    returns (fun _ => True)
      (ContractFlow.interactionLoop cfg l draws w remaining i successCount).
Proof.
  induction remaining as [| remaining IH]; intros i successCount;
    cbn [ContractFlow.interactionLoop].
  - apply returns_ret. exact I.
  - eapply returns_bind; [| intros success _; apply IH].
    unfold ContractFlow.interact.
    destruct (ContractFlow.pickType l (fst (draws i))); apply returns_member.
Qed.

Lemma batchLoop_returns cfg seeds w remaining :
  forall i, returns (fun _ => True) (BatchFlow.batchLoop cfg seeds w remaining i).
Proof.
  induction remaining as [| remaining IH]; intros i; cbn [BatchFlow.batchLoop].
  - apply returns_ret. exact I.
  - eapply returns_bind; [apply returns_member |]. intros result _.
    eapply returns_bind; [apply IH |]. intros results _. apply returns_ret. exact I.
Qed.

Lemma runSequence_returns cfg sequence r :
  returns (fun _ => True) (TesterFlow.runSequence cfg sequence r).
Proof.
  unfold TesterFlow.runSequence.
  repeat match goal with
         | |- returns _ (if ?b then _ else _) => destruct b
         end;
    try (apply returns_ret; exact I);
    (eapply returns_bind; [apply returns_member | intros ok _; apply returns_ret; exact I]).
Qed.

Lemma sequenceLoop_returns cfg sequences runs :
  forall i, returns (fun _ => True) (TesterFlow.sequenceLoop cfg sequences runs i).
Proof.
  induction sequences as [| sequence sequences IH]; intros i;
    cbn [TesterFlow.sequenceLoop].
  - apply returns_ret. exact I.
  - eapply returns_bind; [apply runSequence_returns | intros _ _; apply IH].
Qed.

(** A deployment started on a null cache goes through exactly when the count
    is answered, the signature made and the broadcast accepted. *)
Lemma deploy_from_null configured fallback w :
  result_of (Lifecycle.deploy configured fallback w None)
  = if deploymentResolves w then Returned tt else Thrown.
Proof.
  destruct w as [txc quote est sg bc rb own bal].
  unfold result_of, deploymentResolves, Lifecycle.deploy, Lifecycle.deployEstimate.
  unfold_call. break_inputs; reflexivity.
Qed.

(** The shape of every manager workflow: reset, compile, deploy, and a rest
    that cannot fail. *)
Lemma workflow_result (compiles resolves : bool) (D : M unit) (rest : M bool) s :
  result_of (D None) = (if resolves then Returned tt else Thrown) ->
  returns (eq true) rest ->
  result_of (try_catch (resetNonce ;;; compileContract compiles ;;; D ;;; rest)
               (ret false) s)
  = Returned (compiles && resolves).
Proof.
  intros HD Hrest.
  unfold result_of, try_catch, bind, resetNonce, compileContract, ret, throw in *.
  destruct compiles; cbn; [| reflexivity].
  destruct (D None) as [[r s1] t1]; cbn in HD; subst r.
  destruct resolves; cbn; [| reflexivity].
  destruct (Hrest s1) as [b [Hb <-]]. unfold result_of in Hb.
  destruct (rest s1) as [[r s2] t2]; cbn in *. subst r. reflexivity.
Qed.

Lemma workflow_result_nested (compiles resolves : bool) (D : M unit) (rest : M bool) s :
  result_of (D None) = (if resolves then Returned tt else Thrown) ->
  returns (eq true) rest ->
  result_of (try_catch (resetNonce ;;; (compileContract compiles ;;; D) ;;; rest)
               (ret false) s)
  = Returned (compiles && resolves).
Proof.
  intros HD Hrest.
  unfold result_of, try_catch, bind, resetNonce, compileContract, ret, throw in *.
  destruct compiles; cbn; [| reflexivity].
  destruct (D None) as [[r s1] t1]; cbn in HD; subst r.
  destruct resolves; cbn; [| reflexivity].
  destruct (Hrest s1) as [b [Hb <-]]. unfold result_of in Hb.
  destruct (rest s1) as [[r s2] t2]; cbn in *. subst r. reflexivity.
Qed.

(** X3. Each manager workflow returns true when it is disabled, and
    otherwise returns true exactly when the contract compiled and its
    deployment went through (count answered, transaction signed, broadcast
    accepted); it never throws.  No failed interaction, mint, burn, batch or
    test after the deployment makes the workflow report a failure.  For the
    ERC20 token this is stated for decimals and amounts that the ABI encoder
    takes. *)
Theorem manager_workflows_fail_only_on_deployment :
  (forall enable cfg i r s,
      result_of (ContractFlow.executeContractOperations enable cfg i r s)
      = Returned (negb enable
                  || ContractFlow.compiles r
                     && deploymentResolves (ContractFlow.deployLedger r)))
  /\ (forall enable cfg decimals r s,
        ERC20Flow.encodable (JS.or_default decimals 18)
          (ERC20TokenDeployer.mintAmount cfg (ERC20Flow.mintSeed r)) ->
        result_of (ERC20Flow.executeTokenOperations enable cfg decimals r s)
        = Returned (negb enable
                    || ERC20Flow.compiles r
                       && deploymentResolves (ERC20Flow.deployLedger r)))
  /\ (forall enable cfg r s,
        result_of (NFTFlow.executeNFTOperations enable cfg r s)
        = Returned (negb enable
                    || NFTFlow.compiles r
                       && deploymentResolves (NFTFlow.deployLedger r)))
  /\ (forall enable cfg r s,
        result_of (BatchFlow.executeBatchOperationOperations enable cfg r s)
        = Returned (negb enable
                    || BatchFlow.compiles r
                       && deploymentResolves (BatchFlow.deployLedger r)))
  /\ (forall enable cfg sequences r s,
        result_of (TesterFlow.executeContractTestingOperations enable cfg sequences r s)
        = Returned (negb enable
                    || TesterFlow.compiles r
                       && deploymentResolves (TesterFlow.deployLedger r))).
Proof.
  repeat match goal with |- _ /\ _ => split end; intros [|]; intros;
    cbn [negb orb]; try reflexivity.
  - apply workflow_result; [apply deploy_from_null |].
    destruct (ContractFlow.enabled i); cbn [negb];
      [| apply returns_ret; reflexivity].
    apply returns_then_true. apply interactionLoop_returns.
  - apply workflow_result; [apply deploy_from_null |].
    eapply returns_bind; [apply returns_member |]. intros minted _.
    destruct minted; [| apply returns_ret; reflexivity].
    cbv zeta.
    match goal with |- returns _ (if ?b then _ else _) => destruct b end;
      [| apply returns_ret; reflexivity].
    apply returns_then_true. apply returns_member.
  - apply workflow_result_nested; [apply deploy_from_null |].
    eapply returns_bind; [apply mintLoop_returns |]. intros mintedTokens _.
    apply returns_then_true. apply burnLoop_returns.
  - apply workflow_result_nested; [apply deploy_from_null |].
    eapply returns_bind; [apply returns_member |]. intros tested _.
    apply returns_then_true. apply returns_try_catch. apply returns_ret. exact I.
  - apply workflow_result_nested; [apply deploy_from_null |].
    apply returns_then_true. apply sequenceLoop_returns.
Qed.

(** ** What the NFT workflow mints and burns *)


Lemma argumentsOf_app name t1 t2 :
  argumentsOf name (t1 ++ t2) = argumentsOf name t1 ++ argumentsOf name t2.
Proof.
  unfold argumentsOf. rewrite methodCalls_app, filter_app, map_app. reflexivity.
Qed.

(** A deployment started on a null cache: its result, and the cache it leaves
    when it goes through; it prepares no method call. *)
Lemma deploy_run configured fallback w :
  exists s1 t1,
    Lifecycle.deploy configured fallback w None
    = ((if deploymentResolves w then Returned tt else Thrown), s1, t1)
    /\ methodCalls t1 = []
    /\ (deploymentResolves w = true -> exists n, s1 = Some n).
Proof.
  destruct w as [txc quote est sg bc rb own bal].
  unfold deploymentResolves, Lifecycle.deploy, Lifecycle.deployEstimate.
  unfold_call. break_inputs.
  all: eexists _, _; split; [reflexivity |]; split; [reflexivity |].
  all: intros H; try discriminate H; eexists; reflexivity.
Qed.











(** ** What the ERC20 workflow mints and burns *)






(** ** What the contract workflow calls *)

Lemma call_calls configured w s :
  methodCalls (trace_of (Lifecycle.call configured w s)) = [].
Proof.
  destruct w as [txc quote est sg bc rb own bal].
  unfold trace_of. unfold_call. destruct s; break_inputs; reflexivity.
Qed.

Lemma prepare_run interactionType seed s :
  ContractDeployer.prepare interactionType seed s = (Thrown, s, [])
  \/ exists arg,
       ContractDeployer.prepare interactionType seed s
       = (Returned tt, s, [MethodPrepared interactionType arg])
       /\ supportedInteraction interactionType arg.
Proof.
  unfold ContractDeployer.prepare, supportedInteraction.
  destruct (String.eqb_spec interactionType "setValue") as [-> | _].
  { right. eexists. split; [reflexivity |]. left. split; [reflexivity |].
    pose proof (floor_random_times_range seed 1000 ltac:(lia)). lia. }
  destruct (String.eqb_spec interactionType "increment") as [-> | _];
    [right; exists 0; split; [reflexivity | right; cbn; auto] |].
  destruct (String.eqb_spec interactionType "decrement") as [-> | _];
    [right; exists 0; split; [reflexivity | right; cbn; auto] |].
  destruct (String.eqb_spec interactionType "reset") as [-> | _];
    [right; exists 0; split; [reflexivity | right; cbn; auto] |].
  destruct (String.eqb_spec interactionType "contribute") as [-> | _];
    [right; exists 0; split; [reflexivity | right; cbn; auto 6] |].
  left. reflexivity.
Qed.

Lemma interactWithContract_run cfg interactionType seed w s :
  exists ok s1 t,
    ContractDeployer.interactWithContract cfg interactionType seed w s
    = (Returned ok, s1, t)
    /\ (methodCalls t = []
        \/ exists arg, methodCalls t = [(interactionType, arg)]
                       /\ supportedInteraction interactionType arg).
Proof.
  unfold ContractDeployer.interactWithContract.
  pose proof (call_calls (ContractDeployer.gas_price_multiplier cfg) w s) as Hcall.
  unfold trace_of in Hcall.
  unfold try_catch, bind.
  destruct (prepare_run interactionType seed s) as [-> | [arg [-> Hsup]]].
  - cbn. eexists _, _, _. split; [reflexivity | left; reflexivity].
  - destruct (Lifecycle.call _ w s) as [[[[] |] s1] t1]; cbn [snd] in Hcall;
      cbn [app fst snd]; eexists _, _, _; (split; [reflexivity |]); right; exists arg;
      (split; [| exact Hsup]);
      rewrite ?app_nil_r; cbn [app methodCalls]; rewrite ?methodCalls_app, Hcall;
      reflexivity.
Qed.

Lemma interactionLoop_run cfg l draws w remaining :
  forall i successCount s,
    exists c s1 t,
      ContractFlow.interactionLoop cfg l draws w remaining i successCount s
      = (Returned c, s1, t)
      /\ Forall (fun call => In (fst call) l /\ supportedInteraction (fst call) (snd call))
           (methodCalls t)
      /\ (List.length (methodCalls t) <= remaining)%nat.
Proof.
  induction remaining as [| remaining IH]; intros i successCount s.
  - exists successCount, s, []. repeat split; [constructor | cbn; lia].
  - cbn [ContractFlow.interactionLoop]. unfold bind.
    assert (Hstep : exists ok s1 t,
               ContractFlow.interact cfg (ContractFlow.pickType l (fst (draws i)))
                 (snd (draws i)) (w i) s = (Returned ok, s1, t)
               /\ Forall (fun call => In (fst call) l
                                      /\ supportedInteraction (fst call) (snd call))
                    (methodCalls t)
               /\ (List.length (methodCalls t) <= 1)%nat).
    { unfold ContractFlow.interact, ContractFlow.pickType.
      destruct (nth_error l _) as [interactionType |] eqn:Hpick.
      - apply nth_error_In in Hpick.
        destruct (interactWithContract_run cfg interactionType (snd (draws i)) (w i) s)
          as [ok [s1 [t [Hrun [Hnone | [arg [Hone Hsup]]]]]]];
          exists ok, s1, t; (split; [exact Hrun |]).
        + rewrite Hnone. split; [constructor | cbn; lia].
        + rewrite Hone. split; [| cbn; lia].
          constructor; [split; assumption | constructor].
      - exists false, s, []. repeat split; [constructor | cbn; lia]. }
    destruct Hstep as [ok [s1 [t1 [Hrun [Hall1 Hlen1]]]]].
    rewrite Hrun.
    destruct (IH (S i) (if ok then successCount + 1 else successCount) s1)
      as [c [s2 [t2 [Hrest [Hall2 Hlen2]]]]].
    rewrite Hrest. eexists _, _, _. split; [reflexivity |].
    rewrite methodCalls_app, length_app.
    split; [apply Forall_app; split; assumption | lia].
Qed.

(** X6. Every call the contract workflow prepares is of a type listed in
    [contract_interactions.types] (setValue, increment, decrement, reset when
    the object carries no list) and is either [setValue] with a value in 0..999 or one of
    [increment], [decrement], [reset], [contribute] without argument; a listed
    type the [switch] does not know prepares nothing.  The workflow prepares
    at most the drawn number of interactions, which lies between the
    normalised bounds, and none when the interactions are not enabled. *)
Theorem contract_workflow_prepares_only_listed_interactions :
  forall (cfg : ContractDeployer.config) (i : ContractFlow.interactions)
         (r : ContractFlow.run) (s : nonce_state),
    let t := trace_of (ContractFlow.executeContractOperations true cfg i r s) in
    let interactionCount :=
      ContractDeployer.interactionCount cfg (ContractFlow.countSeed r) in
    Forall (fun call => In (fst call) (ContractFlow.interactionTypes i)
                        /\ supportedInteraction (fst call) (snd call))
      (methodCalls t)
    /\ (List.length (methodCalls t) <= Z.to_nat interactionCount)%nat
    /\ fst (ContractDeployer.interactionBounds cfg) <= interactionCount
       <= snd (ContractDeployer.interactionBounds cfg)
    /\ (ContractFlow.enabled i = false -> methodCalls t = []).
Proof.
  intros cfg i r s t interactionCount.
  assert (Hbounds : fst (ContractDeployer.interactionBounds cfg) <= interactionCount
                    <= snd (ContractDeployer.interactionBounds cfg)).
  { subst interactionCount. unfold ContractDeployer.interactionCount.
    pose proof (interactionBounds_ordered cfg) as Hord.
    destruct (ContractDeployer.interactionBounds cfg) as [lo hi]. cbn in *.
    apply pickCount_range. exact Hord. }
  assert (Hcalls : methodCalls t = []
                   \/ (ContractFlow.enabled i = true
                       /\ Forall (fun call => In (fst call) (ContractFlow.interactionTypes i)
                                   /\ supportedInteraction (fst call) (snd call))
                            (methodCalls t)
                       /\ (List.length (methodCalls t) <= Z.to_nat interactionCount)%nat)).
  { subst t.
    unfold ContractFlow.executeContractOperations, compileContract,
      ContractDeployer.deployContract.
    cbn [negb]. cbv zeta. fold interactionCount.
    unfold trace_of, try_catch, bind, resetNonce, ret, throw.
    destruct (ContractFlow.compiles r); [| left; reflexivity].
    destruct (deploy_run (ContractDeployer.gas_price_multiplier cfg)
                ContractDeployer.deploymentFallback (ContractFlow.deployLedger r))
      as [s1 [t1 [Hrun [Hcalls1 _]]]].
    rewrite Hrun.
    destruct (deploymentResolves (ContractFlow.deployLedger r));
      [| left; cbn [app fst snd]; rewrite ?methodCalls_app, Hcalls1; reflexivity].
    destruct (ContractFlow.enabled i); cbn [negb];
      [| left; cbn [app fst snd]; rewrite ?methodCalls_app, Hcalls1; reflexivity].
    destruct (interactionLoop_run cfg (ContractFlow.interactionTypes i)
                (ContractFlow.draws r) (ContractFlow.interactionLedger r)
                (Z.to_nat interactionCount) 0%nat 0 s1)
      as [c [s2 [t2 [Hloop [Hall Hlen]]]]].
    rewrite Hloop. right. cbn [app fst snd].
    rewrite !methodCalls_app, Hcalls1. cbn [app methodCalls]. rewrite app_nil_r.
    split; [reflexivity | split; assumption]. }
  destruct Hcalls as [Hnone | [Hen [Hall Hlen]]].
  - rewrite Hnone. repeat split; try constructor; try apply Hbounds. cbn. lia.
  - repeat split; try assumption; try apply Hbounds.
    intros Hoff. rewrite Hoff in Hen. discriminate Hen.
Qed.

(** ** Batches *)

Arguments Binary64.floor_random_times : simpl never.

Lemma generateLoop_spec draws remaining :
  forall i,
    List.length (fst (BatchFlow.generateLoop draws remaining i)) = remaining
    /\ Forall2 wellFormedEntry (fst (BatchFlow.generateLoop draws remaining i))
         (snd (BatchFlow.generateLoop draws remaining i)).
Proof.
  induction remaining as [| remaining IH]; intros i.
  - split; [reflexivity | constructor].
  - cbn [BatchFlow.generateLoop]. specialize (IH (S i)).
    destruct (BatchFlow.generateLoop draws remaining (S i)) as [batchOperations parameters].
    cbn [fst snd] in *. destruct IH as [Hlen Hall].
    split; [cbn; rewrite Hlen; reflexivity |].
    constructor; [| exact Hall].
    change (Z.of_nat (List.length BatchFlow.operations)) with 6.
    pose proof (floor_random_times_range (fst (draws i)) 6 ltac:(lia)) as Hidx.
    pose proof (floor_random_times_range (snd (draws i)) 100 ltac:(lia)) as Hset.
    pose proof (floor_random_times_range (snd (draws i)) 5 ltac:(lia)) as Hmul.
    set (idx := Z.to_nat _).
    assert (Hlt : (idx < 6)%nat) by (subst idx; lia).
    unfold wellFormedEntry.
    do 6 (destruct idx as [| idx];
          [eexists; split; [reflexivity |]; split; [cbn; auto 10 |]; cbn; lia |]).
    lia.
Qed.

(** X7. [generateBatchOperations] returns two lists of the same length, the
    drawn number of operations (none when it is not positive).  Every
    operation is one of the six the contract knows, never undefined, and its
    parameter is in 1..100 for [setValue], in 2..6 for [multiplyValue] and 0
    for the others. *)
Theorem generated_batches_are_well_formed :
  forall (cfg : BatchOperationManager.config) (seed : Z) (draws : nat -> Z * Z),
    let batch := BatchFlow.generateBatchOperations cfg seed draws in
    List.length (fst batch) = Z.to_nat (BatchOperationManager.numOperations cfg seed)
    /\ List.length (snd batch) = List.length (fst batch)
    /\ Forall2 wellFormedEntry (fst batch) (snd batch).
Proof.
  intros cfg seed draws batch. subst batch. unfold BatchFlow.generateBatchOperations.
  destruct (generateLoop_spec draws
              (Z.to_nat (BatchOperationManager.numOperations cfg seed)) 0%nat)
    as [Hlen Hall].
  split; [exact Hlen |]. split; [| exact Hall].
  symmetry. eapply Forall2_length. exact Hall.
Qed.

Lemma testIndividualOperations_run seed w s :
  exists ok s1 t,
    BatchOperationManager.testIndividualOperations seed w s = (Returned ok, s1, t)
    /\ methodCalls t = [("setValue"%string, Binary64.floor_random_times seed 100 + 1)].
Proof.
  destruct w as [txc quote est sg bc rb own bal].
  unfold BatchOperationManager.testIndividualOperations, Lifecycle.readBack. unfold_call.
  break_inputs.
  all: eexists _, _, _; split; reflexivity.
Qed.

Lemma executeBatchOperations_run cfg seed w s :
  exists ok s1 t,
    BatchOperationManager.executeBatchOperations cfg seed w s = (Returned ok, s1, t)
    /\ methodCalls t
       = [("executeBatch"%string, BatchOperationManager.numOperations cfg seed)].
Proof.
  destruct w as [txc quote est sg bc rb own bal].
  unfold BatchOperationManager.executeBatchOperations, Lifecycle.readBack. unfold_call.
  break_inputs.
  all: eexists _, _, _; split; reflexivity.
Qed.

Lemma batchLoop_run cfg seeds w remaining :
  forall i s,
    exists results s1 t,
      BatchFlow.batchLoop cfg seeds w remaining i s = (Returned results, s1, t)
      /\ methodCalls t
         = map (fun k => ("executeBatch"%string,
                          BatchOperationManager.numOperations cfg (seeds k)))
             (seq i remaining).
Proof.
  induction remaining as [| remaining IH]; intros i s.
  - exists [], s, []. split; reflexivity.
  - cbn [BatchFlow.batchLoop]. unfold bind.
    destruct (executeBatchOperations_run cfg (seeds i) (w i) s)
      as [ok [s1 [t1 [Hrun Hcalls]]]].
    rewrite Hrun.
    destruct (IH (S i) s1) as [results [s2 [t2 [Hrest Hcalls2]]]].
    rewrite Hrest. eexists _, _, _. split; [reflexivity |].
    cbn [ret app fst snd]. rewrite !methodCalls_app, Hcalls, Hcalls2.
    cbn. rewrite app_nil_r. reflexivity.
Qed.

(** X8. Once the batch processor is deployed, the batch workflow prepares one
    [setValue] with a value in 1..100 and then one or two [executeBatch]
    calls, each with a freshly drawn batch, whether or not the earlier calls
    went through; when compilation or deployment fails it prepares nothing. *)
Theorem batch_workflow_runs_one_or_two_batches :
  forall (cfg : BatchOperationManager.config) (r : BatchFlow.run) (s : nonce_state),
    let t := trace_of (BatchFlow.executeBatchOperationOperations true cfg r s) in
    let testValue := Binary64.floor_random_times (BatchFlow.testSeed r) 100 + 1 in
    let numBatches := Binary64.floor_random_times (BatchFlow.countSeed r) 2 + 1 in
    methodCalls t
    = (if BatchFlow.compiles r && deploymentResolves (BatchFlow.deployLedger r)
       then ("setValue"%string, testValue)
            :: map (fun k => ("executeBatch"%string,
                              BatchOperationManager.numOperations cfg
                                (BatchFlow.batchSeeds r k)))
                 (seq 0 (Z.to_nat numBatches))
       else [])
    /\ 1 <= testValue <= 100
    /\ 1 <= numBatches <= 2.
Proof.
  intros cfg r s t testValue numBatches.
  pose proof (floor_random_times_range (BatchFlow.testSeed r) 100 ltac:(lia)).
  pose proof (floor_random_times_range (BatchFlow.countSeed r) 2 ltac:(lia)).
  split; [| subst testValue numBatches; lia].
  subst t.
  unfold BatchFlow.executeBatchOperationOperations, BatchFlow.deployBatchProcessor,
    compileContract, BatchOperationManager.deployBatchProcessor,
    BatchFlow.executeMultipleBatches.
  cbn [negb]. cbv zeta. fold testValue numBatches.
  unfold trace_of, try_catch, bind, resetNonce, ret, throw.
  destruct (BatchFlow.compiles r); cbn [andb]; [| reflexivity].
  destruct (deploy_run None BatchOperationManager.deploymentFallback
              (BatchFlow.deployLedger r)) as [s1 [t1 [Hrun [Hcalls1 _]]]].
  rewrite Hrun.
  destruct (deploymentResolves (BatchFlow.deployLedger r));
    [| cbn [app fst snd]; rewrite ?methodCalls_app, Hcalls1; reflexivity].
  destruct (testIndividualOperations_run (BatchFlow.testSeed r) (BatchFlow.testLedger r) s1)
    as [ok [s2 [t2 [Htest Hcalls2]]]].
  rewrite Htest.
  destruct (batchLoop_run cfg (BatchFlow.batchSeeds r) (BatchFlow.batchLedger r)
              (Z.to_nat numBatches) 0%nat s2) as [results [s3 [t3 [Hloop Hcalls3]]]].
  rewrite Hloop. cbn [app fst snd].
  rewrite !methodCalls_app, Hcalls1, Hcalls2, Hcalls3. cbn [app methodCalls].
  rewrite app_nil_r. reflexivity.
Qed.

(** ** Test sequences *)

Lemma generateTestValues_spec seeds :
  List.length (TesterFlow.generateTestValues seeds) = 15%nat
  /\ Forall (fun v => 0 <= v <= ContractTesterManager.MAX_SAFE_INTEGER)
       (TesterFlow.generateTestValues seeds).
Proof.
  split; [reflexivity |].
  unfold TesterFlow.generateTestValues. apply Forall_app. split.
  - repeat (constructor; [split; apply Z.leb_le; vm_compute; reflexivity |]).
    constructor.
  - apply Forall_map. apply Forall_forall. intros k _.
    pose proof (floor_random_times_range (seeds k) 1000000 ltac:(lia)) as H.
    assert (Hmax : 1000000 <= ContractTesterManager.MAX_SAFE_INTEGER)
      by (apply Z.leb_le; vm_compute; reflexivity).
    lia.
Qed.

Lemma variationLoop_run testValues picks w remaining :
  (0 < List.length testValues)%nat ->
  forall i successCount s,
    exists c s1 t values,
      TesterFlow.variationLoop testValues picks w remaining i successCount s
      = (Returned c, s1, t)
      /\ methodCalls t = map (pair "setValue"%string) values
      /\ List.length values = remaining
      /\ Forall (fun v => In v testValues) values
      /\ (remaining = 0%nat -> c = successCount).
Proof.
  intros Hlen.
  induction remaining as [| remaining IH]; intros i successCount s.
  - exists successCount, s, [], []. repeat split. constructor.
  - cbn [TesterFlow.variationLoop]. cbv zeta. unfold bind.
    pose proof (floor_random_times_range (picks i) (Z.of_nat (List.length testValues))
                  ltac:(lia)) as Hidx.
    destruct (nth_error testValues _) as [v |] eqn:Hpick;
      [| apply nth_error_None in Hpick; lia].
    apply nth_error_In in Hpick.
    cbn [TesterFlow.testValue].
    destruct (testCall_prepares_once "setValue" v (w i) s) as [ok [s1 [t1 [Hrun Hcalls]]]].
    rewrite Hrun.
    destruct (IH (S i) (if ok then successCount + 1 else successCount) s1)
      as [c [s2 [t2 [values [Hrest [Hcalls2 [Hlen2 [Hall _]]]]]]]].
    rewrite Hrest. exists c, s2, (t1 ++ t2), (v :: values).
    split; [reflexivity |].
    split; [rewrite methodCalls_app, Hcalls, Hcalls2; reflexivity |].
    split; [cbn; rewrite Hlen2; reflexivity |].
    split; [constructor; assumption | intros H; discriminate H].
Qed.

(** X9. The parameter-variation sequence prepares exactly the drawn number
    of [setValue] calls (none when that number is not positive), one per
    iteration whether or not earlier ones failed.  Every value is an element
    of the generated list of fifteen test values, never undefined, and lies
    between 0 and Number.MAX_SAFE_INTEGER.  With a drawn number of iterations
    that is not positive the sequence reports a failure without having run a
    test. *)
Theorem parameter_variation_tests_use_generated_values :
  forall (cfg : ContractTesterManager.config) (r : TesterFlow.sequence_run)
         (s : nonce_state),
    let x := TesterFlow.performParameterVariationTests cfg r s in
    let iterations := ContractTesterManager.iterations cfg (TesterFlow.iterationSeed r) in
    exists values,
      methodCalls (trace_of x) = map (pair "setValue"%string) values
      /\ List.length values = Z.to_nat iterations
      /\ Forall (fun v => In v (TesterFlow.generateTestValues (TesterFlow.valueSeeds r))
                          /\ 0 <= v <= ContractTesterManager.MAX_SAFE_INTEGER) values
      /\ (iterations <= 0 -> result_of x = Returned false).
Proof.
  intros cfg r s x iterations. subst x.
  unfold TesterFlow.performParameterVariationTests. cbv zeta. fold iterations.
  destruct (generateTestValues_spec (TesterFlow.valueSeeds r)) as [Hlen Hrange].
  destruct (variationLoop_run (TesterFlow.generateTestValues (TesterFlow.valueSeeds r))
              (TesterFlow.picks r) (TesterFlow.ledgers r) (Z.to_nat iterations)
              ltac:(rewrite Hlen; lia) 0%nat 0 s)
    as [c [s1 [t [values [Hrun [Hcalls [Hn [Hall Hzero]]]]]]]].
  unfold result_of, trace_of, try_catch, bind, ret. rewrite Hrun. cbn [app fst snd].
  exists values. rewrite app_nil_r.
  split; [exact Hcalls |]. split; [exact Hn |]. split.
  - rewrite Forall_forall in *. intros v Hv. split; [apply Hall; exact Hv |].
    apply Hrange. apply Hall. exact Hv.
  - intros Hle. rewrite (Hzero ltac:(lia)). reflexivity.
Qed.

Lemma setBaseValue_run w s :
  exists s1 t,
    TesterFlow.setBaseValue w s = (Returned (submits s w), s1, t)
    /\ methodCalls t = [("setValue"%string, TesterFlow.baseValue)].
Proof.
  destruct w as [txc quote est sg bc rb own bal].
  unfold TesterFlow.setBaseValue, submits, acquired. unfold_call.
  destruct s; break_inputs.
  all: eexists _, _; split; reflexivity.
Qed.

Lemma stressLoop_run picks amounts w remaining :
  forall i successCount s,
    exists c s1 t,
      TesterFlow.stressLoop picks amounts w remaining i successCount s
      = (Returned c, s1, t)
      /\ List.length (methodCalls t) = remaining
      /\ Forall (fun call =>
                   (fst call = "addValue"%string \/ fst call = "subtractValue"%string)
                   /\ 1 <= snd call <= 100)
           (methodCalls t).
Proof.
  induction remaining as [| remaining IH]; intros i successCount s.
  - exists successCount, s, []. repeat split. constructor.
  - cbn [TesterFlow.stressLoop]. cbv zeta.
    change (Z.of_nat (List.length TesterFlow.stressOperations)) with 2.
    pose proof (floor_random_times_range (picks i) 2 ltac:(lia)) as Hidx.
    pose proof (floor_random_times_range (amounts i) 100 ltac:(lia)) as Hamount.
    set (idx := Z.to_nat _).
    assert (Hlt : (idx < 2)%nat) by (subst idx; lia).
    assert (Hname : exists name,
               nth_error TesterFlow.stressOperations idx = Some name
               /\ (name = "addValue"%string \/ name = "subtractValue"%string)).
    { destruct idx as [| [| idx]]; [eexists; split; [reflexivity | auto] ..| lia]. }
    destruct Hname as [name [-> Hname]]. unfold bind.
    destruct (testCall_prepares_once name
                (Binary64.floor_random_times (amounts i) 100 + 1) (w i) s)
      as [ok [s1 [t1 [Hrun Hcalls]]]].
    rewrite Hrun.
    destruct (IH (S i) (if ok then successCount + 1 else successCount) s1)
      as [c [s2 [t2 [Hrest [Hlen2 Hall]]]]].
    rewrite Hrest. eexists _, _, _. split; [reflexivity |].
    rewrite methodCalls_app, Hcalls. cbn [app List.length]. rewrite Hlen2.
    split; [reflexivity |].
    constructor; [cbn [fst snd]; split; [exact Hname | lia] | exact Hall].
Qed.

(** X10. The stress sequence first prepares [setValue(10000)].  When that
    transaction does not go through, the sequence returns false and prepares
    nothing else.  Otherwise it prepares exactly the drawn number of further
    calls, each [addValue] or [subtractValue] with an amount in 1..100. *)
Theorem stress_tests_need_their_base_value :
  forall (cfg : ContractTesterManager.config) (r : TesterFlow.sequence_run)
         (s : nonce_state),
    let x := TesterFlow.performStressTests cfg r s in
    let iterations := ContractTesterManager.iterations cfg (TesterFlow.iterationSeed r) in
    exists rest,
      methodCalls (trace_of x) = ("setValue"%string, 10000) :: rest
      /\ Forall (fun call =>
                   (fst call = "addValue"%string \/ fst call = "subtractValue"%string)
                   /\ 1 <= snd call <= 100) rest
      /\ (if submits s (TesterFlow.baseLedger r)
          then List.length rest = Z.to_nat iterations
          else rest = [] /\ result_of x = Returned false).
Proof.
  intros cfg r s x iterations. subst x.
  unfold TesterFlow.performStressTests. cbv zeta. fold iterations.
  destruct (setBaseValue_run (TesterFlow.baseLedger r) s) as [s1 [t1 [Hbase Hcalls1]]].
  unfold result_of, trace_of, try_catch, bind, ret. rewrite Hbase.
  destruct (submits s (TesterFlow.baseLedger r)).
  - destruct (stressLoop_run (TesterFlow.picks r) (TesterFlow.amounts r)
                (TesterFlow.ledgers r) (Z.to_nat iterations) 0%nat 0 s1)
      as [c [s2 [t2 [Hloop [Hlen Hall]]]]].
    rewrite Hloop. cbn [app fst snd]. exists (methodCalls t2).
    rewrite app_nil_r, methodCalls_app, Hcalls1.
    split; [reflexivity |]. split; assumption.
  - cbn [app fst snd]. exists []. rewrite app_nil_r, Hcalls1.
    repeat split. constructor.
Qed.

(** ** The self-transfer *)

(** [executeTransfer], case by case. *)
Lemma executeTransfer_run cfg w s :
  TokenTransfer.enable_transfer cfg = true ->
  TokenTransfer.executeTransfer cfg w s
  = match balance w with
    | None => (Returned false, s, [])
    | Some b =>
        if b =? 0 then (Returned true, s, [])
        else
          match acquired s w with
          | None => (Returned false, None, [TransactionCountQueried false])
          | Some n =>
              if TransferFlow.transferAmount cfg w b <=? 0
              then (Returned true, Some n, queried s)
              else (Returned (signs w && broadcasts w), Some (n + 1),
                    queried s
                    ++ IncrementNonceCalled
                    :: Signed n (TransferFlow.gasLimit w) (TransferFlow.gasPrice cfg w)
                         (signs w)
                    :: (if signs w then [Broadcast n (broadcasts w)] else []))
          end
    end.
Proof.
  intros Hen. destruct w as [txc quote est sg bc rb own bal].
  unfold TokenTransfer.executeTransfer, TokenTransfer.getBalance,
    TransferFlow.transferAmount, TransferFlow.gasCost, TransferFlow.gasLimit,
    TransferFlow.gasPrice, acquired, queried.
  rewrite Hen. cbn [negb balance transactionCount networkGasPrice gasEstimate signs
                      broadcasts].
  unfold_call.
  destruct bal as [b |]; [| reflexivity]. cbn.
  destruct (b =? 0); [reflexivity |].
  destruct s as [n |]; [| destruct txc as [n |]; [| reflexivity]];
    destruct est as [g |]; cbn;
    match goal with
    | |- context [if ?c <=? 0 then _ else _] => destruct (c <=? 0)
    end; cbn; try reflexivity;
    destruct sg; cbn; try reflexivity; destruct bc; reflexivity.
Qed.

(** X11. [executeTransfer] reports success without signing anything when the
    balance is zero, and when the balance times the percentage does not cover
    the gas cost: nothing is signed or broadcast and the nonce is not
    advanced (with a zero balance it is not even queried). *)
Theorem executeTransfer_skips_without_signing :
  forall (cfg : TokenTransfer.config) (w : ledger_pass) (s : nonce_state) (b : Z),
    TokenTransfer.enable_transfer cfg = true ->
    balance w = Some b ->
    b = 0 \/ (acquired s w <> None /\ TransferFlow.transferAmount cfg w b <= 0) ->
    let x := TokenTransfer.executeTransfer cfg w s in
    result_of x = Returned true
    /\ signedPrices (trace_of x) = []
    /\ broadcastNonces (trace_of x) = []
    /\ nonce_after x = (if b =? 0 then s else acquired s w).
Proof.
  intros cfg w s b Hen Hbal Hcase x. subst x.
  rewrite (executeTransfer_run cfg w s Hen), Hbal.
  destruct Hcase as [-> | [Hacq Hlow]]; [repeat split |].
  destruct (b =? 0); [repeat split |].
  destruct (acquired s w) as [n |]; [| contradiction].
  destruct (Z.leb_spec (TransferFlow.transferAmount cfg w b) 0) as [_ | Hpos]; [| lia].
  destruct s; repeat split.
Qed.

Lemma executeTransfer_skips_without_signing_witness :
  result_of (TokenTransfer.executeTransfer plainTransferConfig emptyWallet (Some 5))
  = Returned true
  /\ nonce_after (TokenTransfer.executeTransfer plainTransferConfig emptyWallet (Some 5))
     = Some 5.
Proof.
  pose proof (executeTransfer_skips_without_signing plainTransferConfig emptyWallet
                (Some 5) 0 eq_refl eq_refl (or_introl eq_refl)) as H.
  split; [exact (proj1 H) | exact (proj2 (proj2 (proj2 H)))].
Defined.

(** X12. Whenever [executeTransfer] asks for a signature, the transaction
    carries the buffered gas estimate (21000 if that is 0) and the clamped
    price, the value it transfers is positive, and for a percentage between
    0 and 100 the value plus gas times price does not exceed the balance. *)
Theorem executeTransfer_stays_within_balance :
  forall (cfg : TokenTransfer.config) (w : ledger_pass) (s : nonce_state) (b : Z)
         (nonce gas gasPrice : Z) (ok : bool),
    0 <= TokenTransfer.transfer_amount_percentage cfg <= 100 ->
    balance w = Some b -> 0 <= b ->
    In (Signed nonce gas gasPrice ok) (trace_of (TokenTransfer.executeTransfer cfg w s)) ->
    gas = TransferFlow.gasLimit w
    /\ gasPrice = TransferFlow.gasPrice cfg w
    /\ minGasPrice <= gasPrice <= maxGasPrice
    /\ 0 < TransferFlow.transferAmount cfg w b
    /\ TransferFlow.transferAmount cfg w b + gas * gasPrice <= b.
Proof.
  intros cfg w s b nonce gas gasPrice ok Hpct Hbal Hb Hin.
  destruct (TokenTransfer.enable_transfer cfg) eqn:Hen;
    [| unfold TokenTransfer.executeTransfer in Hin; rewrite Hen in Hin;
       cbn in Hin; contradiction].
  rewrite (executeTransfer_run cfg w s Hen), Hbal in Hin.
  destruct (b =? 0); [cbn in Hin; contradiction |].
  destruct (acquired s w) as [n |];
    [| cbn in Hin; destruct Hin as [Hin | []]; discriminate Hin].
  destruct (Z.leb_spec (TransferFlow.transferAmount cfg w b) 0) as [_ | Hpos].
  { destruct s; cbn in Hin; try contradiction.
    destruct Hin as [Hin | []]; discriminate Hin. }
  assert (Hsigned : Signed nonce gas gasPrice ok
                    = Signed n (TransferFlow.gasLimit w) (TransferFlow.gasPrice cfg w)
                        (signs w)).
  { unfold trace_of in Hin. cbn [snd] in Hin.
    apply in_app_or in Hin. destruct Hin as [Hin | Hin].
    - destruct s; cbn in Hin; try contradiction.
      destruct Hin as [Hin | []]; discriminate Hin.
    - destruct Hin as [Hin | [Hin | Hin]]; [discriminate Hin | symmetry; exact Hin |].
      destruct (signs w); cbn in Hin; try contradiction.
      destruct Hin as [Hin | []]; discriminate Hin. }
  inversion Hsigned; subst.
  split; [reflexivity |]. split; [reflexivity |].
  split; [apply getGasPrice_clamped |].
  split; [exact Hpos |].
  unfold TransferFlow.transferAmount, TransferFlow.gasCost.
  assert (Hq : Z.quot (b * TokenTransfer.transfer_amount_percentage cfg) 100 <= b).
  { apply Z.quot_le_upper_bound; [lia | nia]. }
  lia.
Qed.

Lemma executeTransfer_stays_within_balance_witness :
  TransferFlow.transferAmount plainTransferConfig fundedWallet (10 ^ 18)
  = 899944560000000000
  /\ TransferFlow.transferAmount plainTransferConfig fundedWallet (10 ^ 18)
     + 25200 * 2200000000 <= 10 ^ 18.
Proof.
  split; [vm_compute; reflexivity |].
  refine (proj2 (proj2 (proj2 (proj2
    (executeTransfer_stays_within_balance plainTransferConfig fundedWallet None
       (10 ^ 18) 41 25200 2200000000 true _ eq_refl _ _))))).
  - cbn. lia.
  - vm_compute. discriminate.
  - vm_compute. right. right. left. reflexivity.
Defined.

(** X13. When the signer rejects a self-transfer, [executeTransfer] returns
    false with the cached nonce already advanced: the nonce it drew is never
    broadcast, and the next transaction of the instance uses the one after
    it. *)
Theorem executeTransfer_loses_a_nonce_when_signing_fails :
  forall (cfg : TokenTransfer.config) (w : ledger_pass) (s : nonce_state) (b n : Z),
    TokenTransfer.enable_transfer cfg = true ->
    balance w = Some b -> b <> 0 ->
    acquired s w = Some n ->
    0 < TransferFlow.transferAmount cfg w b ->
    signs w = false ->
    let x := TokenTransfer.executeTransfer cfg w s in
    result_of x = Returned false
    /\ nonce_after x = Some (n + 1)
    /\ broadcastNonces (trace_of x) = []
    /\ forall w', Lifecycle.getNonce (transactionCount w') (nonce_after x)
                  = (Returned (n + 1), Some (n + 1), []).
Proof.
  intros cfg w s b n Hen Hbal Hfunds Hacq Hpos Hsign x. subst x.
  rewrite (executeTransfer_run cfg w s Hen), Hbal, Hacq, Hsign.
  destruct (Z.eqb_spec b 0) as [-> | _]; [contradiction |].
  destruct (Z.leb_spec (TransferFlow.transferAmount cfg w b) 0) as [Hle | _]; [lia |].
  cbn [andb]. unfold result_of, nonce_after, trace_of. cbn [fst snd].
  repeat split.
  rewrite broadcastNonces_app. destruct s; reflexivity.
Qed.

Lemma executeTransfer_loses_a_nonce_when_signing_fails_witness :
  nonce_after (TokenTransfer.executeTransfer plainTransferConfig unsignedWallet None)
  = Some 42
  /\ broadcastNonces
       (trace_of (TokenTransfer.executeTransfer plainTransferConfig unsignedWallet None))
     = [].
Proof.
  assert (Hpos : 0 < TransferFlow.transferAmount plainTransferConfig unsignedWallet
                       (10 ^ 18)) by (vm_compute; reflexivity).
  pose proof (executeTransfer_loses_a_nonce_when_signing_fails plainTransferConfig
                unsignedWallet None (10 ^ 18) 41 eq_refl eq_refl
                ltac:(vm_compute; discriminate) eq_refl Hpos eq_refl)
    as H.
  split; [exact (proj1 (proj2 H)) | exact (proj1 (proj2 (proj2 H)))].
Defined.

(** The loop of [transferToSelf] keeps every relation that each transfer
    keeps. *)
Lemma transferLoop_respects Inv
    (Inv_nil : forall s, Inv s s [])
    (Inv_app : forall s s1 s2 t1 t2, Inv s s1 t1 -> Inv s1 s2 t2 -> Inv s s2 (t1 ++ t2))
    cfg w
    (Inv_transfer : forall i, respects Inv (TokenTransfer.executeTransfer cfg (w i)))
    remaining :
  forall i successCount,
    respects Inv (TransferFlow.transferLoop cfg w remaining i successCount).
Proof.
  induction remaining as [| remaining IH]; intros i successCount;
    cbn [TransferFlow.transferLoop].
  - apply respects_ret. exact Inv_nil.
  - apply respects_bind; [exact Inv_app | apply Inv_transfer | intros success; apply IH].
Qed.

Lemma StronglySorted_app_lt (l1 l2 : list Z) (bound : Z) :
  StronglySorted Z.lt l1 -> StronglySorted Z.lt l2 ->
  Forall (fun x => x < bound) l1 -> Forall (fun x => bound <= x) l2 ->
  StronglySorted Z.lt (l1 ++ l2).
Proof.
  intros H1 H2 Hlow Hhigh.
  induction H1 as [| x l1 Hsorted IH Hx]; cbn; [exact H2 |].
  inversion Hlow as [| ? ? Hxb Hrest]; subst.
  constructor; [apply IH; exact Hrest |].
  apply Forall_app. split; [exact Hx |].
  eapply Forall_impl; [| exact Hhigh]. cbn. intros y Hy. lia.
Qed.

Lemma ascending_nil s : ascending s s [].
Proof.
  destruct s as [n |]; cbn.
  - exists n. repeat split; try lia; constructor.
  - left. split; reflexivity.
Qed.

Lemma ascending_app s s1 s2 l1 l2 :
  ascending s s1 l1 -> ascending s1 s2 l2 -> ascending s s2 (l1 ++ l2).
Proof.
  assert (Hsome : forall n n1, s1 = Some n1 -> n <= n1 ->
            StronglySorted Z.lt l1 -> Forall (fun x => n <= x < n1) l1 ->
            ascending s1 s2 l2 ->
            exists n', s2 = Some n' /\ n <= n'
                       /\ StronglySorted Z.lt (l1 ++ l2)
                       /\ Forall (fun x => n <= x < n') (l1 ++ l2)).
  { intros n n1 -> Hle Hs1 Hb1 [n2 [-> [Hle2 [Hs2 Hb2]]]].
    exists n2. split; [reflexivity |]. split; [lia |]. split.
    - apply (StronglySorted_app_lt l1 l2 n1); try assumption.
      + eapply Forall_impl; [| exact Hb1]. cbn. intros; lia.
      + eapply Forall_impl; [| exact Hb2]. cbn. intros; lia.
    - apply Forall_app. split.
      + eapply Forall_impl; [| exact Hb1]. cbn. intros; lia.
      + eapply Forall_impl; [| exact Hb2]. cbn. intros; lia. }
  destruct s as [n |]; cbn.
  - intros [n1 [Hs1 [Hle [Hsorted Hb]]]] H2. eapply Hsome; eassumption.
  - intros [[-> ->] | [n0 [n1 [Hs1 [Hle [Hsorted Hb]]]]]] H2.
    + exact H2.
    + right. exists n0. eapply Hsome; eassumption.
Qed.

Lemma executeTransfer_ascending cfg w :
  respects (fun s s' t => ascending s s' (broadcastNonces t))
    (TokenTransfer.executeTransfer cfg w).
Proof.
  intros s.
  destruct (TokenTransfer.enable_transfer cfg) eqn:Hen;
    [| unfold TokenTransfer.executeTransfer; rewrite Hen; apply ascending_nil].
  rewrite (executeTransfer_run cfg w s Hen).
  destruct (balance w) as [b |]; [| apply ascending_nil].
  destruct (b =? 0); [apply ascending_nil |].
  unfold acquired, queried, nonce_after, trace_of.
  assert (Hstep : forall n l, (l = [] \/ l = [n]) ->
            exists n', Some (n + 1) = Some n' /\ n <= n'
                       /\ StronglySorted Z.lt l /\ Forall (fun x => n <= x < n') l).
  { intros n l [-> | ->]; exists (n + 1);
      repeat split; try lia; repeat constructor; lia. }
  assert (Hnonces : forall n q, broadcastNonces q = [] ->
            let l := broadcastNonces
                       (q ++ IncrementNonceCalled
                          :: Signed n (TransferFlow.gasLimit w)
                               (TransferFlow.gasPrice cfg w) (signs w)
                          :: (if signs w then [Broadcast n (broadcasts w)] else [])) in
            l = [] \/ l = [n]).
  { intros n q Hq l. subst l. rewrite broadcastNonces_app, Hq.
    destruct (signs w); cbn; auto. }
  destruct s as [n |]; [| destruct (transactionCount w) as [n |]];
    cbn [fst snd];
    try (destruct (_ <=? 0); cbn [fst snd]).
  - cbn. exists n. repeat split; try lia; constructor.
  - cbn [ascending]. apply Hstep. apply Hnonces. reflexivity.
  - cbn. right. exists n, n. repeat split; try lia; constructor.
  - cbn [ascending]. right. exists n. apply Hstep. apply Hnonces. reflexivity.
  - cbn. left. split; reflexivity.
Qed.

(** X14. Within one run of [transferToSelf] the nonces handed to
    [sendSignedTransaction] increase strictly, whatever fails in between: a
    nonce may be skipped, none is used twice. *)
Theorem transferToSelf_never_reuses_a_nonce :
  forall (cfg : TokenTransfer.config) (seed : Z) (w : nat -> ledger_pass)
         (s : nonce_state),
    StronglySorted Z.lt
      (broadcastNonces (trace_of (TransferFlow.transferToSelf cfg seed w s))).
Proof.
  intros cfg seed w s. unfold TransferFlow.transferToSelf.
  destruct (TokenTransfer.enable_transfer cfg); cbn [negb]; [| constructor].
  set (Inv := fun (s s' : nonce_state) (t : list event) =>
                ascending s s' (broadcastNonces t)).
  assert (Hnil : forall s0, Inv s0 s0 []) by (intros; apply ascending_nil).
  assert (Happ : forall s0 s1 s2 t1 t2,
             Inv s0 s1 t1 -> Inv s1 s2 t2 -> Inv s0 s2 (t1 ++ t2)).
  { intros s0 s1 s2 t1 t2 H1 H2. unfold Inv. rewrite broadcastNonces_app.
    eapply ascending_app; eassumption. }
  assert (Hbody : respects Inv
            (try_catch
               (successCount <- TransferFlow.transferLoop cfg w
                                  (Z.to_nat (TokenTransfer.transferCount cfg seed)) 1 0 ;;
                ret (0 <? successCount))
               (ret false))).
  { apply respects_try_catch; [exact Happ | | apply respects_ret; exact Hnil].
    apply respects_bind; [exact Happ | | intros a; apply respects_ret; exact Hnil].
    apply transferLoop_respects;
      [exact Hnil | exact Happ | intros i; apply executeTransfer_ascending]. }
  specialize (Hbody None). unfold Inv, nonce_after in Hbody.
  unfold trace_of, bind, resetNonce in *.
  destruct (try_catch _ _ None) as [[r s1] t1]. cbn [fst snd app] in *.
  destruct Hbody as [[_ ->] | [n0 [n' [_ [_ [Hsorted _]]]]]];
    [constructor | exact Hsorted].
Qed.

Lemma transferLoop_empty cfg w remaining :
  TokenTransfer.enable_transfer cfg = true ->
  (forall i, balance (w i) = Some 0) ->
  forall i successCount s,
    TransferFlow.transferLoop cfg w remaining i successCount s
    = (Returned (successCount + Z.of_nat remaining), s, []).
Proof.
  intros Hen Hempty.
  induction remaining as [| remaining IH]; intros i successCount s.
  - cbn. unfold ret. rewrite Z.add_0_r. reflexivity.
  - cbn [TransferFlow.transferLoop]. unfold bind.
    rewrite (executeTransfer_run cfg (w i) s Hen), Hempty. cbn [Z.eqb].
    rewrite IH. cbn [app]. do 2 f_equal. f_equal. lia.
Qed.

(** X15. On a wallet whose balance is zero, [transferToSelf] reports success
    although nothing was transferred: every transfer of the run is skipped,
    nothing is queried, signed or broadcast, and the cache stays null. *)
Theorem transferToSelf_succeeds_on_an_empty_wallet :
  forall (cfg : TokenTransfer.config) (seed : Z) (w : nat -> ledger_pass)
         (s : nonce_state),
    TokenTransfer.enable_transfer cfg = true ->
    (forall i, balance (w i) = Some 0) ->
    1 <= TokenTransfer.transferCount cfg seed ->
    TransferFlow.transferToSelf cfg seed w s = (Returned true, None, []).
Proof.
  intros cfg seed w s Hen Hempty Hcount.
  unfold TransferFlow.transferToSelf. rewrite Hen. cbn [negb].
  unfold bind, resetNonce, try_catch.
  rewrite (transferLoop_empty cfg w _ Hen Hempty). cbn [ret app].
  destruct (Z.ltb_spec 0 (0 + Z.of_nat (Z.to_nat (TokenTransfer.transferCount cfg seed))))
    as [_ | Hle]; [reflexivity | lia].
Qed.

Lemma transferToSelf_succeeds_on_an_empty_wallet_witness :
  TransferFlow.transferToSelf plainTransferConfig 0 (fun _ => emptyWallet) (Some 9)
  = (Returned true, None, []).
Proof.
  apply transferToSelf_succeeds_on_an_empty_wallet.
  - reflexivity.
  - intros i. reflexivity.
  - vm_compute. discriminate.
Defined.

(** ** Retrying the self-transfer *)

Lemma transferLoop_returns cfg w remaining :
  forall i successCount,
    returns (fun _ => True) (TransferFlow.transferLoop cfg w remaining i successCount).
Proof.
  induction remaining as [| remaining IH]; intros i successCount;
    cbn [TransferFlow.transferLoop].
  - apply returns_ret. exact I.
  - eapply (returns_bind (fun _ => True)); [| intros success _; apply IH].
    unfold TokenTransfer.executeTransfer.
    destruct (negb _); [apply returns_ret; exact I | apply returns_member].
Qed.





(** ** The order of a wallet's operations *)

Lemma element_at (l1 : list (option string)) x l2 :
  Index.element (l1 ++ x :: l2) (List.length l1) = x.
Proof.
  unfold Index.element. induction l1 as [| y l1 IH]; cbn; [reflexivity | exact IH].
Qed.

Lemma assign_at (l1 : list (option string)) x l2 v :
  Index.assign (l1 ++ x :: l2) (List.length l1) v = l1 ++ v :: l2.
Proof.
  induction l1 as [| y l1 IH]; cbn; [reflexivity | rewrite IH; reflexivity].
Qed.

Lemma split_at (l : list string) k :
  (k < List.length l)%nat ->
  exists l1 x l2, l = l1 ++ x :: l2 /\ List.length l1 = k.
Proof.
  intros Hk. destruct (nth_error l k) as [x |] eqn:E.
  - destruct (nth_error_split l k E) as [l1 [l2 [Hl Hlen]]].
    exists l1, x, l2. split; assumption.
  - apply nth_error_None in E. lia.
Qed.

(** An exchange of two elements inside the array reorders it. *)
Lemma swap_perm (l : list string) i j :
  (j <= i)%nat -> (i < List.length l)%nat ->
  exists l', Index.swap (map Some l) i j = map Some l'
             /\ Permutation l' l /\ List.length l' = List.length l.
Proof.
  intros Hji Hi. unfold Index.swap.
  destruct (Nat.eq_dec j i) as [-> | Hne].
  - destruct (split_at l i Hi) as [l1 [x [l2 [-> Hlen]]]].
    exists (l1 ++ x :: l2). split; [| split; reflexivity].
    rewrite map_app. cbn [map].
    rewrite <- Hlen, <- (length_map Some l1).
    rewrite element_at, !assign_at. reflexivity.
  - destruct (split_at l j ltac:(lia)) as [l1 [b [rest [-> Hlen1]]]].
    rewrite length_app in Hi. cbn in Hi.
    destruct (split_at rest (i - j - 1) ltac:(lia)) as [l2 [c [l3 [-> Hlen2]]]].
    exists (l1 ++ c :: l2 ++ b :: l3).
    split; [| split].
    + assert (Hi' : i = List.length (map Some l1 ++ Some b :: map Some l2))
        by (rewrite length_app; cbn; rewrite !length_map; lia).
      assert (Hj' : j = List.length (map Some l1)) by (rewrite length_map; lia).
      rewrite !map_app. cbn [map]. rewrite !map_app. cbn [map].
      replace (map Some l1 ++ Some b :: map Some l2 ++ Some c :: map Some l3)
        with ((map Some l1 ++ Some b :: map Some l2) ++ Some c :: map Some l3)
        by (rewrite <- app_assoc; reflexivity).
      rewrite Hi' at 1 2.
      rewrite (element_at (map Some l1 ++ Some b :: map Some l2) (Some c) (map Some l3)).
      rewrite <- (app_assoc (map Some l1)) at 2. cbn [app].
      rewrite Hj' at 1 2.
      rewrite (element_at (map Some l1) (Some b) (map Some l2 ++ Some c :: map Some l3)).
      rewrite (assign_at (map Some l1 ++ Some b :: map Some l2) (Some c) (map Some l3)).
      rewrite <- app_assoc. cbn [app].
      rewrite (assign_at (map Some l1) (Some b)). reflexivity.
    + apply Permutation_app_head.
      transitivity (c :: b :: l2 ++ l3).
      * constructor. symmetry. apply Permutation_middle.
      * transitivity (b :: c :: l2 ++ l3); [apply perm_swap |].
        constructor. apply Permutation_middle.
    + rewrite !length_app. cbn. rewrite !length_app. cbn. lia.
Qed.

Lemma shuffleLoop_perm seeds i :
  forall l : list string,
    (i < List.length l)%nat ->
    exists l', Index.shuffleLoop seeds i (map Some l) = map Some l' /\ Permutation l' l.
Proof.
  induction i as [| i IH]; intros l Hi.
  - exists l. split; [reflexivity | apply Permutation_refl].
  - cbn [Index.shuffleLoop]. cbv zeta.
    pose proof (floor_random_times_range (seeds (S i)) (Z.of_nat (S i) + 1) ltac:(lia))
      as Hj.
    destruct (swap_perm l (S i)
                (Z.to_nat (Binary64.floor_random_times (seeds (S i)) (Z.of_nat (S i) + 1)))
                ltac:(lia) Hi) as [l1 [Hswap [Hperm Hlen]]].
    rewrite Hswap.
    destruct (IH l1 ltac:(lia)) as [l2 [Hloop Hperm2]].
    exists l2. split; [exact Hloop |].
    etransitivity; eassumption.
Qed.

Lemma filter_partition (p : string -> bool) (l : list string) :
  Permutation (filter p l ++ filter (fun x => negb (p x)) l) l.
Proof.
  induction l as [| x l IH]; cbn; [constructor |].
  destruct (p x); cbn.
  - constructor. exact IH.
  - rewrite <- Permutation_middle. constructor. exact IH.
Qed.

Lemma allOperations_NoDup : NoDup Index.allOperations.
Proof.
  unfold Index.allOperations.
  repeat (constructor; [cbn; intuition discriminate |]). constructor.
Qed.

(** X17. [getRandomizedOperations] returns every operation of the fixed list
    of seven that [operations_to_run] names, each exactly once and none
    undefined: first the excluded ones in their declaration order, then the
    others in some order, which is the declaration order when randomization
    is off.  The Fisher-Yates loop never reads or writes outside the array. *)
Theorem randomized_operations_keep_fixed_ones_first :
  forall (operation_randomization : option Index.randomization) (seeds : nat -> Z),
    exists shuffled,
      Index.getRandomizedOperations operation_randomization seeds
      = map Some (Index.fixedOps operation_randomization ++ shuffled)
      /\ Permutation shuffled (Index.randomizableOps operation_randomization)
      /\ Permutation (Index.fixedOps operation_randomization ++ shuffled)
           (Index.filteredOperations operation_randomization)
      /\ NoDup (Index.fixedOps operation_randomization ++ shuffled)
      /\ (Index.enable_randomization (Index.randomizationConfig operation_randomization)
          = false ->
          shuffled = Index.randomizableOps operation_randomization).
Proof.
  intros c seeds.
  assert (Hshuffle : exists shuffled,
             Index.getRandomizedOperations c seeds
             = map Some (Index.fixedOps c ++ shuffled)
             /\ Permutation shuffled (Index.randomizableOps c)
             /\ (Index.enable_randomization (Index.randomizationConfig c) = false ->
                 shuffled = Index.randomizableOps c)).
  { unfold Index.getRandomizedOperations. cbv zeta. rewrite length_map.
    destruct (Index.enable_randomization (Index.randomizationConfig c)); cbn [andb].
    - destruct (Z.ltb_spec 1 (Z.of_nat (List.length (Index.randomizableOps c))))
        as [Hlen | Hlen].
      + destruct (shuffleLoop_perm seeds (List.length (Index.randomizableOps c) - 1)
                    (Index.randomizableOps c) ltac:(lia)) as [l' [Hloop Hperm]].
        exists l'. rewrite Hloop, map_app.
        split; [reflexivity |]. split; [exact Hperm | intros H; discriminate H].
      + exists (Index.randomizableOps c). rewrite map_app.
        split; [reflexivity |]. split; [apply Permutation_refl | reflexivity].
    - exists (Index.randomizableOps c). rewrite map_app.
      split; [reflexivity |]. split; [apply Permutation_refl | reflexivity]. }
  destruct Hshuffle as [shuffled [Hresult [Hperm Hoff]]].
  exists shuffled.
  assert (Hall : Permutation (Index.fixedOps c ++ shuffled) (Index.filteredOperations c)).
  { rewrite Hperm. unfold Index.fixedOps, Index.randomizableOps.
    apply filter_partition. }
  split; [exact Hresult |]. split; [exact Hperm |]. split; [exact Hall |].
  split; [| exact Hoff].
  eapply Permutation_NoDup; [symmetry; exact Hall |].
  unfold Index.filteredOperations. apply NoDup_filter. apply allOperations_NoDup.
Qed.

(** ** Solving the CAPTCHA *)

Lemma pollLoop_spec poll fuel :
  forall attempts,
    0 <= attempts ->
    (Z.to_nat (CaptchaSolver.maxAttempts - attempts) <= fuel)%nat ->
    let result := CaptchaSolver.pollLoop fuel poll attempts in
    attempts <= snd result <= Z.max attempts CaptchaSolver.maxAttempts
    /\ (forall recaptchaToken, fst result = Some recaptchaToken ->
          attempts < snd result
          /\ poll (snd result) = CaptchaSolver.Ready recaptchaToken
          /\ forall k, attempts < k < snd result -> poll k = CaptchaSolver.Pending)
    /\ ((forall k, attempts < k <= CaptchaSolver.maxAttempts ->
                   poll k = CaptchaSolver.Pending) ->
        fst result = None /\ snd result = Z.max attempts CaptchaSolver.maxAttempts).
Proof.
  unfold CaptchaSolver.maxAttempts.
  induction fuel as [| fuel IH]; intros attempts Hpos Hfuel; cbn zeta.
  - cbn. split; [lia |]. split; [intros t Ht; discriminate Ht |].
    intros _. split; [reflexivity | lia].
  - cbn [CaptchaSolver.pollLoop]. unfold CaptchaSolver.maxAttempts.
    destruct (Z.ltb_spec attempts 30) as [Hlt | Hge].
    + cbv zeta. destruct (poll (attempts + 1)) as [| | token] eqn:Hpoll.
      * cbn. split; [lia |]. split; [intros t H; discriminate H |].
        intros Hall. rewrite (Hall (attempts + 1) ltac:(lia)) in Hpoll. discriminate Hpoll.
      * specialize (IH (attempts + 1) ltac:(lia) ltac:(lia)). cbn zeta in IH.
        destruct IH as [Hrange [Hready Hpending]].
        split; [lia |]. split.
        -- intros t Ht. destruct (Hready t Ht) as [Hlt' [Hat Hbefore]].
           split; [lia |]. split; [exact Hat |].
           intros k Hk. destruct (Z.eq_dec k (attempts + 1)) as [-> | Hne];
             [exact Hpoll | apply Hbefore; lia].
        -- intros Hall. destruct (Hpending ltac:(intros k Hk; apply Hall; lia)) as [H1 H2].
           split; [exact H1 | lia].
      * cbn. split; [lia |]. split.
        -- intros t Ht. inversion Ht; subst. split; [lia |]. split; [exact Hpoll |].
           intros k Hk. lia.
        -- intros Hall. rewrite (Hall (attempts + 1) ltac:(lia)) in Hpoll. discriminate Hpoll.
    + cbn. split; [lia |]. split; [intros t Ht; discriminate Ht |].
      intros _. split; [reflexivity | lia].
Qed.

(** X18. [solveRecaptcha] never throws and polls the solving service at
    most 30 times (two seconds apart).  A token it returns is the one of the
    first ready result, all earlier polls having been pending.  It returns
    null when the task could not be created (without polling), and after
    exactly 30 polls when none of them was ready. *)
Theorem solveRecaptcha_polls_at_most_thirty_times :
  forall (created : bool) (poll : Z -> CaptchaSolver.answer),
    let result := CaptchaSolver.solveRecaptcha created poll in
    0 <= snd result <= 30
    /\ (forall recaptchaToken, fst result = Some recaptchaToken ->
          created = true
          /\ poll (snd result) = CaptchaSolver.Ready (Some recaptchaToken)
          /\ forall k, 1 <= k < snd result -> poll k = CaptchaSolver.Pending)
    /\ (created = false -> result = (None, 0))
    /\ (created = true ->
        (forall k, 1 <= k <= 30 -> poll k = CaptchaSolver.Pending) ->
        result = (None, 30)).
Proof.
  intros created poll result. subst result. unfold CaptchaSolver.solveRecaptcha.
  destruct created.
  - pose proof (pollLoop_spec poll (Z.to_nat CaptchaSolver.maxAttempts) 0
                  ltac:(lia) ltac:(lia)) as H.
    cbn zeta in H. unfold CaptchaSolver.maxAttempts in *.
    destruct H as [Hrange [Hready Hpending]].
    destruct (CaptchaSolver.pollLoop (Z.to_nat 30) poll 0) as [[token |] polls];
      cbn [fst snd] in *.
    + split; [lia |]. split.
      * intros t Ht. subst token.
        destruct (Hready (Some t) eq_refl) as [_ [Hat Hbefore]].
        split; [reflexivity |]. split; [exact Hat |].
        intros k Hk. apply Hbefore. lia.
      * split; [intros H; discriminate H |].
        intros _ Hall.
        destruct (Hpending ltac:(intros k Hk; apply Hall; lia)) as [H _].
        discriminate H.
    + split; [lia |]. split; [intros t Ht; discriminate Ht |].
      split; [intros H; discriminate H |].
      intros _ Hall.
      destruct (Hpending ltac:(intros k Hk; apply Hall; lia)) as [_ H].
      rewrite H. reflexivity.
  - cbn. split; [lia |]. split; [intros t Ht; discriminate Ht |].
    split; [reflexivity | intros H; discriminate H].
Qed.

Example solveRecaptcha_runs :
  CaptchaSolver.solveRecaptcha true readyAtThird = (Some "token"%string, 3)
  /\ CaptchaSolver.solveRecaptcha true (fun _ => CaptchaSolver.Pending) = (None, 30)
  /\ CaptchaSolver.solveRecaptcha true (fun _ => CaptchaSolver.Failed) = (None, 1).
Proof.
  repeat match goal with |- _ /\ _ => split end; vm_compute; reflexivity.
Qed.

(** ** Waiting for the faucet *)

Lemma waitLoop_true elapsed balances initialBalance maxWaitTime fuel :
  forall checks waitedTime,
    let result :=
      FaucetFlow.waitLoop fuel elapsed balances initialBalance maxWaitTime checks
        waitedTime in
    fst result = Some true ->
    (checks < snd result)%nat
    /\ exists currentBalance,
         balances (snd result) = Some currentBalance /\ initialBalance < currentBalance.
Proof.
  induction fuel as [| fuel IH]; intros checks waitedTime; cbn zeta;
    [intros H; discriminate H |].
  cbn [FaucetFlow.waitLoop].
  destruct (waitedTime <? maxWaitTime); [| intros H; discriminate H].
  cbv zeta. destruct (balances (S checks)) as [currentBalance |] eqn:Hbal;
    [| intros H; discriminate H].
  destruct (Z.ltb_spec initialBalance currentBalance) as [Hup | Hsame].
  - intros _. cbn. split; [lia |]. exists currentBalance. split; assumption.
  - intros H. destruct (IH (S checks) (elapsed (S checks)) H) as [Hlt Hex].
    split; [lia | exact Hex].
Qed.

Lemma waitLoop_ends elapsed balances initialBalance maxWaitTime checkInterval fuel :
  0 < checkInterval ->
  (forall k, Z.of_nat k * checkInterval <= elapsed k) ->
  forall checks waitedTime,
    Z.of_nat checks * checkInterval <= waitedTime ->
    Z.max 0 ((maxWaitTime + checkInterval - 1) / checkInterval - Z.of_nat checks)
      < Z.of_nat fuel ->
    let result :=
      FaucetFlow.waitLoop fuel elapsed balances initialBalance maxWaitTime checks
        waitedTime in
    (exists b, fst result = Some b)
    /\ Z.of_nat (snd result)
       <= Z.max (Z.of_nat checks) ((maxWaitTime + checkInterval - 1) / checkInterval).
Proof.
  intros Hinterval Hclock.
  induction fuel as [| fuel IH]; intros checks waitedTime Hwaited Hfuel; cbn zeta;
    [lia |].
  cbn [FaucetFlow.waitLoop].
  destruct (Z.ltb_spec waitedTime maxWaitTime) as [Hlt | Hge];
    [| cbn; split; [eexists; reflexivity | lia]].
  assert (Hroom : Z.of_nat checks + 1
                  <= (maxWaitTime + checkInterval - 1) / checkInterval).
  { apply Z.div_le_lower_bound; lia. }
  cbv zeta. destruct (balances (S checks)) as [currentBalance |];
    [| cbn [fst snd]; split; [eexists; reflexivity | lia]].
  destruct (initialBalance <? currentBalance);
    [cbn [fst snd]; split; [eexists; reflexivity | lia] |].
  specialize (IH (S checks) (elapsed (S checks)) (Hclock (S checks)) ltac:(lia)).
  cbn zeta in IH. destruct IH as [Hres Hbound]. split; [exact Hres | lia].
Qed.

(** X19. When every check of [waitForBalanceIncrease] comes at least
    [checkInterval > 0] milliseconds after the previous one, the wait ends
    after at most [ceil(maxWaitTime / checkInterval)] balance queries (none
    when [maxWaitTime] is not positive).  It returns true only when the last
    query read a balance above the initial one. *)
Theorem waitForBalanceIncrease_is_bounded :
  forall (elapsed : nat -> Z) (balances : nat -> option Z)
         (initialBalance maxWaitTime checkInterval : Z) (fuel : nat),
    0 < checkInterval ->
    (forall k, Z.of_nat k * checkInterval <= elapsed k) ->
    Z.max 0 ((maxWaitTime + checkInterval - 1) / checkInterval) < Z.of_nat fuel ->
    let result :=
      FaucetFlow.waitForBalanceIncrease fuel elapsed balances initialBalance maxWaitTime in
    (exists b, fst result = Some b)
    /\ Z.of_nat (snd result)
       <= Z.max 0 ((maxWaitTime + checkInterval - 1) / checkInterval)
    /\ (fst result = Some true ->
        exists currentBalance,
          balances (snd result) = Some currentBalance
          /\ initialBalance < currentBalance).
Proof.
  intros elapsed balances initialBalance maxWaitTime checkInterval fuel
    Hinterval Hclock Hfuel result.
  subst result. unfold FaucetFlow.waitForBalanceIncrease.
  pose proof (waitLoop_ends elapsed balances initialBalance maxWaitTime checkInterval
                fuel Hinterval Hclock 0%nat 0 ltac:(lia) ltac:(lia)) as [Hres Hbound].
  split; [exact Hres |]. split; [exact Hbound |].
  intros Htrue.
  exact (proj2 (waitLoop_true elapsed balances initialBalance maxWaitTime fuel 0%nat 0
                  Htrue)).
Qed.

Lemma waitForBalanceIncrease_is_bounded_witness :
  FaucetFlow.waitForBalanceIncrease 100 everyFiveSeconds fundedAtSecond 0 300000
  = (Some true, 2%nat)
  /\ Z.of_nat (snd (FaucetFlow.waitForBalanceIncrease 100 everyFiveSeconds
                      fundedAtSecond 0 300000))
     <= Z.max 0 ((300000 + 5000 - 1) / 5000).
Proof.
  split; [vm_compute; reflexivity |].
  refine (proj1 (proj2
    (waitForBalanceIncrease_is_bounded everyFiveSeconds fundedAtSecond 0 300000 5000
       100 _ _ _))).
  - lia.
  - intros k. unfold everyFiveSeconds. lia.
  - vm_compute. reflexivity.
Defined.

(** X20. [executeFaucetOperations] returns true only when the faucet is
    enabled, the initial balance could be read, [requestFaucet] reported an
    accepted request, and a later query read a balance above the initial
    one. *)
Theorem executeFaucetOperations_true_means_funded :
  forall (fuel : nat) (enable_faucet : bool) (cfg : FaucetManager.config)
         (max_wait_time : option Z) (env : nat -> FaucetManager.attempt_env)
         (initialBalance : option Z) (elapsed : nat -> Z) (balances : nat -> option Z),
    FaucetFlow.executeFaucetOperations fuel enable_faucet cfg max_wait_time env
      initialBalance elapsed balances = Some true ->
    enable_faucet = true
    /\ fst (FaucetManager.requestFaucet cfg env) = true
    /\ exists initial k currentBalance,
         initialBalance = Some initial
         /\ balances k = Some currentBalance
         /\ initial < currentBalance.
Proof.
  intros fuel enable_faucet cfg max_wait_time env initialBalance elapsed balances.
  unfold FaucetFlow.executeFaucetOperations.
  destruct enable_faucet; cbn [negb]; [| intros H; discriminate H].
  destruct initialBalance as [initial |]; [| intros H; discriminate H].
  cbv zeta.
  destruct (fst (FaucetManager.requestFaucet cfg env)); [| intros H; discriminate H].
  intros Htrue. unfold FaucetFlow.waitForBalanceIncrease in Htrue.
  destruct (waitLoop_true elapsed balances initial (JS.or_default max_wait_time 300000)
              fuel 0%nat 0 Htrue) as [_ [currentBalance [Hbal Hup]]].
  split; [reflexivity |]. split; [reflexivity |].
  exists initial. eexists. exists currentBalance. repeat split; eassumption.
Qed.

Lemma executeFaucetOperations_true_means_funded_witness :
  FaucetFlow.executeFaucetOperations 100 true solverFaucetConfig None acceptingFaucet
    (Some 0) everyFiveSeconds fundedAtSecond = Some true
  /\ fst (FaucetManager.requestFaucet solverFaucetConfig acceptingFaucet) = true.
Proof.
  assert (H : FaucetFlow.executeFaucetOperations 100 true solverFaucetConfig None
                acceptingFaucet (Some 0) everyFiveSeconds fundedAtSecond = Some true)
    by (vm_compute; reflexivity).
  split; [exact H |].
  exact (proj1 (proj2 (executeFaucetOperations_true_means_funded 100 true
                         solverFaucetConfig None acceptingFaucet (Some 0)
                         everyFiveSeconds fundedAtSecond H))).
Defined.

(** ** Generated names *)

Lemma pick_in l seed :
  l <> [] -> exists x, Names.pick l seed = Some x /\ In x l.
Proof.
  intros Hne. unfold Names.pick.
  assert (Hlen : (0 < List.length l)%nat) by (destruct l; [contradiction | cbn; lia]).
  pose proof (floor_random_times_range seed (Z.of_nat (List.length l)) ltac:(lia)) as Hidx.
  destruct (nth_error l _) as [x |] eqn:E.
  - exists x. split; [reflexivity |]. eapply nth_error_In. exact E.
  - apply nth_error_None in E. lia.
Qed.

Lemma wellNamed_everywhere symbolOf prefixes suffixes :
  forallb (fun prefix => forallb (wellNamed symbolOf prefix) suffixes) prefixes = true ->
  forall prefix suffix,
    In prefix prefixes -> In suffix suffixes ->
    let name := (prefix ++ " " ++ suffix)%string in
    String.length (symbolOf name) = 2%nat
    /\ allUpper (symbolOf name) = true
    /\ symbolOf name
       = (Names.toUpperCase (Names.charAt0 prefix)
          ++ Names.toUpperCase (Names.charAt0 suffix))%string
    /\ Names.solContractName name = (prefix ++ suffix)%string
    /\ isIdentifier (Names.solContractName name) = true.
Proof.
  intros Hall prefix suffix Hp Hs name.
  rewrite forallb_forall in Hall. specialize (Hall prefix Hp).
  rewrite forallb_forall in Hall. specialize (Hall suffix Hs).
  unfold wellNamed in Hall. fold name in Hall.
  repeat (apply andb_prop in Hall; destruct Hall as [Hall ?]).
  repeat split; try assumption.
  - apply Nat.eqb_eq. assumption.
  - apply String.eqb_eq. assumption.
  - apply String.eqb_eq. assumption.
Qed.

(** X21. Every token name and collection name the generators produce is a
    prefix and a suffix of the constant lists joined by one space, never
    "undefined".  Its symbol consists of the two initials, both capital
    letters, so the branch of [generateTokenSymbol] for symbols longer than
    five characters is never taken; and the contract name derived from it is
    the prefix followed by the suffix, an identifier of letters and digits
    that starts with a letter. *)
Theorem generated_names_give_two_letter_symbols :
  forall (prefixSeed suffixSeed : Z),
    (exists prefix suffix,
        In prefix Names.TOKEN_NAME_PREFIXES /\ In suffix Names.TOKEN_NAME_SUFFIXES
        /\ Names.generateRandomTokenName prefixSeed suffixSeed
           = (prefix ++ " " ++ suffix)%string
        /\ let name := Names.generateRandomTokenName prefixSeed suffixSeed in
           String.length (Names.generateTokenSymbol name) = 2%nat
           /\ allUpper (Names.generateTokenSymbol name) = true
           /\ Names.generateTokenSymbol name
              = (Names.toUpperCase (Names.charAt0 prefix)
                 ++ Names.toUpperCase (Names.charAt0 suffix))%string
           /\ Names.solContractName name = (prefix ++ suffix)%string
           /\ isIdentifier (Names.solContractName name) = true)
    /\ (exists prefix suffix,
          In prefix Names.NFT_NAME_PREFIXES /\ In suffix Names.NFT_NAME_SUFFIXES
          /\ Names.generateRandomNFTName prefixSeed suffixSeed
             = (prefix ++ " " ++ suffix)%string
          /\ let name := Names.generateRandomNFTName prefixSeed suffixSeed in
             String.length (Names.generateRandomNFTSymbol name) = 2%nat
             /\ allUpper (Names.generateRandomNFTSymbol name) = true
             /\ Names.generateRandomNFTSymbol name
                = (Names.toUpperCase (Names.charAt0 prefix)
                   ++ Names.toUpperCase (Names.charAt0 suffix))%string
             /\ Names.solContractName name = (prefix ++ suffix)%string
             /\ isIdentifier (Names.solContractName name) = true).
Proof.
  intros prefixSeed suffixSeed. split.
  - destruct (pick_in Names.TOKEN_NAME_PREFIXES prefixSeed ltac:(discriminate))
      as [prefix [Hp Hpin]].
    destruct (pick_in Names.TOKEN_NAME_SUFFIXES suffixSeed ltac:(discriminate))
      as [suffix [Hs Hsin]].
    exists prefix, suffix.
    unfold Names.generateRandomTokenName. rewrite Hp, Hs. cbn [Names.show].
    split; [exact Hpin |]. split; [exact Hsin |]. split; [reflexivity |].
    apply (wellNamed_everywhere Names.generateTokenSymbol Names.TOKEN_NAME_PREFIXES
             Names.TOKEN_NAME_SUFFIXES); [vm_compute; reflexivity | assumption ..].
  - destruct (pick_in Names.NFT_NAME_PREFIXES prefixSeed ltac:(discriminate))
      as [prefix [Hp Hpin]].
    destruct (pick_in Names.NFT_NAME_SUFFIXES suffixSeed ltac:(discriminate))
      as [suffix [Hs Hsin]].
    exists prefix, suffix.
    unfold Names.generateRandomNFTName. rewrite Hp, Hs. cbn [Names.show].
    split; [exact Hpin |]. split; [exact Hsin |]. split; [reflexivity |].
    apply (wellNamed_everywhere Names.generateRandomNFTSymbol Names.NFT_NAME_PREFIXES
             Names.NFT_NAME_SUFFIXES); [vm_compute; reflexivity | assumption ..].
Qed.

(** ** Random delays *)

(** X22. [addRandomDelay] waits a whole number of seconds between the
    configured minimum and maximum, bounds included, when they are ordered;
    an absent or zero bound is replaced by 2 and 10, so that with no
    configuration the wait is 2..10 seconds, and never less than a second
    for bounds that are not negative.  Before its attempt number
    [retryCount] the faucet waits between [5 * (retryCount + 1)] and
    [15 * (retryCount + 1)] seconds when no delay is configured, and between
    the configured bounds times [retryCount + 1] when they are positive and
    ordered. *)
Theorem random_delays_stay_within_their_bounds :
  forall (cfg : Delay.delay_config) (seed retryCount : Z),
    let minDelay := JS.or_default (Delay.min_seconds cfg) 2 in
    let maxDelay := JS.or_default (Delay.max_seconds cfg) 10 in
    let delay := Delay.addRandomDelay cfg seed in
    let faucetDelay := Delay.addRandomDelay (Delay.faucetDelay cfg retryCount) seed in
    (minDelay <= maxDelay -> minDelay <= delay <= maxDelay)
    /\ (maxDelay < minDelay -> maxDelay < delay <= minDelay)
    /\ (0 <= minDelay -> 0 <= maxDelay -> 1 <= delay)
    /\ (0 <= retryCount ->
        Delay.min_seconds cfg = None -> Delay.max_seconds cfg = None ->
        5 * (retryCount + 1) <= faucetDelay <= 15 * (retryCount + 1))
    /\ (0 <= retryCount ->
        forall lo hi,
          Delay.min_seconds cfg = Some lo -> Delay.max_seconds cfg = Some hi ->
          0 < lo <= hi ->
          lo * (retryCount + 1) <= faucetDelay <= hi * (retryCount + 1)).
Proof.
  intros cfg seed retryCount minDelay maxDelay delay faucetDelay.
  assert (Hmin : minDelay <> 0).
  { subst minDelay. unfold JS.or_default.
    destruct (Delay.min_seconds cfg) as [v |]; [| lia].
    destruct (Z.eqb_spec v 0); lia. }
  assert (Hmax : maxDelay <> 0).
  { subst maxDelay. unfold JS.or_default.
    destruct (Delay.max_seconds cfg) as [v |]; [| lia].
    destruct (Z.eqb_spec v 0); lia. }
  assert (Hordered : minDelay <= maxDelay -> minDelay <= delay <= maxDelay)
    by (intros H; apply pickCount_range; exact H).
  assert (Hinverted : maxDelay < minDelay -> maxDelay < delay <= minDelay)
    by (intros H; apply pickCount_inverted; exact H).
  split; [exact Hordered |]. split; [exact Hinverted |].
  split; [intros H0 H1; destruct (Z.le_gt_cases minDelay maxDelay) as [H | H];
          [specialize (Hordered H) | specialize (Hinverted ltac:(lia))]; lia |].
  split.
  - intros Hk Hlo Hhi. subst faucetDelay.
    unfold Delay.addRandomDelay, Delay.faucetDelay. rewrite Hlo, Hhi.
    cbn [Delay.min_seconds Delay.max_seconds option_map JS.or_default].
    repeat match goal with
           | |- context [if ?a =? 0 then _ else _] =>
               destruct (Z.eqb_spec a 0); [lia |]
           end.
    apply pickCount_range. lia.
  - intros Hk lo hi Hlo Hhi Hrange. subst faucetDelay.
    unfold Delay.addRandomDelay, Delay.faucetDelay. rewrite Hlo, Hhi.
    cbn [Delay.min_seconds Delay.max_seconds option_map JS.or_default].
    repeat match goal with
           | |- context [if ?a =? 0 then _ else _] =>
               destruct (Z.eqb_spec a 0); [nia |]
           end.
    apply pickCount_range. nia.
Qed.
